(** * Forward-testing execution engine: a shallow embedding

    The development follows three source units of the repository:

    - [netlify/functions/trading-executor.ts], the scheduled executor
      (market clock, candle fetch, built-in EMA crossover, order
      submission, audit logging, the tick handler);
    - [PythonExecutor.executeStrategy], the browser-side strategy sandbox
      wrapper around Pyodide;
    - the Python text [LIGHTWEIGHT_PYTHON_SETUP] ([TechnicalAnalysis.ema]
      and [execute_strategy]).

    JavaScript and Python numbers are IEEE-754 binary64 values; they are
    modelled by Rocq's primitive floats, which are the same format with the
    same rounding, so every arithmetic result below is the one the
    program computes. *)

From Stdlib Require Import String Ascii DecimalString Bool Arith Lia ZArith
  Permutation List.
From Stdlib Require Import PrimFloat Uint63.
Import ListNotations.

Set Warnings "-inexact-float,-register-all".

(** ** JavaScript numbers and arrays *)

Module Js.

(** The four relational operators on numbers.  Each is read off the IEEE
    four-way comparison: an unordered pair (a NaN operand) makes every
    one of them false. *)
Definition lt (x y : float) : bool :=
  match PrimFloat.compare x y with FLt => true | _ => false end.
Definition gt (x y : float) : bool :=
  match PrimFloat.compare x y with FGt => true | _ => false end.
Definition le (x y : float) : bool :=
  match PrimFloat.compare x y with FLt | FEq => true | _ => false end.
Definition ge (x y : float) : bool :=
  match PrimFloat.compare x y with FGt | FEq => true | _ => false end.

(** An array slot holds a value or [undefined] (a hole, or a read past
    the end). *)
Definition slot (A : Type) := option A.

(** [a[i]] *)
Definition get {A : Type} (a : list (slot A)) (i : nat) : slot A :=
  nth i a None.

(** [a[i]] on an array that has no holes *)
Definition index {A : Type} (a : list A) (i : nat) : slot A :=
  nth_error a i.

(** [a[i] = v]: overwrites inside the array, appends at its end, and
    leaves holes when [i] is beyond the end. *)
Definition set {A : Type} (a : list (slot A)) (i : nat) (v : slot A)
  : list (slot A) :=
  if i <? length a then firstn i a ++ v :: skipn (S i) a
  else a ++ repeat None (i - length a) ++ [v].

(** ToNumber on a slot of numbers: [undefined] becomes NaN. *)
Definition to_number (v : slot float) : float :=
  match v with Some f => f | None => PrimFloat.nan end.

(** [for (let i = start; i < start + n; i++) body], as a state
    transformer. *)
Fixpoint for_loop {S : Type} (n : nat) (i : nat) (body : nat -> S -> S)
  (s : S) : S :=
  match n with
  | O => s
  | Datatypes.S k => for_loop k (Datatypes.S i) body (body i s)
  end.

End Js.

(** ** The scheduled executor, [trading-executor.ts] *)

Module TradingExecutor.

Open Scope float_scope.

Inductive Direction := BUY | SELL.

(** What [fetchOANDAMarketData] hands to the strategy. *)
Record MarketData := {
  md_open : list float;
  md_high : list float;
  md_low : list float;
  md_close : list float;
  md_volume : list float
}.

(** The three arrays [executeStrategyLogic] returns; [None] in
    [direction] is JavaScript's [null]. *)
Record Signals := {
  entry : list bool;
  exit : list bool;
  direction : list (option Direction)
}.

(** The body of the loop of [calculateEMA]: the assignment to
    [ema[i]]. *)
Definition ema_body (data : list float) (multiplier : float) (i : nat)
  (ema : list (Js.slot float)) : list (Js.slot float) :=
  Js.set ema i
    (Some (Js.to_number (Js.index data i) * multiplier
           + Js.to_number (Js.get ema (i - 1)%nat) * (1 - multiplier))).

(** [calculateEMA(data, period)] *)
Definition calculateEMA (data : list float) (period : float)
  : list (Js.slot float) :=
  let ema := [] in
  let multiplier := 2 / (period + 1) in
  let ema := Js.set ema 0%nat (Js.index data 0%nat) in
  Js.for_loop (length data - 1)%nat 1%nat (ema_body data multiplier) ema.

(** One iteration of the loop of [executeStrategyLogic]: the three
    [push]es of bar [i]. *)
Definition push_bar (s : Signals) (e x : bool) (d : option Direction)
  : Signals :=
  {| entry := entry s ++ [e];
     exit := exit s ++ [x];
     direction := direction s ++ [d] |}.

Definition bullish_at (ema21 ema55 : list (Js.slot float)) (i : nat) : bool :=
  Js.gt (Js.to_number (Js.get ema21 i)) (Js.to_number (Js.get ema55 i))
  && Js.le (Js.to_number (Js.get ema21 (i - 1)%nat))
           (Js.to_number (Js.get ema55 (i - 1)%nat)).

Definition bearish_at (ema21 ema55 : list (Js.slot float)) (i : nat) : bool :=
  Js.lt (Js.to_number (Js.get ema21 i)) (Js.to_number (Js.get ema55 i))
  && Js.ge (Js.to_number (Js.get ema21 (i - 1)%nat))
           (Js.to_number (Js.get ema55 (i - 1)%nat)).

Definition strategy_body (ema21 ema55 : list (Js.slot float))
  (reverseSignals : bool) (i : nat) (s : Signals) : Signals :=
  if (i <? 55)%nat then push_bar s false false None
  else
    let bullish := bullish_at ema21 ema55 i in
    let bearish := bearish_at ema21 ema55 i in
    if reverseSignals then
      if bearish then push_bar s true false (Some BUY)
      else if bullish then push_bar s true false (Some SELL)
      else push_bar s false false None
    else
      if bullish then push_bar s true false (Some BUY)
      else if bearish then push_bar s true false (Some SELL)
      else push_bar s false false None.

(** [executeStrategyLogic(strategyCode, marketData, reverseSignals)] *)
Definition executeStrategyLogic (strategyCode : string)
  (marketData : MarketData) (reverseSignals : bool) : Signals :=
  let close := md_close marketData in
  let ema21 := calculateEMA close 21 in
  let ema55 := calculateEMA close 55 in
  Js.for_loop (length close) 0%nat (strategy_body ema21 ema55 reverseSignals)
    {| entry := []; exit := []; direction := [] |}.

(** *** Market clock *)

(** The two readings of [new Date()] the clock uses: [getUTCDay()]
    (0 is Sunday, 6 is Saturday) and [getUTCHours()]. *)
Record Now := { utcDay : nat; utcHours : nat }.

Inductive Volume := low | medium | high.

(** [getVolumeLevel(hourUTC)] *)
Definition getVolumeLevel (hourUTC : nat) : Volume :=
  if ((12 <=? hourUTC) && (hourUTC <? 17))%nat then high
  else if ((7 <=? hourUTC) && (hourUTC <? 9))%nat then high
  else if (((8 <=? hourUTC) && (hourUTC <? 17))
           || ((0 <=? hourUTC) && (hourUTC <? 9)))%nat then medium
  else low.

(** The fields of the market status the tick reads.  [nextOpen] and
    [nextClose] are dates shown in the response only and are left
    out. *)
Record MarketStatus := {
  isOpen : bool;
  activeSessions : list string;
  volume : Volume
}.

(** [getMarketStatus()], with the clock reading as its argument. *)
Definition getMarketStatus (now : Now) : MarketStatus :=
  let dayOfWeek := utcDay now in
  let hourUTC := utcHours now in
  let isWeekend :=
    ((dayOfWeek =? 6) || ((dayOfWeek =? 0) && (hourUTC <? 22)))%nat in
  let isFridayClose := ((dayOfWeek =? 5) && (22 <=? hourUTC))%nat in
  let isOpen := negb isWeekend && negb isFridayClose in
  {| isOpen := isOpen;
     activeSessions := if isOpen then ["Global"%string] else [];
     volume := getVolumeLevel hourUTC |}.

Definition volume_name (v : Volume) : string :=
  match v with low => "low" | medium => "medium" | high => "high" end.

(** [formatMarketStatus(status)] *)
Definition formatMarketStatus (status : MarketStatus) : string :=
  if negb (isOpen status) then "Markets Closed"
  else ("Markets Open (" ++ volume_name (volume status) ++ " volume)")%string.

(** *** Sessions *)

(** A row of the [trading_sessions] table. *)
Record Session := {
  id : string;
  user_id : string;
  strategy_id : string;
  strategy_name : string;
  strategy_code : string;
  symbol : string;
  timeframe : string;
  oanda_account_id : string;
  oanda_api_key : string;
  environment : string;
  is_active : bool;
  last_execution : string;
  risk_per_trade : float;
  stop_loss : float;
  take_profit : float;
  max_position_size : float;
  reverse_signals : bool;
  avoid_low_volume : bool
}.

(** [shouldExecuteTrade(marketStatus, session)] *)
Definition shouldExecuteTrade (marketStatus : MarketStatus)
  (session : Session) : bool :=
  if negb (isOpen marketStatus) then false
  else if (match volume marketStatus with low => true | _ => false end)
          && avoid_low_volume session then false
  else true.

(** *** Values exchanged with the outside *)

(** A JavaScript [Error]; only its [message] is ever read. *)
Record Error := { message : string }.

Inductive Outcome (A : Type) :=
| Returned (a : A)
| Thrown (e : Error).
Arguments Returned {A} a.
Arguments Thrown {A} e.

(** A candle of the brokerage answer, each field after [parseFloat]
    (prices) or [parseInt] (volume): a malformed number is NaN. *)
Record Candle := {
  mid_o : float; mid_h : float; mid_l : float; mid_c : float;
  c_volume : float
}.

(** The body of the order [POST]. [units] is sent as its decimal text
    and the two distances as the text of the quotient; the text of a
    number reads back as the same number, so the numbers are kept. *)
Record OrderData := {
  order_type : string;
  instrument : string;
  units : Z;
  stopLossOnFill_distance : float;
  takeProfitOnFill_distance : float
}.

Inductive Action := SKIPPED_MARKET_CONDITIONS | TRADE_EXECUTED | NO_SIGNAL.

(** The object a session pipeline resolves to. *)
Record SessionResult := {
  sessionId : string;
  r_symbol : string;
  action : Action;
  r_direction : option Direction;
  r_tradeResult : option string;
  r_reason : option string;
  r_marketStatus : option string;
  r_timestamp : option string
}.

Inductive LogType := info | trade | error.

(** The [activity] argument of [logTradingActivity]. *)
Record Activity := {
  logType : LogType;
  a_message : string;
  a_action : option Action;
  a_signal : option bool;
  a_direction : option Direction;
  a_tradeResult : option string;
  a_marketStatus : option string;
  a_error : option string;
  a_timestamp : string
}.

(** A row of the [trading_logs] table. *)
Record LogEntry := {
  session_id : string;
  l_user_id : string;
  log_type : LogType;
  l_message : string;
  trade_data : Activity;
  sessionInfo : string * string * string
}.

(** Requests that leave the process: database calls and HTTP calls. *)
Inductive Request :=
| SelectActiveSessions
| InsertLog (e : LogEntry)
| UpdateLastExecution (row_id : string) (value : string)
| GetCandles (url : string) (bearer : string)
| PostOrder (url : string) (bearer : string) (body : OrderData).

Inductive ConsoleLine :=
| LogStarting (timestamp : string)
| LogMarketStatus (status : string)
| LogMarketsClosed
| LogNoActiveSessions
| LogProcessingSessions (n : nat)
| LogSessionProcessed (number : nat) (value : SessionResult)
| ErrSessionFailed (number : nat) (reason : Error)
| ErrCritical (e : Error)
| ErrDatabaseFetchingSessions (e : Error)
| LogRetrievedSessions (n : nat)
| ErrFetchingSessions (e : Error)
| LogUpdatedExecutionTimes (n : nat)
| ErrUpdateExecutionTimes (e : Error)
| LogProcessingSession (symbol timeframe strategy_name : string)
| LogSkippingTrade (symbol : string)
| LogSignalDetected (d : Direction) (symbol : string)
| LogNoSignals (symbol : string)
| ErrProcessingSession (session_id : string) (e : Error)
| ErrFailedToLog (e : Error)
| LogLoggedActivity (session_id : string)
| ErrLoggingActivity (e : Error).

(** *** The outside world *)

(** What the tick can change or leave behind: the two tables, the
    console, and the trace of requests it issued. *)
Record World := {
  trading_sessions : list Session;
  trading_logs : list LogEntry;
  console : list ConsoleLine;
  requests : list Request
}.

Inductive DbReply := DbOk | DbError (e : Error) | DbThrows (e : Error).

Inductive SelectReply :=
| SelectRows | SelectNoData | SelectError (e : Error) | SelectThrows (e : Error).

(** Answer to the candle request: [fetch] rejects, or a response with
    its status line and what reading the body as a candle list gives
    (an exception when the body is not JSON of that shape). *)
Inductive FetchReply :=
| FetchRejects (e : Error)
| FetchResponse (status : nat) (statusText : string)
    (body : Error + list Candle).

(** Answer to the order [POST]: [text] is the body read by
    [response.text()], [json] what [response.json()] gives. *)
Inductive PostReply :=
| PostRejects (e : Error)
| PostResponse (status : nat) (text : string) (json : Error + string).

(** How the outside answers during one tick.  [order_reply s o n] is the
    brokerage's answer to the [n]-th submission (from 0) of order [o]
    for session [s].  The clock is read once: the source reads it anew
    for every timestamp it writes. *)
Record Env := {
  now : Now;
  iso_now : string;
  select_reply : SelectReply;
  insert_reply : LogEntry -> DbReply;
  update_reply : string -> DbReply;
  candles_reply : Session -> FetchReply;
  order_reply : Session -> OrderData -> nat -> PostReply
}.

(** [response.ok] *)
Definition response_ok (status : nat) : bool :=
  ((200 <=? status) && (status <=? 299))%nat.

Definition show_nat (n : nat) : string :=
  NilEmpty.string_of_uint (Nat.to_uint n).

(** *** Effects: world passing with exceptions *)

Definition M (A : Type) := World -> Outcome A * World.

Definition ret {A : Type} (a : A) : M A := fun w => (Returned a, w).

Definition bind {A B : Type} (m : M A) (k : A -> M B) : M B :=
  fun w =>
    match m w with
    | (Returned a, w1) => k a w1
    | (Thrown e, w1) => (Thrown e, w1)
    end.

Definition throw {A : Type} (e : Error) : M A := fun w => (Thrown e, w).

(** [try { m } catch (error) { h error }] *)
Definition try_catch {A : Type} (m : M A) (h : Error -> M A) : M A :=
  fun w =>
    match m w with
    | (Returned a, w1) => (Returned a, w1)
    | (Thrown e, w1) => h e w1
    end.

Definition console_write (c : ConsoleLine) : M unit :=
  fun w => (Returned tt,
            {| trading_sessions := trading_sessions w;
               trading_logs := trading_logs w;
               console := console w ++ [c];
               requests := requests w |}).

Definition send (r : Request) : M unit :=
  fun w => (Returned tt,
            {| trading_sessions := trading_sessions w;
               trading_logs := trading_logs w;
               console := console w;
               requests := requests w ++ [r] |}).

Definition read_sessions : M (list Session) :=
  fun w => (Returned (trading_sessions w), w).

Definition write_sessions (f : list Session -> list Session) : M unit :=
  fun w => (Returned tt,
            {| trading_sessions := f (trading_sessions w);
               trading_logs := trading_logs w;
               console := console w;
               requests := requests w |}).

Definition append_log (e : LogEntry) : M unit :=
  fun w => (Returned tt,
            {| trading_sessions := trading_sessions w;
               trading_logs := trading_logs w ++ [e];
               console := console w;
               requests := requests w |}).

Declare Scope tick_scope.
Delimit Scope tick_scope with tick.
Notation "x <- m ;; k" := (bind m (fun x => k))
  (at level 61, m at next level, right associativity) : tick_scope.
Notation "m ;;; k" := (bind m (fun _ => k))
  (at level 61, right associativity) : tick_scope.
Local Open Scope tick_scope.

(** *** Database helpers of the executor *)

(** [logTradingActivity(session, activity)]: the whole body sits in a
    [try]/[catch], and a failed insert is only written to the console. *)
Definition logTradingActivity (env : Env) (session : Session)
  (activity : Activity) : M unit :=
  let logEntry :=
    {| session_id := id session;
       l_user_id := user_id session;
       log_type := logType activity;
       l_message := a_message activity;
       trade_data := activity;
       sessionInfo := (strategy_name session, symbol session,
                       timeframe session) |} in
  send (InsertLog logEntry) ;;;
  match insert_reply env logEntry with
  | DbOk => append_log logEntry ;;;
            console_write (LogLoggedActivity (id session))
  | DbError e => console_write (ErrFailedToLog e)
  | DbThrows e => console_write (ErrLoggingActivity e)
  end.

(** [getActiveTradingSessions()] *)
Definition getActiveTradingSessions (env : Env) : M (list Session) :=
  send SelectActiveSessions ;;;
  match select_reply env with
  | SelectRows =>
      rows <- read_sessions ;;
      let data := filter is_active rows in
      console_write (LogRetrievedSessions (length data)) ;;;
      ret data
  | SelectNoData =>
      console_write (LogRetrievedSessions 0) ;;;
      ret []
  | SelectError e =>
      console_write (ErrDatabaseFetchingSessions e) ;;;
      ret []
  | SelectThrows e =>
      console_write (ErrFetchingSessions e) ;;;
      ret []
  end.

Definition set_last_execution (s : Session) (v : string) : Session :=
  {| id := id s; user_id := user_id s; strategy_id := strategy_id s;
   strategy_name := strategy_name s;
     strategy_code := strategy_code s; symbol := symbol s;
     timeframe := timeframe s; oanda_account_id := oanda_account_id s;
     oanda_api_key := oanda_api_key s; environment := environment s;
     is_active := is_active s;
     last_execution := v;
     risk_per_trade := risk_per_trade s; stop_loss := stop_loss s;
     take_profit := take_profit s;
     max_position_size := max_position_size s;
     reverse_signals := reverse_signals s;
     avoid_low_volume := avoid_low_volume s |}.

(** [.update({ last_execution }).eq('id', row_id)] on the table. *)
Definition db_update_last_execution (row_id value : string)
  (rows : list Session) : list Session :=
  map (fun r => if String.eqb (id r) row_id
                then set_last_execution r value else r) rows.

Fixpoint for_each {A : Type} (l : list A) (f : A -> M unit) : M unit :=
  match l with
  | [] => ret tt
  | a :: rest => f a ;;; for_each rest f
  end.

(** [updateSessionExecutionTimes(sessions)]: the answer of an update is
    not inspected; an update that throws ends the loop in the [catch]. *)
Definition updateSessionExecutionTimes (env : Env)
  (sessions : list Session) : M unit :=
  try_catch
    (let updates := map (fun session => (id session, iso_now env)) sessions in
     for_each updates (fun update =>
       send (UpdateLastExecution (fst update) (snd update)) ;;;
       match update_reply env (fst update) with
       | DbOk => write_sessions
                   (db_update_last_execution (fst update) (snd update))
       | DbError _ => ret tt
       | DbThrows e => throw e
       end) ;;;
     console_write (LogUpdatedExecutionTimes (length updates)))
    (fun error => console_write (ErrUpdateExecutionTimes error)).

(** *** Brokerage calls *)

Definition baseUrl (session : Session) : string :=
  if String.eqb (environment session) "practice"
  then "https://api-fxpractice.oanda.com"
  else "https://api-fxtrade.oanda.com".

(** [parseInt(c.volume) || 1000] *)
Definition volume_or_default (v : float) : float :=
  if PrimFloat.is_nan v || PrimFloat.eqb v 0 then 1000 else v.

(** [fetchOANDAMarketData(session)] *)
Definition fetchOANDAMarketData (env : Env) (session : Session)
  : M MarketData :=
  send (GetCandles
          (baseUrl session ++ "/v3/instruments/" ++ symbol session
           ++ "/candles?count=500&granularity=" ++ timeframe session)%string
          (oanda_api_key session)) ;;;
  match candles_reply env session with
  | FetchRejects e => throw e
  | FetchResponse status statusText body =>
      if negb (response_ok status) then
        throw {| message := ("OANDA API error: " ++ show_nat status
                             ++ " " ++ statusText)%string |}
      else
        match body with
        | inl e => throw e
        | inr candles =>
            ret {| md_open := map mid_o candles;
                   md_high := map mid_h candles;
                   md_low := map mid_l candles;
                   md_close := map mid_c candles;
                   md_volume :=
                     map (fun c => volume_or_default (c_volume c)) candles |}
        end
  end.

(** The [orderData] object built by [executeOANDATrade]. *)
Definition orderData (session : Session) (direction : Direction)
  : OrderData :=
  let units := match direction with BUY => 1000%Z | SELL => (-1000)%Z end in
  {| order_type := "MARKET";
     instrument := symbol session;
     units := units;
     stopLossOnFill_distance := stop_loss session / 10000;
     takeProfitOnFill_distance := take_profit session / 10000 |}.

(** [executeOANDATrade(session, direction)]: one [POST], whose answer
    is the brokerage's answer to submission number 0. *)
Definition executeOANDATrade (env : Env) (session : Session)
  (direction : Direction) : M string :=
  let order := orderData session direction in
  send (PostOrder
          (baseUrl session ++ "/v3/accounts/" ++ oanda_account_id session
           ++ "/orders")%string
          (oanda_api_key session) order) ;;;
  match order_reply env session order 0%nat with
  | PostRejects e => throw e
  | PostResponse status text json =>
      if negb (response_ok status) then
        throw {| message := ("Trade execution failed: " ++ text)%string |}
      else
        match json with
        | inl e => throw e
        | inr value => ret value
        end
  end.

(** *** One session's pipeline *)

Definition direction_name (d : Direction) : string :=
  match d with BUY => "BUY" | SELL => "SELL" end.

(** The tail of [processTradinSession] reached when no trade is made. *)
Definition no_signal (env : Env) (session : Session) : M SessionResult :=
  console_write (LogNoSignals (symbol session)) ;;;
  logTradingActivity env session
    {| logType := info;
       a_message := ("No trading signals detected for "
                     ++ symbol session)%string;
       a_action := None; a_signal := None; a_direction := None;
       a_tradeResult := None; a_marketStatus := None; a_error := None;
       a_timestamp := iso_now env |} ;;;
  ret {| sessionId := id session; r_symbol := symbol session;
         action := NO_SIGNAL; r_direction := None; r_tradeResult := None;
         r_reason := None; r_marketStatus := None;
         r_timestamp := Some (iso_now env) |}.

(** [processTradinSession(session, marketStatus)] *)
Definition processTradinSession (env : Env) (marketStatus : MarketStatus)
  (session : Session) : M SessionResult :=
  console_write (LogProcessingSession (symbol session) (timeframe session)
                   (strategy_name session)) ;;;
  try_catch
    (if negb (shouldExecuteTrade marketStatus session) then
       console_write (LogSkippingTrade (symbol session)) ;;;
       logTradingActivity env session
         {| logType := info;
            a_message := ("Skipped execution due to market conditions: "
                          ++ formatMarketStatus marketStatus)%string;
            a_action := Some SKIPPED_MARKET_CONDITIONS;
            a_signal := None; a_direction := None; a_tradeResult := None;
            a_marketStatus := None; a_error := None;
            a_timestamp := iso_now env |} ;;;
       ret {| sessionId := id session; r_symbol := symbol session;
              action := SKIPPED_MARKET_CONDITIONS; r_direction := None;
              r_tradeResult := None;
              r_reason := Some (formatMarketStatus marketStatus);
              r_marketStatus := None;
              r_timestamp := Some (iso_now env) |}
     else
       marketData <- fetchOANDAMarketData env session ;;
       let signals :=
         executeStrategyLogic (strategy_code session) marketData
           (reverse_signals session) in
       if (0 <? length (entry signals))%nat then
         let latestSignal :=
           Js.index (entry signals) (length (entry signals) - 1) in
         let direction :=
           Js.index (direction signals) (length (direction signals) - 1) in
         match latestSignal, direction with
         | Some true, Some (Some direction) =>
             console_write (LogSignalDetected direction (symbol session)) ;;;
             tradeResult <- executeOANDATrade env session direction ;;
             logTradingActivity env session
               {| logType := trade;
                  a_message := ("Trade executed: " ++ direction_name direction
                                ++ " for " ++ symbol session)%string;
                  a_action := None; a_signal := Some true;
                  a_direction := Some direction;
                  a_tradeResult := Some tradeResult;
                  a_marketStatus := Some (formatMarketStatus marketStatus);
                  a_error := None;
                  a_timestamp := iso_now env |} ;;;
             ret {| sessionId := id session; r_symbol := symbol session;
                    action := TRADE_EXECUTED;
                    r_direction := Some direction;
                    r_tradeResult := Some tradeResult;
                    r_reason := None;
                    r_marketStatus := Some (formatMarketStatus marketStatus);
                    r_timestamp := None |}
         | _, _ => no_signal env session
         end
       else no_signal env session)
    (fun error =>
       console_write (ErrProcessingSession (id session) error) ;;;
       logTradingActivity env session
         {| logType := TradingExecutor.error;
            a_message := ("Session processing error: "
                          ++ message error)%string;
            a_action := None; a_signal := None; a_direction := None;
            a_tradeResult := None; a_marketStatus := None;
            a_error := Some (message error);
            a_timestamp := iso_now env |} ;;;
       throw error).

(** *** The tick *)

Inductive Settled (A : Type) :=
| fulfilled (value : A)
| rejected (reason : Error).
Arguments fulfilled {A} value.
Arguments rejected {A} reason.

(** [Promise.allSettled(promises)]: every promise is run to its end and
    its outcome recorded; nothing is thrown.  The pipelines are run in
    list order: they share nothing but the two append-only traces and
    the log table, which none of them reads. *)
Fixpoint allSettled {A : Type} (promises : list (M A))
  : M (list (Settled A)) :=
  match promises with
  | [] => ret []
  | p :: rest =>
      fun w =>
        let (o, w1) := p w in
        let settled :=
          match o with
          | Returned a => fulfilled a
          | Thrown e => rejected e
          end in
        (r <- allSettled rest ;; ret (settled :: r)) w1
  end.

(** The [results.forEach] of the handler, from position [index]. *)
Fixpoint log_results (results : list (Settled SessionResult)) (index : nat)
  (successCount errorCount : nat) : M (nat * nat) :=
  match results with
  | [] => ret (successCount, errorCount)
  | fulfilled value :: rest =>
      console_write (LogSessionProcessed (index + 1) value) ;;;
      log_results rest (S index) (successCount + 1) errorCount
  | rejected reason :: rest =>
      console_write (ErrSessionFailed (index + 1) reason) ;;;
      log_results rest (S index) successCount (errorCount + 1)
  end.

Inductive Body :=
| MarketsClosedBody (marketStatus : string)
| NoActiveSessionsBody
| CompletedBody (processedSessions successCount errorCount : nat)
    (marketStatus : string) (timestamp : string)
| FailedBody (message : string) (timestamp : string).

Record Response := { statusCode : nat; body : Body }.

(** The scheduled [handler]. *)
Definition handler (env : Env) : M Response :=
  console_write (LogStarting (iso_now env)) ;;;
  try_catch
    (let marketStatus := getMarketStatus (now env) in
     console_write (LogMarketStatus (formatMarketStatus marketStatus)) ;;;
     if negb (isOpen marketStatus) then
       console_write LogMarketsClosed ;;;
       ret {| statusCode := 200;
              body := MarketsClosedBody (formatMarketStatus marketStatus) |}
     else
       activeSessions <- getActiveTradingSessions env ;;
       if (length activeSessions =? 0)%nat then
         console_write LogNoActiveSessions ;;;
         ret {| statusCode := 200; body := NoActiveSessionsBody |}
       else
         console_write (LogProcessingSessions (length activeSessions)) ;;;
         results <- allSettled
                      (map (fun session =>
                              processTradinSession env marketStatus session)
                         activeSessions) ;;
         counts <- log_results results 0 0 0 ;;
         updateSessionExecutionTimes env activeSessions ;;;
         ret {| statusCode := 200;
                body := CompletedBody (length activeSessions)
                          (fst counts) (snd counts)
                          (formatMarketStatus marketStatus)
                          (iso_now env) |})
    (fun error =>
       console_write (ErrCritical error) ;;;
       ret {| statusCode := 500;
              body := FailedBody (message error) (iso_now env) |}).

End TradingExecutor.

(** ** Stopping a session, [ForwardTestingService.stopSession] *)

Module ForwardTestingService.

Import TradingExecutor.
Local Open Scope tick_scope.

Definition deactivate (s : Session) : Session :=
  {| id := id s; user_id := user_id s; strategy_id := strategy_id s;
   strategy_name := strategy_name s;
     strategy_code := strategy_code s; symbol := symbol s;
     timeframe := timeframe s; oanda_account_id := oanda_account_id s;
     oanda_api_key := oanda_api_key s; environment := environment s;
     is_active := false;
     last_execution := last_execution s;
     risk_per_trade := risk_per_trade s; stop_loss := stop_loss s;
     take_profit := take_profit s;
     max_position_size := max_position_size s;
     reverse_signals := reverse_signals s;
     avoid_low_volume := avoid_low_volume s |}.

(** The row [startSession] inserts, with the [id] the database gives
    it and the clock reading [now]. *)
Definition sessionData (row_id userId strategyId strategyName strategyCode
  symbol timeframe oandaAccountId oandaApiKey environment now : string)
  : Session :=
  {| id := row_id; user_id := userId; strategy_id := strategyId;
     strategy_name := strategyName;
     strategy_code := strategyCode; symbol := symbol;
     timeframe := timeframe; oanda_account_id := oandaAccountId;
     oanda_api_key := oandaApiKey; environment := environment;
     is_active := true;
     last_execution := now;
     risk_per_trade := 2.0; stop_loss := 40; take_profit := 80;
     max_position_size := 100000;
     reverse_signals := false; avoid_low_volume := false |}.

(** The rows the query of [stopSession] selects: those of the user, and
    only the one with the given id when a non-empty id is passed. *)
Definition selected (userId : string) (sessionId : option string)
  (r : Session) : bool :=
  String.eqb (user_id r) userId
  && match sessionId with
     | None | Some EmptyString => true
     | Some i => String.eqb (id r) i
     end.

(** [stopSession(userId, sessionId?)]; [reply] is the database's
    answer to the update. *)
Definition stopSession (reply : DbReply) (userId : string)
  (sessionId : option string) : M unit :=
  match reply with
  | DbOk =>
      write_sessions
        (map (fun r => if selected userId sessionId r
                       then deactivate r else r))
  | DbError e => throw e
  | DbThrows e => throw e
  end.

End ForwardTestingService.

(** ** Python values and the part of Python's semantics the sandbox uses *)

Module Py.

(** Values that live in the interpreter and cross to JavaScript.
    [VNone] is Python's [None] and, on the JavaScript side, [null];
    [VDict] is a [dict] in insertion order and a plain object;
    [VArray] is a one-dimensional numpy array. *)
Inductive Val :=
| VNone
| VBool (b : bool)
| VInt (z : Z)
| VFloat (f : float)
| VStr (s : string)
| VList (l : list Val)
| VArray (l : list Val)
| VDict (d : list (string * Val))
| VObject (type_name : string).

(** Evaluation of Python code: a value, or an exception with the text
    [str(e)] gives. *)
Inductive Eval (A : Type) :=
| Value (a : A)
| Raise (text : string).
Arguments Value {A} a.
Arguments Raise {A} text.

Definition and_then {A B : Type} (m : Eval A) (k : A -> Eval B) : Eval B :=
  match m with
  | Value a => k a
  | Raise t => Raise t
  end.

Definition type_name (v : Val) : string :=
  match v with
  | VNone => "NoneType"
  | VBool _ => "bool"
  | VInt _ => "int"
  | VFloat _ => "float"
  | VStr _ => "str"
  | VList _ => "list"
  | VArray _ => "numpy.ndarray"
  | VDict _ => "dict"
  | VObject n => n
  end.

(** [type(v)] as an f-string prints it *)
Definition type_repr (v : Val) : string :=
  ("<class '" ++ type_name v ++ "'>")%string.

Definition ambiguous_truth : string :=
  "The truth value of an array with more than one element is ambiguous. Use a.any() or a.all()".

(** [bool(v)]: an array of two or more elements has no truth value. *)
Fixpoint truthy (v : Val) : Eval bool :=
  match v with
  | VNone => Value false
  | VBool b => Value b
  | VInt z => Value (negb (Z.eqb z 0))
  | VFloat f => Value (negb (PrimFloat.eqb f 0))
  | VStr s => Value (negb (String.eqb s ""))
  | VList l => Value (match l with [] => false | _ => true end)
  | VArray l =>
      match l with
      | [] => Value false
      | [x] => truthy x
      | _ => Raise ambiguous_truth
      end
  | VDict d => Value (match d with [] => false | _ => true end)
  | VObject _ => Value true
  end.

(** [len(v)]; a string is counted in bytes, which is its length when
    it is ASCII. *)
Definition len (v : Val) : Eval nat :=
  match v with
  | VStr s => Value (String.length s)
  | VList l | VArray l => Value (length l)
  | VDict d => Value (length d)
  | _ => Raise ("object of type '" ++ type_name v ++ "' has no len()")%string
  end.

(** [d.get(key)] on a dict, [None] when the key is absent *)
Fixpoint lookup (key : string) (d : list (string * Val)) : option Val :=
  match d with
  | [] => None
  | (k, v) :: rest => if String.eqb k key then Some v else lookup key rest
  end.

(** [d.get(key, default)] *)
Definition get (d : list (string * Val)) (key : string) (default : Val)
  : Val :=
  match lookup key d with Some v => v | None => default end.

(** [[v] * n] *)
Definition replicate (v : Val) (n : nat) : Val := VList (repeat v n).

End Py.

(** ** The browser-side sandbox wrapper, [PythonExecutor.executeStrategy] *)

Module PythonExecutor.

Import Py.

(** The [marketData] argument.  A field that is [undefined] at run time
    is [None]: the function itself tests for that. *)
Record MarketData := {
  open : option (list float);
  high : option (list float);
  low : option (list float);
  close : option (list float);
  volume : option (list float)
}.

(** [plainMarketData], the object handed to Python. *)
Record PlainMarketData := {
  p_open : list float;
  p_high : list float;
  p_low : list float;
  p_close : list float;
  p_volume : list float
}.

(** What a JavaScript [catch] receives: an [Error] with its message, or
    some other thrown value. *)
Inductive Thrown :=
| ThrownError (message : string)
| ThrownOther.

(** [x instanceof Error ? x.message : fallback] *)
Definition message_or (x : Thrown) (fallback : string) : string :=
  match x with
  | ThrownError m => m
  | ThrownOther => fallback
  end.

Inductive Outcome (A : Type) :=
| Returned (a : A)
| Threw (x : Thrown).
Arguments Returned {A} a.
Arguments Threw {A} x.

Inductive InitReply :=
| InitReady
| InitNothing
| InitThrows (x : Thrown).

(** The browser and the Pyodide runtime as the wrapper sees them.
    [not_iterable] is the text of the engine's [TypeError] for
    [Array.from(undefined)].  [check_escapes] and [strategy_escapes] say
    what, if anything, leaves the first and the second Python script as
    an exception: [strategy_escapes] covers the call of
    [execute_strategy], the Python function installed by the loader
    from [STRATEGY_EXECUTOR_PYTHON_CODE], whose text is not part of
    these sources, and every statement below holds whatever it does. *)
Record Pyodide := {
  initialize : InitReply;
  not_iterable : string;
  globals_set : option Thrown;
  check_escapes : option Thrown;
  strategy_escapes : PlainMarketData -> string -> option Thrown;
  toJs_throws : option Thrown
}.

(** The result object the wrapper builds itself
    ([new Array(n).fill(..)]). *)
Definition fallback (n : nat) (error : string) : Val :=
  VDict [("entry"%string, replicate (VBool false) n);
         ("exit"%string, replicate (VBool false) n);
         ("direction"%string, replicate VNone n);
         ("error"%string, VStr error)].

(** [Array.from(a).map(x => Number(x))]: throws a [TypeError] on
    [undefined]. *)
Definition array_from (py : Pyodide) (a : option (list float))
  : Outcome (list float) :=
  match a with
  | Some l => Returned l
  | None => Threw (ThrownError (not_iterable py))
  end.

(** A Python script as [runPython] treats it: what leaves it as an
    exception, and the value of its last top-level statement when that
    statement is an expression. *)
Record Script := {
  escapes : option Thrown;
  last_expression : option Val
}.

(** [pyodide.runPython(script)]: an exception that leaves the script is
    thrown; otherwise the result is the value of the last top-level
    expression, and Python's [None], which JavaScript receives as
    [undefined] and which is [None] here, when the script does not end
    in an expression. *)
Definition runPython (script : Script) : Outcome (option Val) :=
  match escapes script with
  | Some x => Threw x
  | None =>
      Returned (match last_expression script with
                | Some VNone | None => None
                | Some v => Some v
                end)
  end.

(** The first script, which looks for [execute_strategy] in
    [globals()].  Its text is one [try] statement: the expressions
    [result] and [False] stand inside the [try] and the [except]
    blocks, so the script has no last top-level expression. *)
Definition check_script (py : Pyodide) : Script :=
  {| escapes := check_escapes py; last_expression := None |}.

(** The second script, which calls [execute_strategy].  It is one [try]
    statement as well, with [result] and the fallback dictionary inside
    its blocks. *)
Definition strategy_script (py : Pyodide) (js_market_data : PlainMarketData)
  (js_strategy_code : string) : Script :=
  {| escapes := strategy_escapes py js_market_data js_strategy_code;
     last_expression := None |}.

(** [!v] on what [runPython] returned: primitives by their value,
    proxies are objects. *)
Definition js_not (v : option Val) : bool :=
  match v with
  | None | Some VNone => true
  | Some (VBool b) => negb b
  | Some (VInt z) => Z.eqb z 0
  | Some (VFloat f) => PrimFloat.eqb f 0 || PrimFloat.is_nan f
  | Some (VStr text) => String.eqb text ""
  | Some _ => false
  end.

(** How [runPython] hands a Python value to JavaScript. *)
Inductive PythonResult :=
| NoResult
| Primitive (type_of : string)
| PlainObject (fields : list (string * Val))
| Proxy (v : Val)
| OtherObject (as_json : Thrown + Val).

(** Pyodide's conversion of the value of the last expression: [None]
    arrives as [undefined], booleans, numbers and strings as
    primitives, everything else behind a proxy that has [toJs]. *)
Definition as_seen_from_js (v : option Val) : PythonResult :=
  match v with
  | None | Some VNone => NoResult
  | Some (VBool _) => Primitive "boolean"
  | Some (VInt _) | Some (VFloat _) => Primitive "number"
  | Some (VStr _) => Primitive "string"
  | Some v => Proxy v
  end.

(** [!jsResult || typeof jsResult !== 'object'] *)
Definition invalid_after_conversion (jsResult : Val) : bool :=
  match jsResult with
  | VList _ | VArray _ | VDict _ | VObject _ => false
  | _ => true
  end.

(** The part of [executeStrategy] after the check for the function:
    the second script, the test for [undefined] and the conversion of
    the result. *)
Definition run_strategy (py : Pyodide) (plainMarketData : PlainMarketData)
  (code : string) (n : nat) : Outcome Val :=
  match runPython (strategy_script py plainMarketData code) with
  | Threw pythonError =>
      Returned (fallback n ("Python execution failed: "
                 ++ message_or pythonError "Unknown Python error")%string)
  | Returned value =>
      match as_seen_from_js value with
      | NoResult =>
          Returned (fallback n
            "Python execution returned undefined result - check strategy code syntax")
      | pythonResult =>
          let converted :=
            match pythonResult with
            | PlainObject fields => inr (inr (VDict fields))
            | Proxy v =>
                match toJs_throws py with
                | Some conversionError => inl conversionError
                | None => inr (inr v)
                end
            | OtherObject (inl conversionError) => inl conversionError
            | OtherObject (inr v) => inr (inr v)
            | Primitive type_of => inr (inl type_of)
            | NoResult => inr (inl "undefined"%string)
            end in
          match converted with
          | inl conversionError =>
              Returned (fallback n ("Result conversion failed: "
                         ++ message_or conversionError
                              "Unknown conversion error")%string)
          | inr (inl type_of) =>
              Returned (fallback n
                ("Unexpected Python result type: " ++ type_of)%string)
          | inr (inr jsResult) =>
              if invalid_after_conversion jsResult then
                Returned (fallback n "Invalid result format after conversion")
              else Returned jsResult
          end
      end
  end.

(** The body of the outer [try] of [executeStrategy]. *)
Definition executeStrategy_body (py : Pyodide) (code : string)
  (marketData : MarketData) : Outcome Val :=
  match close marketData with
  | None | Some [] =>
      Returned (VDict [("entry"%string, VList []); ("exit"%string, VList []);
                       ("direction"%string, VList []);
                       ("error"%string,
                        VStr "Invalid market data: no close prices available")])
  | Some close_prices =>
      let n := length close_prices in
      match initialize py with
      | InitThrows initError =>
          Returned (fallback n ("Pyodide initialization failed: "
                                ++ message_or initError "Unknown error")%string)
      | InitNothing =>
          Returned (fallback n ("Pyodide initialization failed: "
                                ++ "Pyodide initialization returned null/undefined")%string)
      | InitReady =>
          match array_from py (open marketData) with Threw x => Threw x
          | Returned o =>
          match array_from py (high marketData) with Threw x => Threw x
          | Returned h =>
          match array_from py (low marketData) with Threw x => Threw x
          | Returned l =>
          match array_from py (close marketData) with Threw x => Threw x
          | Returned c =>
          match array_from py (volume marketData) with Threw x => Threw x
          | Returned v =>
            let plainMarketData :=
              {| p_open := o; p_high := h; p_low := l; p_close := c;
                 p_volume := v |} in
            if existsb PrimFloat.is_nan (p_close plainMarketData) then
              Returned (fallback n
                "Invalid market data: NaN values detected in close prices")
            else
              match globals_set py with
              | Some setError =>
                  Returned (fallback n ("Failed to set data in Python: "
                             ++ message_or setError "Unknown error")%string)
              | None =>
                  match runPython (check_script py) with
                  | Threw pythonError =>
                      Returned (fallback n ("Python execution failed: "
                                 ++ message_or pythonError
                                      "Unknown Python error")%string)
                  | Returned checkResult =>
                      if js_not checkResult then
                        Returned (fallback n
                          "Python environment not properly initialized: execute_strategy function not found")
                      else run_strategy py plainMarketData code n
                  end
              end
          end end end end end
      end
  end.

(** [marketData?.close?.length || 0] *)
Definition close_length (marketData : MarketData) : nat :=
  match close marketData with Some c => length c | None => 0 end.

(** [executeStrategy(code, marketData)]: the body, and the outer
    [catch] that turns anything thrown into a result. *)
Definition executeStrategy (py : Pyodide) (code : string)
  (marketData : MarketData) : Outcome Val :=
  match executeStrategy_body py code marketData with
  | Returned r => Returned r
  | Threw x =>
      Returned (fallback (close_length marketData)
                  ("Critical execution error: "
                   ++ message_or x "Unknown error")%string)
  end.

End PythonExecutor.

(** ** The Python text [LIGHTWEIGHT_PYTHON_SETUP] *)

Module Lightweight.

Import Py.
Local Open Scope float_scope.

(** *** [TechnicalAnalysis.ema] *)

(** [result[i] = v] on a Python list, for [i] inside the list *)
Definition setitem (l : list float) (i : nat) (v : float) : list float :=
  firstn i l ++ v :: skipn (S i) l.

(** [l[i]] for [i] inside the list *)
Definition getitem (l : list float) (i : nat) : float :=
  nth i l PrimFloat.nan.

(** The [while] loop that skips the leading NaN samples: the index it
    stops at, counted from [start_idx]. *)
Fixpoint skip_nan (data : list float) (start_idx : nat) : nat :=
  match data with
  | [] => start_idx
  | d :: rest =>
      if PrimFloat.is_nan d then skip_nan rest (S start_idx) else start_idx
  end.

Definition ema_step (data : list float) (multiplier : float) (i : nat)
  (result : list float) : list float :=
  if negb (PrimFloat.is_nan (getitem data i)) then
    setitem result i
      (getitem data i * multiplier
       + getitem result (i - 1)%nat * (1 - multiplier))
  else setitem result i (getitem result (i - 1)%nat).

(** [TechnicalAnalysis.ema(data, period)] on a list of floats.  The
    period is a float here; for an [int] period Python computes the same
    quotient [2 / (period + 1)]. *)
Definition ema (data : list float) (period : float) : list float :=
  if match data with [] => true | _ => false end || Js.le period 0 then
    repeat PrimFloat.nan (length data)
  else
    let multiplier := 2 / (period + 1) in
    let result := repeat PrimFloat.nan (length data) in
    let start_idx := skip_nan data 0 in
    if (length data <=? start_idx)%nat then result
    else
      let result := setitem result start_idx (getitem data start_idx) in
      Js.for_loop (length data - (start_idx + 1))%nat (start_idx + 1)%nat
        (ema_step data multiplier) result.

(** *** [execute_strategy(data)] *)

(** What [exec(strategy_code, globals(), local_vars)] does: it raises
    an [Exception] with text [str(e)], raises something that is not an
    [Exception] ([SystemExit], [KeyboardInterrupt]), or ends with
    [local_vars] holding the given bindings, in insertion order. *)
Inductive Exec :=
| ExecRaises (text : string)
| ExecRaisesBase (text : string)
| ExecDone (local_vars : list (string * Val)).

Definition lower_ascii (c : ascii) : ascii :=
  let n := nat_of_ascii c in
  if ((65 <=? n) && (n <=? 90))%nat then ascii_of_nat (n + 32) else c.

(** [key.lower()] *)
Fixpoint lower (s : string) : string :=
  match s with
  | EmptyString => EmptyString
  | String c rest => String (lower_ascii c) (lower rest)
  end.

Definition signal_names : list string :=
  ["buy_signals"; "sell_signals"; "signals"; "entries"]%string.

(** The [for key, value in local_vars.items()] loop with its [break]:
    the value of [entry] after it. *)
Fixpoint find_signals (items : list (string * Val)) (entry : Val) : Val :=
  match items with
  | [] => entry
  | (key, value) :: rest =>
      match value with
      | VList l | VArray l =>
          if (0 <? length l)%nat
             && existsb (String.eqb (lower key)) signal_names
          then value
          else find_signals rest entry
      | _ => find_signals rest entry
      end
  end.

(** [len(data.get('close', [])) if isinstance(data, dict) else 100] *)
Definition data_length (data : Val) : Eval nat :=
  match data with
  | VDict d => len (get d "close" (VList []))
  | _ => Value 100%nat
  end.

(** [not entry and not exit and not direction] *)
Definition all_empty (entry exit direction : Val) : Eval bool :=
  and_then (truthy entry) (fun e =>
    if e then Value false else
    and_then (truthy exit) (fun x =>
      if x then Value false else
      and_then (truthy direction) (fun d => Value (negb d)))).

(** [v if v else [filler] * len(entry)] *)
Definition or_filled (v : Val) (filler : Val) (entry : Val) : Eval Val :=
  and_then (truthy v) (fun b =>
    if b then Value v
    else and_then (len entry) (fun n => Value (replicate filler n))).

(** The part of the [try] block after [exec]. *)
Definition collect_result (data : Val) (local_vars : list (string * Val))
  : Eval Val :=
  match lookup "result" local_vars with
  | Some result => Value result
  | None =>
      let entry := get local_vars "entry" (VList []) in
      let exit := get local_vars "exit" (VList []) in
      let direction :=
        get local_vars "direction"
          (get local_vars "trade_direction" (VList [])) in
      and_then (all_empty entry exit direction) (fun none_given =>
      and_then
        (if none_given then
           let entry := find_signals local_vars entry in
           and_then (truthy entry) (fun found =>
             if negb found then
               and_then (data_length data) (fun n =>
                 Value (replicate (VBool false) n,
                        replicate (VBool false) n,
                        replicate VNone n))
             else Value (entry, exit, direction))
         else Value (entry, exit, direction))
        (fun '(entry, exit, direction) =>
           and_then (or_filled exit (VBool false) entry) (fun exit' =>
           and_then (or_filled direction VNone entry) (fun direction' =>
           Value (VDict [("entry"%string, entry);
                         ("exit"%string, exit');
                         ("direction"%string, direction')])))))
  end.

(** The dictionary built in the [except] clause. *)
Definition error_result (data : Val) (text : string) : Eval Val :=
  and_then (data_length data) (fun n1 =>
  and_then (data_length data) (fun n2 =>
  and_then (data_length data) (fun n3 =>
  Value (VDict [("entry"%string, replicate (VBool false) n1);
                ("exit"%string, replicate (VBool false) n2);
                ("direction"%string, replicate VNone n3);
                ("error"%string, VStr text)])))).

(** [execute_strategy(data)]; [exec_code] is the effect of running the
    global [strategy_code] with [local_vars] holding [data] and
    [TechnicalAnalysis].  [except Exception] does not catch what is not
    an [Exception], which leaves the function. *)
Definition execute_strategy (exec_code : Val -> Exec) (data : Val)
  : Eval Val :=
  match exec_code data with
  | ExecRaises text => error_result data text
  | ExecRaisesBase text => Raise text
  | ExecDone local_vars =>
      match collect_result data local_vars with
      | Value result => Value result
      | Raise text => error_result data text
      end
  end.

End Lightweight.

(** ** Notions used in the statements *)

Module Notions.

Import TradingExecutor.
Local Open Scope float_scope.

(** The smoothing recurrence in the words of the specification:
    [ema[i] = data[i] * m + ema[i-1] * (1 - m)] after the sample that
    seeds it. *)
Fixpoint smooth (m prev : float) (rest : list float) : list float :=
  match rest with
  | [] => []
  | d :: r => let e := d * m + prev * (1 - m) in e :: smooth m e r
  end.

(** The moving average of the specification: multiplier
    [2 / (period + 1)], seeded at the first sample. *)
Definition ema_recurrence (data : list float) (period : float)
  : list float :=
  match data with
  | [] => []
  | d0 :: rest => d0 :: smooth (2 / (period + 1)) d0 rest
  end.

(** [|x - y| <= tolerance] at every index of two series of one length *)
Fixpoint within (tolerance : float) (xs ys : list float) : bool :=
  match xs, ys with
  | [], [] => true
  | x :: xs', y :: ys' =>
      Js.le (PrimFloat.abs (x - y)) tolerance && within tolerance xs' ys'
  | _, _ => false
  end.

(** The numbers stored in an array without holes. *)
Definition numbers (a : list (Js.slot float)) : list float :=
  map Js.to_number a.

(** No sample of the series is NaN. *)
Definition no_nan (data : list float) : bool :=
  forallb (fun d => negb (PrimFloat.is_nan d)) data.

Definition sample_close : list float := [1.10; 1.11; 1.12; 1.09; 1.08].

(** The series the specification expects for [sample_close] and
    period 2, and the series the recurrence gives. *)
Definition expected_in_spec : list float :=
  [1.10; 1.1067; 1.1156; 1.1052; 1.0968].
Definition expected_by_recurrence : list float :=
  [1.10; 1.1067; 1.1156; 1.0985; 1.0862].

(** What bar [i] of the crossover strategy is, as a function of the
    two averages. *)
Definition bar (ema21 ema55 : list (Js.slot float)) (reverseSignals : bool)
  (i : nat) : bool * option Direction :=
  if (i <? 55)%nat then (false, None)
  else
    let bullish := bullish_at ema21 ema55 i in
    let bearish := bearish_at ema21 ema55 i in
    if reverseSignals then
      if bearish then (true, Some BUY)
      else if bullish then (true, Some SELL)
      else (false, None)
    else
      if bullish then (true, Some BUY)
      else if bearish then (true, Some SELL)
      else (false, None).

(** The EMA(21)/EMA(55) crossover over a close series, bar by bar. *)
Definition crossover (close : list float) (reverseSignals : bool)
  : Signals :=
  let ema21 := calculateEMA close 21 in
  let ema55 := calculateEMA close 55 in
  let bars := map (bar ema21 ema55 reverseSignals) (seq 0 (length close)) in
  {| entry := map fst bars;
     exit := map (fun _ => false) bars;
     direction := map snd bars |}.

Definition swap (d : Direction) : Direction :=
  match d with BUY => SELL | SELL => BUY end.

(** A close series that falls for 55 bars and then jumps: the fast
    average crosses above the slow one at bar 55. *)
Definition falling_then_jump : list float :=
  map (fun n => 2 - PrimFloat.of_uint63 (Uint63.of_Z (Z.of_nat n)) / 100)
    (seq 0 55) ++ [100; 0.5; 0.5].

Definition market_data_of (close : list float) : MarketData :=
  {| md_open := close; md_high := close; md_low := close;
     md_close := close; md_volume := map (fun _ => 1000) close |}.

(** A whole number of pips as a JavaScript number. *)
Definition whole_pips (n : nat) : float :=
  PrimFloat.of_uint63 (Uint63.of_Z (Z.of_nat n)).

(** How far [distance * 10000] is from the pips it came from. *)
Definition round_trip_error (distance pips : float) : float :=
  PrimFloat.abs (distance * 10000 - pips).

(** The round trip of [n] pips stays within [1e-12]. *)
Definition round_trips_closely (n : nat) : bool :=
  Js.le (round_trip_error (whole_pips n / 10000) (whole_pips n)) 1e-12.

(** *** Worlds *)

(** [w] with rows appended to the log table and lines to the two
    traces. *)
Definition extend (w : World) (dl : list LogEntry) (dc : list ConsoleLine)
  (dr : list Request) : World :=
  {| trading_sessions := trading_sessions w;
     trading_logs := trading_logs w ++ dl;
     console := console w ++ dc;
     requests := requests w ++ dr |}.

(** Two session rows that differ at most in [last_execution]. *)
Definition same_configuration (s s' : Session) : Prop :=
  id s' = id s /\ user_id s' = user_id s
  /\ strategy_id s' = strategy_id s
  /\ strategy_name s' = strategy_name s
  /\ strategy_code s' = strategy_code s
  /\ symbol s' = symbol s /\ timeframe s' = timeframe s
  /\ oanda_account_id s' = oanda_account_id s
  /\ oanda_api_key s' = oanda_api_key s
  /\ environment s' = environment s
  /\ is_active s' = is_active s
  /\ risk_per_trade s' = risk_per_trade s
  /\ stop_loss s' = stop_loss s /\ take_profit s' = take_profit s
  /\ max_position_size s' = max_position_size s
  /\ reverse_signals s' = reverse_signals s
  /\ avoid_low_volume s' = avoid_low_volume s.

(** A row with its [last_execution] blanked. *)
Definition configuration (s : Session) : Session :=
  set_last_execution s "".

(** What a step may do to the world: rewrite [last_execution] of rows,
    and append to the log table, the console and the request trace. *)
Definition evolves (w w' : World) : Prop :=
  map configuration (trading_sessions w')
  = map configuration (trading_sessions w)
  /\ (exists dl, trading_logs w' = trading_logs w ++ dl)
  /\ (exists dc, console w' = console w ++ dc)
  /\ (exists dr, requests w' = requests w ++ dr).

Definition steady {A : Type} (m : M A) : Prop :=
  forall w, evolves w (snd (m w)).

(** An audit insert for session [s] has been requested. *)
Definition logged (s : Session) (w : World) : Prop :=
  exists e, In (InsertLog e) (requests w) /\ session_id e = id s.

(** [m] has the same outcome [o] in every world and only appends [dl],
    [dc] and [dr] to the log table, the console and the requests. *)
Definition writes {A : Type} (m : M A) (o : Outcome A)
  (dl : list LogEntry) (dc : list ConsoleLine) (dr : list Request) : Prop :=
  forall w, m w = (o, extend w dl dc dr).

Definition writer {A : Type} (m : M A) : Prop :=
  exists o dl dc dr, writes m o dl dc dr.

(** Among the requests [dr] is an audit insert for session [s]. *)
Definition inserts_for (s : Session) (dr : list Request) : Prop :=
  exists e, In (InsertLog e) dr /\ session_id e = id s.

(** [m] is a writer that requests an audit insert for [s], whatever
    its outcome ([audited]) or at least when it returns
    ([audited_on_return]). *)
Definition audited {A : Type} (s : Session) (m : M A) : Prop :=
  exists o dl dc dr, writes m o dl dc dr /\ inserts_for s dr.

Definition audited_on_return {A : Type} (s : Session) (m : M A) : Prop :=
  exists o dl dc dr,
    writes m o dl dc dr /\ ((exists a, o = Returned a) -> inserts_for s dr).

Definition empty_world : World :=
  {| trading_sessions := []; trading_logs := []; console := [];
     requests := [] |}.

(** The sessions a tick works on: the active rows, or none when the
    database does not deliver them. *)
Definition loaded (env : Env) (w : World) : list Session :=
  match select_reply env with
  | SelectRows => filter is_active (trading_sessions w)
  | _ => []
  end.

(** The settled outcome of one session's pipeline run by itself. *)
Definition settle_alone (env : Env) (marketStatus : MarketStatus)
  (s : Session) : Settled SessionResult :=
  match fst (processTradinSession env marketStatus s empty_world) with
  | Returned v => fulfilled v
  | Thrown e => rejected e
  end.

(** The console line the handler writes for the settled result at
    position [number]. *)
Definition settled_line (number : nat) (r : Settled SessionResult)
  : ConsoleLine :=
  match r with
  | fulfilled value => LogSessionProcessed number value
  | rejected reason => ErrSessionFailed number reason
  end.

Fixpoint result_lines (index : nat) (results : list (Settled SessionResult))
  : list ConsoleLine :=
  match results with
  | [] => []
  | r :: rest => settled_line (index + 1) r :: result_lines (S index) rest
  end.

Definition is_fulfilled (r : Settled SessionResult) : bool :=
  match r with fulfilled _ => true | rejected _ => false end.

Definition count_fulfilled (results : list (Settled SessionResult)) : nat :=
  length (filter is_fulfilled results).

Definition count_rejected (results : list (Settled SessionResult)) : nat :=
  length (filter (fun r => negb (is_fulfilled r)) results).

(** The requests of a trace that submit an order. *)
Definition is_order (r : Request) : bool :=
  match r with PostOrder _ _ _ => true | _ => false end.

(** *** Sample inputs *)

Definition sample_session (row_id : string) (stop take : float) : Session :=
  {| id := row_id; user_id := "user-123"; strategy_id := "strategy-1";
     strategy_name := "EMA Crossover";
     strategy_code := "strategy_logic(data)"; symbol := "EUR_USD";
     timeframe := "M5"; oanda_account_id := "account-id";
     oanda_api_key := "api-key"; environment := "practice";
     is_active := true; last_execution := "2024-01-01T00:00:00.000Z";
     risk_per_trade := 2.0; stop_loss := stop; take_profit := take;
     max_position_size := 100000;
     reverse_signals := false; avoid_low_volume := false |}.

Definition session_a : Session := sample_session "session-a" 40 80.
Definition session_b : Session := sample_session "session-b" 40 80.
Definition session_3_pips : Session := sample_session "session-c" 3 80.

Definition sample_world : World :=
  {| trading_sessions := [session_a; session_b]; trading_logs := [];
     console := []; requests := [] |}.

Definition flat_candle : Candle :=
  {| mid_o := 1.1; mid_h := 1.1; mid_l := 1.1; mid_c := 1.1;
     c_volume := 10 |}.

(** An open market (Tuesday 13h UTC) in which the candle request of
    [session-a] fails on the network and [session-b] receives three
    candles. *)
Definition env_one_fails : Env :=
  {| now := {| utcDay := 2; utcHours := 13 |};
     iso_now := "2024-01-02T13:00:00.000Z";
     select_reply := SelectRows;
     insert_reply := fun _ => DbOk;
     update_reply := fun _ => DbOk;
     candles_reply := fun s =>
       if String.eqb (id s) "session-a"
       then FetchRejects {| message := "fetch failed" |}
       else FetchResponse 200 "OK"
              (inr [flat_candle; flat_candle; flat_candle]);
     order_reply := fun _ _ _ => PostResponse 200 "{}" (inr "{}"%string) |}.

(** A Saturday, 10h UTC. *)
Definition env_saturday : Env :=
  {| now := {| utcDay := 6; utcHours := 10 |};
     iso_now := "2024-01-06T10:00:00.000Z";
     select_reply := SelectRows;
     insert_reply := fun _ => DbOk;
     update_reply := fun _ => DbOk;
     candles_reply := fun _ =>
       FetchResponse 200 "OK" (inr [flat_candle; flat_candle; flat_candle]);
     order_reply := fun _ _ _ => PostResponse 200 "{}" (inr "{}"%string) |}.

(** A brokerage that answers 503 to the first three submissions of an
    order and 200 to the fourth. *)
Definition env_503_three_times : Env :=
  {| now := {| utcDay := 2; utcHours := 13 |};
     iso_now := "2024-01-02T13:00:00.000Z";
     select_reply := SelectRows;
     insert_reply := fun _ => DbOk;
     update_reply := fun _ => DbOk;
     candles_reply := fun _ =>
       FetchResponse 200 "OK" (inr [flat_candle; flat_candle; flat_candle]);
     order_reply := fun _ _ n =>
       if (n <? 3)%nat
       then PostResponse 503 "Service Unavailable"
              (inl {| message := "Unexpected token S in JSON" |})
       else PostResponse 200 "{}" (inr "{}"%string) |}.

End Notions.

Module SandboxNotions.

Import Py PythonExecutor.

(** [r.name] on a result object *)
Definition field (name : string) (r : Val) : option Val :=
  match r with
  | VDict d => lookup name d
  | _ => None
  end.

Definition array_length (v : option Val) : option nat :=
  match v with
  | Some (VList l) => Some (length l)
  | _ => None
  end.

(** A result whose three arrays have length [n] and which carries an
    error marker. *)
Definition sized_with_error (n : nat) (r : Val) : Prop :=
  array_length (field "entry" r) = Some n
  /\ array_length (field "exit" r) = Some n
  /\ array_length (field "direction" r) = Some n
  /\ exists error, field "error" r = Some (VStr error).

(** A browser and a runtime in which nothing throws. *)
Definition pyodide_ready : Pyodide :=
  {| initialize := InitReady;
     not_iterable := "undefined is not iterable";
     globals_set := None;
     check_escapes := None;
     strategy_escapes := fun _ _ => None;
     toJs_throws := None |}.

Definition three_bars : MarketData :=
  let a := Some [1.1; 1.2; 1.3]%float in
  {| open := a; high := a; low := a; close := a; volume := a |}.

(** A [dict] with one-element arrays and no [error]. *)
Definition one_bar_result : list (string * Val) :=
  [("entry"%string, VList [VBool true]);
   ("exit"%string, VList [VBool false]);
   ("direction"%string, VList [VStr "BUY"])].

(** The [data] dictionary of three bars built for the lightweight
    [execute_strategy]. *)
Definition three_bars_data : Val :=
  let a := VList [VFloat 1.1; VFloat 1.2; VFloat 1.3] in
  VDict [("open"%string, a); ("high"%string, a); ("low"%string, a);
         ("close"%string, a); ("volume"%string, a)].

End SandboxNotions.

(** ** The loader of the Python runtime, [PyodideLoader] *)

Module PyodideLoader.

Import PythonExecutor.

Section Loader.

(** The runtime object [window.loadPyodide] resolves to. *)
Context {Instance : Type}.

(** What the loader asks of the page and of the runtime. *)
Inductive Effect :=
| AppendScript
| LoadPyodide
| LoadPackage
| Wait (ms : nat)
| RunSetup
| RunTest.

Inductive Line :=
| LogReturningExisting
| LogWaitingForLoad
| LogInitializedAndCached
| ErrFailedToInitialize (error : Thrown)
| LogLoadingScript
| LogScriptLoaded
| ErrScriptFailed
| LogInitializingRuntime
| LogInstallingPackages
| LogPackagesInstalled
| WarnAttemptFailed (retryCount : nat) (packageError : Thrown)
| LogSettingUp
| LogTesting
| LogReady
| ErrCriticalInitialization (error : Thrown)
| LogResetting.

(** The static fields of the class, with what has been written to the
    console and asked of the page so far.  A runtime that is [null] or
    [undefined] is [None]; [loadPromise] holds the promise of the last
    load by the outcome it settles with; [lastError] is always an
    [Error] and is kept by its message. *)
Record Loader := {
  pyodideInstance : option Instance;
  isLoading : bool;
  loadPromise : option (Outcome (option Instance));
  lastError : option string;
  printed : list Line;
  calls : list Effect
}.

(** The page and the network.  [needs_script] is
    [typeof window !== 'undefined' && !window.loadPyodide];
    [loadPackage_reply n] is what [loadPackage] does when called after
    [n] failed attempts of the load ([None]: it resolves); [test_reply]
    is the value of the test script when it is a string. *)
Record Page := {
  needs_script : bool;
  script_loads : bool;
  loadPyodide_reply : Thrown + option Instance;
  loadPackage_reply : nat -> option Thrown;
  setup_reply : option Thrown;
  test_reply : Thrown + option string
}.

Definition L (A : Type) : Type := Loader -> Outcome A * Loader.

Definition pure {A : Type} (a : A) : L A := fun s => (Returned a, s).

Definition and_next {A B : Type} (m : L A) (k : A -> L B) : L B :=
  fun s =>
    match m s with
    | (Returned a, s1) => k a s1
    | (Threw x, s1) => (Threw x, s1)
    end.

Definition raise {A : Type} (x : Thrown) : L A := fun s => (Threw x, s).

(** [try { m } catch (error) { h error }] *)
Definition guarded {A : Type} (m : L A) (h : Thrown -> L A) : L A :=
  fun s =>
    match m s with
    | (Returned a, s1) => (Returned a, s1)
    | (Threw x, s1) => h x s1
    end.

Definition print (l : Line) : L unit :=
  fun s => (Returned tt,
            {| pyodideInstance := pyodideInstance s;
               isLoading := isLoading s;
               loadPromise := loadPromise s;
               lastError := lastError s;
               printed := printed s ++ [l];
               calls := calls s |}).

Definition call (e : Effect) : L unit :=
  fun s => (Returned tt,
            {| pyodideInstance := pyodideInstance s;
               isLoading := isLoading s;
               loadPromise := loadPromise s;
               lastError := lastError s;
               printed := printed s;
               calls := calls s ++ [e] |}).

(** [x instanceof Error ? x : new Error(text)] *)
Definition as_error (x : Thrown) (text : string) : Thrown :=
  match x with
  | ThrownError m => ThrownError m
  | ThrownOther => ThrownError text
  end.

(** A method call on the runtime: a [TypeError] when the runtime is
    [null] or [undefined]. *)
Definition on_runtime {A : Type} (pyodide : option Instance)
  (method : string) (m : L A) : L A :=
  match pyodide with
  | Some _ => m
  | None =>
      raise (ThrownError ("Cannot read properties of undefined (reading '"
                          ++ method ++ "')")%string)
  end.

(** [await pyodide.loadPackage(['numpy', 'pandas'])], after
    [retryCount] failed attempts. *)
Definition loadPackage (page : Page) (pyodide : option Instance)
  (retryCount : nat) : L unit :=
  on_runtime pyodide "loadPackage"
    (and_next (call LoadPackage) (fun _ =>
     match loadPackage_reply page retryCount with
     | None => pure tt
     | Some x => raise x
     end)).

Definition maxRetries : nat := 3.

(** The [while (retryCount < maxRetries)] loop of the package
    installation, entered with [retryCount]; [turns] bounds the number
    of turns. *)
Fixpoint install_packages (page : Page) (pyodide : option Instance)
  (turns retryCount : nat) : L unit :=
  match turns with
  | O => pure tt
  | S turns =>
      if (retryCount <? maxRetries)%nat then
        guarded
          (and_next (loadPackage page pyodide retryCount) (fun _ =>
           print LogPackagesInstalled))
          (fun packageError =>
             let retryCount := S retryCount in
             and_next (print (WarnAttemptFailed retryCount packageError))
               (fun _ =>
             if (maxRetries <=? retryCount)%nat then
               raise (ThrownError
                        "Failed to install Python packages after 3 attempts")
             else
               and_next (call (Wait 1000)) (fun _ =>
               install_packages page pyodide turns retryCount)))
      else pure tt
  end.

(** [loadPyodideInternal()] *)
Definition loadPyodideInternal (page : Page) : L (option Instance) :=
  guarded
    (and_next
       (if needs_script page then
          and_next (print LogLoadingScript) (fun _ =>
          and_next (call AppendScript) (fun _ =>
          if script_loads page then print LogScriptLoaded
          else
            and_next (print ErrScriptFailed) (fun _ =>
            raise (ThrownError "Failed to load Pyodide script from CDN"))))
        else pure tt) (fun _ =>
     and_next (print LogInitializingRuntime) (fun _ =>
     and_next (call LoadPyodide) (fun _ =>
     and_next (match loadPyodide_reply page with
               | inl x => raise x
               | inr pyodide => pure pyodide
               end) (fun pyodide =>
     and_next (print LogInstallingPackages) (fun _ =>
     and_next (install_packages page pyodide maxRetries 0) (fun _ =>
     and_next (print LogSettingUp) (fun _ =>
     and_next (on_runtime pyodide "runPython"
                 (and_next (call RunSetup) (fun _ =>
                  match setup_reply page with
                  | Some x => raise x
                  | None => pure tt
                  end))) (fun _ =>
     and_next (print LogTesting) (fun _ =>
     and_next (on_runtime pyodide "runPython"
                 (and_next (call RunTest) (fun _ =>
                  match test_reply page with
                  | inl x => raise x
                  | inr testResult => pure testResult
                  end))) (fun testResult =>
     if match testResult with
        | Some text => negb (String.eqb text "success")
        | None => true
        end
     then raise (ThrownError "Python environment test failed")
     else
       and_next (print LogReady) (fun _ => pure pyodide))))))))))))
    (fun error =>
       and_next (print (ErrCriticalInitialization error)) (fun _ =>
       raise (as_error error "Unknown Pyodide initialization error"))).

Definition set_isLoading (b : bool) : L unit :=
  fun s => (Returned tt,
            {| pyodideInstance := pyodideInstance s;
               isLoading := b;
               loadPromise := loadPromise s;
               lastError := lastError s;
               printed := printed s;
               calls := calls s |}).

Definition set_loadPromise (p : option (Outcome (option Instance)))
  : L unit :=
  fun s => (Returned tt,
            {| pyodideInstance := pyodideInstance s;
               isLoading := isLoading s;
               loadPromise := p;
               lastError := lastError s;
               printed := printed s;
               calls := calls s |}).

Definition set_pyodideInstance (i : option Instance) : L unit :=
  fun s => (Returned tt,
            {| pyodideInstance := i;
               isLoading := isLoading s;
               loadPromise := loadPromise s;
               lastError := lastError s;
               printed := printed s;
               calls := calls s |}).

Definition set_lastError (e : option string) : L unit :=
  fun s => (Returned tt,
            {| pyodideInstance := pyodideInstance s;
               isLoading := isLoading s;
               loadPromise := loadPromise s;
               lastError := e;
               printed := printed s;
               calls := calls s |}).

(** [try { m } finally { f }], for an [f] that does not throw. *)
Definition finally {A : Type} (m : L A) (f : L unit) : L A :=
  fun s =>
    match m s with
    | (o, s1) => (o, snd (f s1))
    end.

(** The settled outcome of a promise, awaited. *)
Definition await {A : Type} (o : Outcome A) : L A :=
  match o with
  | Returned a => pure a
  | Threw x => raise x
  end.

(** [this.loadPromise = this.loadPyodideInternal()]: the load runs and
    the promise that is stored settles with its outcome. *)
Definition start_load (page : Page) : L (Outcome (option Instance)) :=
  fun s =>
    match loadPyodideInternal page s with
    | (o, s1) => and_next (set_loadPromise (Some o)) (fun _ => pure o) s1
    end.

(** [initialize()] *)
Definition initialize (page : Page) : L (option Instance) :=
  fun s =>
    match pyodideInstance s with
    | Some i =>
        and_next (print LogReturningExisting) (fun _ => pure (Some i)) s
    | None =>
        match isLoading s, loadPromise s with
        | true, Some promise =>
            and_next (print LogWaitingForLoad) (fun _ => await promise) s
        | _, _ =>
            and_next (set_isLoading true) (fun _ =>
            and_next (start_load page) (fun promise =>
            finally
              (guarded
                 (and_next (await promise) (fun pyodide =>
                  and_next (set_pyodideInstance pyodide) (fun _ =>
                  and_next (set_lastError None) (fun _ =>
                  and_next (print LogInitializedAndCached) (fun _ =>
                  pure pyodide)))))
                 (fun error =>
                    and_next (print (ErrFailedToInitialize error)) (fun _ =>
                    let error := as_error error "Unknown Pyodide error" in
                    and_next (set_lastError
                                (Some (message_or error ""))) (fun _ =>
                    raise error))))
              (set_isLoading false))) s
        end
    end.

(** [getLastError()] *)
Definition getLastError : L (option string) :=
  fun s => (Returned (lastError s), s).

(** [reset()] *)
Definition reset : L unit :=
  and_next (print LogResetting) (fun _ =>
  and_next (set_pyodideInstance None) (fun _ =>
  and_next (set_isLoading false) (fun _ =>
  and_next (set_loadPromise None) (fun _ =>
  set_lastError None)))).

(** The loader before anything is loaded. *)
Definition fresh : Loader :=
  {| pyodideInstance := None; isLoading := false; loadPromise := None;
     lastError := None; printed := []; calls := [] |}.

(** What a step asked of the page. *)
Definition asked (s s' : Loader) : list Effect :=
  skipn (length (calls s)) (calls s').

Definition is_loadPackage (e : Effect) : bool :=
  match e with LoadPackage => true | _ => false end.

Definition is_wait (e : Effect) : bool :=
  match e with Wait _ => true | _ => false end.

(** Every call of [s'] was already made in [s], followed by [new]. *)
Definition extended (s : Loader) (lines : list Line) (new : list Effect)
  : Loader :=
  {| pyodideInstance := pyodideInstance s;
     isLoading := isLoading s;
     loadPromise := loadPromise s;
     lastError := lastError s;
     printed := printed s ++ lines;
     calls := calls s ++ new |}.

(** The outcome of a load, what it asks of the page and what it
    prints, seen on a loader that has done nothing yet. *)
Definition load_outcome (page : Page) : Outcome (option Instance) :=
  fst (loadPyodideInternal page fresh).

Definition load_calls (page : Page) : list Effect :=
  calls (snd (loadPyodideInternal page fresh)).

Definition load_lines (page : Page) : list Line :=
  printed (snd (loadPyodideInternal page fresh)).

(** The same for the installation of the packages. *)
Definition install_outcome (page : Page) (pyodide : option Instance)
  : Outcome unit :=
  fst (install_packages page pyodide maxRetries 0 fresh).

Definition install_calls (page : Page) (pyodide : option Instance)
  : list Effect :=
  calls (snd (install_packages page pyodide maxRetries 0 fresh)).

Definition install_lines (page : Page) (pyodide : option Instance)
  : list Line :=
  printed (snd (install_packages page pyodide maxRetries 0 fresh)).

Definition gave_up : Thrown :=
  ThrownError "Failed to install Python packages after 3 attempts".

(** [m] has the same outcome on every loader, touches no field of the
    class, and only adds to the console and to the calls. *)
Definition appends {A : Type} (m : L A) : Prop :=
  forall s,
    m s = (fst (m fresh),
           extended s (printed (snd (m fresh))) (calls (snd (m fresh)))).

(** A page on which a load succeeds with runtime [i]. *)
Definition works (page : Page) (i : Instance) : Prop :=
  (needs_script page = true -> script_loads page = true)
  /\ loadPyodide_reply page = inr (Some i)
  /\ (exists n, (n < maxRetries)%nat /\ loadPackage_reply page n = None)
  /\ setup_reply page = None
  /\ test_reply page = inr (Some "success"%string).

(** A page on which every installation of the packages fails. *)
Definition never_installs (page : Page) : Prop :=
  forall n, (n < maxRetries)%nat -> loadPackage_reply page n <> None.

(** Neither an installation of the packages nor a wait. *)
Definition quiet (e : Effect) : bool :=
  negb (is_loadPackage e) && negb (is_wait e).

(** What the load asks for before the runtime is there. *)
Definition script_calls (page : Page) : list Effect :=
  if needs_script page then [AppendScript] else [].

(** The ways a load can go, with its outcome and what it asks of the
    page: the script does not load; [loadPyodide] fails; the packages do
    not install; the set-up script fails; the test fails; or the runtime
    is ready. *)
Inductive load_case (page : Page)
  : Outcome (option Instance) -> list Effect -> Prop :=
| script_failed :
    needs_script page = true -> script_loads page = false ->
    load_case page
      (Threw (ThrownError "Failed to load Pyodide script from CDN"))
      [AppendScript]
| runtime_failed x :
    loadPyodide_reply page = inl x ->
    load_case page
      (Threw (as_error x "Unknown Pyodide initialization error"))
      (script_calls page ++ [LoadPyodide])
| install_failed pyodide :
    loadPyodide_reply page = inr pyodide ->
    pyodide = None \/ never_installs page ->
    load_case page (Threw gave_up)
      (script_calls page
       ++ LoadPyodide
          :: match pyodide with
             | Some _ => [LoadPackage; Wait 1000; LoadPackage; Wait 1000;
                          LoadPackage]
             | None => [Wait 1000; Wait 1000]
             end)
| setup_failed i x :
    loadPyodide_reply page = inr (Some i) ->
    setup_reply page = Some x ->
    load_case page
      (Threw (as_error x "Unknown Pyodide initialization error"))
      (script_calls page
       ++ LoadPyodide :: install_calls page (Some i) ++ [RunSetup])
| test_failed i m :
    loadPyodide_reply page = inr (Some i) ->
    setup_reply page = None ->
    test_reply page <> inr (Some "success"%string) ->
    load_case page (Threw (ThrownError m))
      (script_calls page
       ++ LoadPyodide :: install_calls page (Some i) ++ [RunSetup; RunTest])
| runtime_ready i :
    works page i ->
    load_case page (Returned (Some i))
      (script_calls page
       ++ LoadPyodide :: install_calls page (Some i) ++ [RunSetup; RunTest]).

(** What [PythonExecutor.initializePyodide] makes of the loader's
    answer. *)
Definition init_reply (o : Outcome (option Instance)) : InitReply :=
  match o with
  | Returned (Some _) => InitReady
  | Returned None => InitNothing
  | Threw x => InitThrows x
  end.

(** The runtime as [PythonExecutor] sees it when its
    [initializePyodide] goes through a call of [initialize] with outcome
    [o]. *)
Definition through_loader (o : Outcome (option Instance)) (py : Pyodide)
  : Pyodide :=
  {| PythonExecutor.initialize := init_reply o;
     not_iterable := not_iterable py;
     globals_set := globals_set py;
     check_escapes := check_escapes py;
     strategy_escapes := strategy_escapes py;
     toJs_throws := toJs_throws py |}.

End Loader.

Arguments Loader Instance : clear implicits.
Arguments Page Instance : clear implicits.

(** A page on which everything works. *)
Definition page_ok : Page nat :=
  {| needs_script := true; script_loads := true;
     loadPyodide_reply := inr (Some 7%nat);
     loadPackage_reply := fun _ => None;
     setup_reply := None;
     test_reply := inr (Some "success"%string) |}.

(** A page on which the packages never install. *)
Definition page_offline : Page nat :=
  {| needs_script := false; script_loads := true;
     loadPyodide_reply := inr (Some 7%nat);
     loadPackage_reply := fun _ => Some (ThrownError "Failed to fetch");
     setup_reply := None;
     test_reply := inr (Some "success"%string) |}.

(** A page on which the packages install at the third attempt. *)
Definition page_flaky : Page nat :=
  {| needs_script := false; script_loads := true;
     loadPyodide_reply := inr (Some 7%nat);
     loadPackage_reply := fun n =>
       if (n <? 2)%nat then Some (ThrownError "Failed to fetch") else None;
     setup_reply := None;
     test_reply := inr (Some "success"%string) |}.

End PyodideLoader.

(** ** Starting a session and recording an execution,
    [ForwardTestingService] in the browser *)

Module ForwardTestingClient.

Import TradingExecutor.
Local Open Scope float_scope.

(** What the service writes to the browser console. *)
Inductive ClientLine :=
| ErrFailedToCreate (e : Error)
| LogSessionCreated (session : Session)
| ErrFailedToStart (e : Error)
| ErrFailedToUpdate (e : Error).

(** The [trading_sessions] table and the browser console. *)
Record Client := {
  table : list Session;
  lines : list ClientLine
}.

(** The answer of the database to [insert([sessionData]).select()
    .single()]: the row with the [id] it was given, an [error], or an
    exception. *)
Inductive InsertReply :=
| Inserted (row_id : string)
| InsertError (e : Error)
| InsertThrows (e : Error).

Definition C (A : Type) : Type := Client -> Outcome A * Client.

Definition done {A : Type} (a : A) : C A := fun c => (Returned a, c).

Definition next {A B : Type} (m : C A) (k : A -> C B) : C B :=
  fun c =>
    match m c with
    | (Returned a, c1) => k a c1
    | (Thrown e, c1) => (Thrown e, c1)
    end.

Definition fail {A : Type} (e : Error) : C A := fun c => (Thrown e, c).

(** [try { m } catch (error) { h error }] *)
Definition caught {A : Type} (m : C A) (h : Error -> C A) : C A :=
  fun c =>
    match m c with
    | (Returned a, c1) => (Returned a, c1)
    | (Thrown e, c1) => h e c1
    end.

Definition log (l : ClientLine) (c : Client) : Client :=
  {| table := table c; lines := lines c ++ [l] |}.

Definition console_line (l : ClientLine) : C unit :=
  fun c => (Returned tt, log l c).

(** [await supabase.from('trading_sessions').insert([sessionData])
    .select().single()]: the pair of [data] and [error], or an
    exception.  On success the table holds the new row, which is
    [sessionData] with the [id] the database gave it. *)
Definition insert_session (reply : InsertReply)
  (sessionData : string -> Session) : C (Error + Session) :=
  fun c =>
    match reply with
    | Inserted row_id =>
        (Returned (inr (sessionData row_id)),
         {| table := table c ++ [sessionData row_id]; lines := lines c |})
    | InsertError e => (Returned (inl e), c)
    | InsertThrows e => (Thrown e, c)
    end.

(** [startSession(userId, ..., environment)]; [now] is
    [new Date().toISOString()]. *)
Definition startSession (reply : InsertReply) (now : string)
  (userId strategyId strategyName strategyCode symbol timeframe
     oandaAccountId oandaApiKey environment : string) : C Session :=
  caught
    (let sessionData := fun row_id =>
       ForwardTestingService.sessionData row_id userId strategyId
         strategyName strategyCode symbol timeframe oandaAccountId
         oandaApiKey environment now in
     next (insert_session reply sessionData) (fun answer =>
     match answer with
     | inl e =>
         next (console_line (ErrFailedToCreate e)) (fun _ => fail e)
     | inr session =>
         next (console_line (LogSessionCreated session)) (fun _ =>
         done session)
     end))
    (fun e => next (console_line (ErrFailedToStart e)) (fun _ => fail e)).

(** [updateSessionExecution(sessionId)] *)
Definition updateSessionExecution (reply : DbReply) (now : string)
  (sessionId : string) : C unit :=
  fun c =>
    match reply with
    | DbOk =>
        (Returned tt,
         {| table := db_update_last_execution sessionId now (table c);
            lines := lines c |})
    | DbError e => (Returned tt, log (ErrFailedToUpdate e) c)
    | DbThrows e => (Returned tt, log (ErrFailedToUpdate e) c)
    end.

(** The world of a tick that finds the table as the browser left it. *)
Definition tick_world (c : Client) : World :=
  {| trading_sessions := table c; trading_logs := []; console := [];
     requests := [] |}.

Definition no_client : Client := {| table := []; lines := [] |}.

End ForwardTestingClient.

(** ** The dates of the market clock *)

Module MarketClock.

Import TradingExecutor.
Local Open Scope Z_scope.

(** A JavaScript [Date]: milliseconds since 1 January 1970 UTC. *)
Definition Date := Z.

Definition msPerDay : Z := 86400000.
Definition msPerHour : Z := 3600000.

(** [getUTCDay()]: 0 is Sunday; 1 January 1970 was a Thursday. *)
Definition getUTCDay (t : Date) : Z := (t / msPerDay + 4) mod 7.

(** [getUTCHours()] *)
Definition getUTCHours (t : Date) : Z := (t mod msPerDay) / msPerHour.

(** [d.setUTCDate(d.getUTCDate() + days)]: the day of the month
    overflows into the neighbouring months, so the date moves by
    [days] days and keeps its time of day. *)
Definition setUTCDate_from_today (t : Date) (days : Z) : Date :=
  t + days * msPerDay.

(** [d.setUTCHours(hours, 0, 0, 0)] *)
Definition setUTCHours (t : Date) (hours : Z) : Date :=
  (t / msPerDay) * msPerDay + hours * msPerHour.

(** [getNextMarketOpen()], with the clock reading as its argument. *)
Definition getNextMarketOpen (now : Date) : Date :=
  let dayOfWeek := getUTCDay now in
  if (dayOfWeek =? 6) || ((dayOfWeek =? 0) && (getUTCHours now <? 22)) then
    let nextSunday := now in
    let nextSunday := setUTCDate_from_today nextSunday (7 - dayOfWeek) in
    let nextSunday := setUTCHours nextSunday 22 in
    nextSunday
  else now.

(** [getNextMarketClose()], with the clock reading as its argument. *)
Definition getNextMarketClose (now : Date) : Date :=
  let nextFriday := now in
  let nextFriday := setUTCDate_from_today nextFriday (5 - getUTCDay now) in
  let nextFriday := setUTCHours nextFriday 22 in
  nextFriday.

(** What [getMarketStatus] reads from a date. *)
Definition clock (t : Date) : Now :=
  {| utcDay := Z.to_nat (getUTCDay t);
     utcHours := Z.to_nat (getUTCHours t) |}.

(** The market is open at [t], as [getMarketStatus] sees it. *)
Definition open_at (t : Date) : bool := isOpen (getMarketStatus (clock t)).

(** [nextOpen] of the market status: [!isOpen ? getNextMarketOpen() :
    null]. *)
Definition nextOpen (now : Date) : option Date :=
  if negb (open_at now) then Some (getNextMarketOpen now) else None.

(** [nextClose] of the market status: [isOpen ? getNextMarketClose() :
    null]. *)
Definition nextClose (now : Date) : option Date :=
  if open_at now then Some (getNextMarketClose now) else None.

(** Saturday 6 January 2024, 10:00 UTC. *)
Definition saturday_morning : Date := 1704535200000.

(** Sunday 7 January 2024, 10:00 UTC. *)
Definition sunday_morning : Date := 1704621600000.

(** Friday 5 January 2024, 23:00 UTC. *)
Definition friday_night : Date := 1704495600000.

(** Tuesday 2 January 2024, 13:00 UTC. *)
Definition tuesday_noon : Date := 1704200400000.

End MarketClock.

Module TickNotions.

Import TradingExecutor Notions.

(** The requests a step added to the trace. *)
Definition issued (w w' : World) : list Request :=
  skipn (length (requests w)) (requests w').

(** The rows a step added to [trading_logs]. *)
Definition recorded (w w' : World) : list LogEntry :=
  skipn (length (trading_logs w)) (trading_logs w').

(** The candle request of a session, as [fetchOANDAMarketData] sends
    it. *)
Definition candles_request (s : Session) : Request :=
  GetCandles
    (baseUrl s ++ "/v3/instruments/" ++ symbol s
     ++ "/candles?count=500&granularity=" ++ timeframe s)%string
    (oanda_api_key s).

(** The order request of a session, as [executeOANDATrade] sends it. *)
Definition order_request (s : Session) (d : Direction) : Request :=
  PostOrder
    (baseUrl s ++ "/v3/accounts/" ++ oanda_account_id s ++ "/orders")%string
    (oanda_api_key s) (orderData s d).

(** The row [logTradingActivity] sends for an activity. *)
Definition log_entry (session : Session) (activity : Activity) : LogEntry :=
  {| session_id := id session;
     l_user_id := user_id session;
     log_type := logType activity;
     l_message := a_message activity;
     trade_data := activity;
     sessionInfo := (strategy_name session, symbol session,
                     timeframe session) |}.

(** The rows the table gains from an insert of [e]: the row when the
    database accepts it, nothing otherwise. *)
Definition rows_gained (env : Env) (e : LogEntry) : list LogEntry :=
  match insert_reply env e with DbOk => [e] | _ => [] end.

(** The console line [logTradingActivity] ends with. *)
Definition log_line (env : Env) (session : Session) (e : LogEntry)
  : ConsoleLine :=
  match insert_reply env e with
  | DbOk => LogLoggedActivity (id session)
  | DbError err => ErrFailedToLog err
  | DbThrows err => ErrLoggingActivity err
  end.

(** What the candle request of a session comes back with. *)
Definition fetched (env : Env) (s : Session) : Outcome MarketData :=
  fst (fetchOANDAMarketData env s empty_world).

(** What the order submission of a session comes back with. *)
Definition submitted (env : Env) (s : Session) (d : Direction)
  : Outcome string :=
  fst (executeOANDATrade env s d empty_world).

(** The direction [processTradinSession] acts on: the one of the last
    bar, when the last [entry] is true and the last [direction] is not
    null. *)
Definition latest_signal (signals : Signals) : option Direction :=
  if (0 <? length (entry signals))%nat then
    match Js.index (entry signals) (length (entry signals) - 1),
          Js.index (direction signals) (length (direction signals) - 1) with
    | Some true, Some (Some d) => Some d
    | _, _ => None
    end
  else None.

(** The signal a session's pipeline acts on for given market data. *)
Definition session_signal (s : Session) (marketData : MarketData)
  : option Direction :=
  latest_signal
    (executeStrategyLogic (strategy_code s) marketData (reverse_signals s)).

(** Whether a direction is given. *)
Definition has_direction (d : option Direction) : bool :=
  match d with Some _ => true | None => false end.

(** A volume the strategy can divide by: a number, and not zero. *)
Definition usable_volume (v : float) : bool :=
  negb (PrimFloat.is_nan v) && negb (PrimFloat.eqb v 0).

Definition is_insert (r : Request) : bool :=
  match r with InsertLog _ => true | _ => false end.

Definition is_candles (r : Request) : bool :=
  match r with GetCandles _ _ => true | _ => false end.

Definition is_update (r : Request) : bool :=
  match r with UpdateLastExecution _ _ => true | _ => false end.

Definition is_select (r : Request) : bool :=
  match r with SelectActiveSessions => true | _ => false end.

(** The requests of one pipeline: nothing, a candle request, or a
    candle request and an order, and then one audit insert [e]. *)
Definition pipeline_requests (s : Session) (e : LogEntry)
  (dr : list Request) : Prop :=
  dr = [InsertLog e]
  \/ dr = [candles_request s; InsertLog e]
  \/ exists d, dr = [candles_request s; order_request s d; InsertLog e].

(** The four ways a pipeline can go, with its outcome [o], its requests
    [dr] and its audit entry [e]: skipped for market conditions; candle
    request failed; no signal on the last bar; signal on the last bar
    and an order submitted, accepted or not. *)
Definition pipeline_case (env : Env) (marketStatus : MarketStatus)
  (s : Session) (o : Outcome SessionResult) (dr : list Request)
  (e : LogEntry) : Prop :=
  (shouldExecuteTrade marketStatus s = false
   /\ dr = [InsertLog e] /\ log_type e = info
   /\ a_action (trade_data e) = Some SKIPPED_MARKET_CONDITIONS
   /\ exists r, o = Returned r /\ action r = SKIPPED_MARKET_CONDITIONS)
  \/ (shouldExecuteTrade marketStatus s = true
      /\ exists err,
           fetched env s = Thrown err /\ o = Thrown err
           /\ dr = [candles_request s; InsertLog e]
           /\ log_type e = TradingExecutor.error
           /\ a_error (trade_data e) = Some (message err))
  \/ (shouldExecuteTrade marketStatus s = true
      /\ exists marketData,
           fetched env s = Returned marketData
           /\ session_signal s marketData = None
           /\ dr = [candles_request s; InsertLog e] /\ log_type e = info
           /\ exists r, o = Returned r /\ action r = NO_SIGNAL)
  \/ (shouldExecuteTrade marketStatus s = true
      /\ exists marketData d,
           fetched env s = Returned marketData
           /\ session_signal s marketData = Some d
           /\ dr = [candles_request s; order_request s d; InsertLog e]
           /\ ((exists json r,
                  submitted env s d = Returned json /\ o = Returned r
                  /\ action r = TRADE_EXECUTED /\ r_direction r = Some d
                  /\ r_tradeResult r = Some json /\ log_type e = trade)
               \/ (exists err,
                     submitted env s d = Thrown err /\ o = Thrown err
                     /\ log_type e = TradingExecutor.error
                     /\ a_error (trade_data e) = Some (message err)))).

(** Rows whose [id] is among [ids] get [last_execution] set to
    [value]. *)
Definition stamp (ids : list string) (value : string)
  (rows : list Session) : list Session :=
  map (fun r => if existsb (String.eqb (id r)) ids
                then set_last_execution r value else r) rows.

(** Candles of a series of [n] bars. *)
Definition candles_of (close : list float) : list Candle :=
  map (fun c => {| mid_o := c; mid_h := c; mid_l := c; mid_c := c;
                   c_volume := 0 |}) close.

(** An open market in which every session receives the series that
    falls and then jumps, and orders are accepted. *)
Definition env_crossing : Env :=
  {| now := {| utcDay := 2; utcHours := 13 |};
     iso_now := "2024-01-02T13:00:00.000Z";
     select_reply := SelectRows;
     insert_reply := fun _ => DbOk;
     update_reply := fun _ => DbOk;
     candles_reply := fun _ =>
       FetchResponse 200 "OK"
         (inr (candles_of (firstn 56 falling_then_jump)));
     order_reply := fun _ _ _ => PostResponse 201 "{}" (inr "{}"%string) |}.

(** Tuesday 19h UTC, a low-volume hour. *)
Definition env_evening : Env :=
  {| now := {| utcDay := 2; utcHours := 19 |};
     iso_now := "2024-01-02T19:00:00.000Z";
     select_reply := SelectRows;
     insert_reply := fun _ => DbOk;
     update_reply := fun _ => DbOk;
     candles_reply := fun _ =>
       FetchResponse 200 "OK"
         (inr (candles_of (firstn 56 falling_then_jump)));
     order_reply := fun _ _ _ => PostResponse 201 "{}" (inr "{}"%string) |}.

(** [session-a] with low-volume avoidance switched on. *)
Definition session_cautious : Session :=
  {| id := "session-d"; user_id := "user-123"; strategy_id := "strategy-1";
     strategy_name := "EMA Crossover";
     strategy_code := "strategy_logic(data)"; symbol := "EUR_USD";
     timeframe := "M5"; oanda_account_id := "account-id";
     oanda_api_key := "api-key"; environment := "practice";
     is_active := true; last_execution := "2024-01-01T00:00:00.000Z";
     risk_per_trade := 2.0; stop_loss := 40; take_profit := 80;
     max_position_size := 100000;
     reverse_signals := false; avoid_low_volume := true |}.

(** The world one pipeline leaves when it runs by itself, and what it
    added there. *)
Definition alone (env : Env) (marketStatus : MarketStatus) (s : Session)
  : World :=
  snd (processTradinSession env marketStatus s empty_world).

Definition session_requests (env : Env) (marketStatus : MarketStatus)
  (s : Session) : list Request :=
  requests (alone env marketStatus s).

Definition session_rows (env : Env) (marketStatus : MarketStatus)
  (s : Session) : list LogEntry :=
  trading_logs (alone env marketStatus s).

Definition session_lines (env : Env) (marketStatus : MarketStatus)
  (s : Session) : list ConsoleLine :=
  console (alone env marketStatus s).

(** The ids [updateSessionExecutionTimes] sends an update for: in
    order, up to and including the first one whose update throws. *)
Fixpoint update_attempts (env : Env) (ids : list string) : list string :=
  match ids with
  | [] => []
  | i :: rest =>
      i :: match update_reply env i with
           | DbThrows _ => []
           | _ => update_attempts env rest
           end
  end.

(** The ids whose update the database carries out before the loop
    ends. *)
Fixpoint updated_ids (env : Env) (ids : list string) : list string :=
  match ids with
  | [] => []
  | i :: rest =>
      match update_reply env i with
      | DbOk => i :: updated_ids env rest
      | DbError _ => updated_ids env rest
      | DbThrows _ => []
      end
  end.

(** The error that ends the loop, if an update throws. *)
Fixpoint update_failure (env : Env) (ids : list string) : option Error :=
  match ids with
  | [] => None
  | i :: rest =>
      match update_reply env i with
      | DbThrows e => Some e
      | _ => update_failure env rest
      end
  end.

Definition update_request (env : Env) (row_id : string) : Request :=
  UpdateLastExecution row_id (iso_now env).

(** The console line [updateSessionExecutionTimes] ends with. *)
Definition update_line (env : Env) (ids : list string) : ConsoleLine :=
  match update_failure env ids with
  | Some e => ErrUpdateExecutionTimes e
  | None => LogUpdatedExecutionTimes (length ids)
  end.

Definition never_throws (env : Env) (ids : list string) : Prop :=
  forall i, In i ids ->
            match update_reply env i with DbThrows _ => False | _ => True end.

Definition count {A : Type} (p : A -> bool) (l : list A) : nat :=
  length (filter p l).

End TickNotions.

(** * Properties *)

Import TradingExecutor Notions.
Import SandboxNotions.
Import TickNotions.

(** ** Loops and arrays *)

Lemma set_at_end :
  forall (A : Type) (a : list (Js.slot A)) v,
    Js.set a (length a) v = a ++ [v].
Proof.
  intros A a v. unfold Js.set.
  rewrite Nat.ltb_irrefl, Nat.sub_diag. reflexivity.
Qed.

Lemma get_last :
  forall (A : Type) (a : list (Js.slot A)) v,
    Js.get (a ++ [v]) (length a) = v.
Proof.
  intros A a v. unfold Js.get.
  rewrite app_nth2 by lia. now rewrite Nat.sub_diag.
Qed.

Lemma index_middle :
  forall (A : Type) (pre : list A) d rest,
    Js.index (pre ++ d :: rest) (length pre) = Some d.
Proof.
  intros A pre d rest. unfold Js.index.
  rewrite nth_error_app2 by lia. now rewrite Nat.sub_diag.
Qed.

(** ** The moving average *)

(** The loop of [calculateEMA], entered with the samples [pre] consumed
    and [prev] the last value stored, appends the recurrence over the
    remaining samples. *)
Lemma ema_loop_smooth :
  forall rest pre acc prev m,
    length acc = length pre ->
    (1 <= length pre)%nat ->
    Js.get acc (length pre - 1) = Some prev ->
    Js.for_loop (length rest) (length pre) (ema_body (pre ++ rest) m) acc
    = acc ++ map Some (smooth m prev rest).
Proof.
  induction rest as [|d r IH]; intros pre acc prev m Hlen Hpos Hprev; simpl.
  - now rewrite app_nil_r.
  - assert (Hbody : ema_body (pre ++ d :: r) m (length pre) acc
                    = acc ++ [Some (d * m + prev * (1 - m))%float]).
    { unfold ema_body. rewrite <- Hlen at 1. rewrite set_at_end.
      rewrite index_middle, Hprev. reflexivity. }
    rewrite Hbody.
    replace (pre ++ d :: r) with ((pre ++ [d]) ++ r)
      by (rewrite <- app_assoc; reflexivity).
    replace (S (length pre)) with (length (pre ++ [d]))
      by (rewrite length_app; simpl; lia).
    rewrite (IH (pre ++ [d]) (acc ++ [Some (d * m + prev * (1 - m))%float])
               (d * m + prev * (1 - m))%float m).
    + rewrite <- app_assoc. reflexivity.
    + rewrite !length_app. simpl. lia.
    + rewrite length_app. simpl. lia.
    + rewrite length_app. simpl.
      replace (length pre + 1 - 1)%nat with (length acc) by lia.
      apply get_last.
Qed.

Lemma calculateEMA_nonempty :
  forall d0 rest period,
    calculateEMA (d0 :: rest) period
    = map Some (ema_recurrence (d0 :: rest) period).
Proof.
  intros d0 rest period. unfold calculateEMA, ema_recurrence.
  change (Js.set [] 0 (Js.index (d0 :: rest) 0)) with [Some d0].
  replace (length (d0 :: rest) - 1)%nat with (length rest) by (simpl; lia).
  change (d0 :: rest) with ([d0] ++ rest).
  change 1%nat with (length [d0]) at 1.
  rewrite (ema_loop_smooth rest [d0] [Some d0] d0); simpl; auto.
Qed.

Lemma calculateEMA_empty :
  forall period, calculateEMA [] period = [None].
Proof. reflexivity. Qed.

(** ** The built-in crossover strategy *)

Lemma strategy_body_bar :
  forall ema21 ema55 reverseSignals i s,
    strategy_body ema21 ema55 reverseSignals i s
    = push_bar s (fst (bar ema21 ema55 reverseSignals i)) false
        (snd (bar ema21 ema55 reverseSignals i)).
Proof.
  intros ema21 ema55 r i s. unfold strategy_body, bar.
  destruct (i <? 55)%nat; [reflexivity|].
  destruct r, (bullish_at ema21 ema55 i), (bearish_at ema21 ema55 i);
    reflexivity.
Qed.

Lemma strategy_loop_bars :
  forall ema21 ema55 reverseSignals n i s,
    Js.for_loop n i (strategy_body ema21 ema55 reverseSignals) s
    = let bars := map (bar ema21 ema55 reverseSignals) (seq i n) in
      {| entry := entry s ++ map fst bars;
         exit := exit s ++ map (fun _ => false) bars;
         direction := direction s ++ map snd bars |}.
Proof.
  intros ema21 ema55 r n; induction n as [|n IH]; intros i s; simpl.
  - rewrite !app_nil_r. now destruct s.
  - rewrite IH, strategy_body_bar. simpl.
    rewrite <- !app_assoc. reflexivity.
Qed.

Lemma executeStrategyLogic_crossover :
  forall strategyCode marketData reverseSignals,
    executeStrategyLogic strategyCode marketData reverseSignals
    = crossover (md_close marketData) reverseSignals.
Proof.
  intros code md r. unfold executeStrategyLogic.
  rewrite strategy_loop_bars. reflexivity.
Qed.

Lemma gt_excludes_lt :
  forall x y, Js.gt x y = true -> Js.lt x y = false.
Proof.
  intros x y. unfold Js.gt, Js.lt.
  destruct (PrimFloat.compare x y); congruence.
Qed.

Lemma bullish_excludes_bearish :
  forall ema21 ema55 i,
    bullish_at ema21 ema55 i = true -> bearish_at ema21 ema55 i = false.
Proof.
  intros ema21 ema55 i. unfold bullish_at, bearish_at.
  rewrite andb_true_iff. intros [H _].
  now rewrite (gt_excludes_lt _ _ H).
Qed.

Lemma bar_reversed :
  forall ema21 ema55 i,
    fst (bar ema21 ema55 true i) = fst (bar ema21 ema55 false i)
    /\ snd (bar ema21 ema55 true i)
       = option_map swap (snd (bar ema21 ema55 false i)).
Proof.
  intros ema21 ema55 i. unfold bar.
  destruct (i <? 55)%nat; [now split|].
  destruct (bullish_at ema21 ema55 i) eqn:Hb.
  - rewrite (bullish_excludes_bearish _ _ _ Hb). now split.
  - destruct (bearish_at ema21 ema55 i); now split.
Qed.

Lemma nth_error_bars :
  forall (A : Type) (f : nat -> A) n i,
    nth_error (map f (seq 0 n)) i
    = if (i <? n)%nat then Some (f i) else None.
Proof.
  intros A f n i. destruct (Nat.ltb_spec i n) as [H|H].
  - rewrite nth_error_map.
    replace (nth_error (seq 0 n) i) with (Some i); [reflexivity|].
    symmetry. rewrite nth_error_nth' with (d := 0%nat) by now rewrite length_seq.
    now rewrite seq_nth.
  - apply nth_error_None. now rewrite length_map, length_seq.
Qed.

(** C6. The signals of the scheduled executor do not depend on the
    session's strategy code: two codes give the same three arrays on the
    same market data and reverse flag, and the arrays are those of the
    EMA(21)/EMA(55) crossover over the close series. *)
Theorem executeStrategyLogic_ignores_code :
  forall code1 code2 marketData reverseSignals,
    executeStrategyLogic code1 marketData reverseSignals
    = executeStrategyLogic code2 marketData reverseSignals
    /\ executeStrategyLogic code1 marketData reverseSignals
       = crossover (md_close marketData) reverseSignals.
Proof.
  intros code1 code2 md r.
  rewrite !executeStrategyLogic_crossover. split; reflexivity.
Qed.

(** C8. At every bar where the strategy gives a direction without
    reversal, it gives the swapped direction with [reverseSignals] set,
    and the entry flag of that bar is the same. *)
Theorem reverseSignals_swaps_direction :
  forall code marketData i d,
    nth_error (direction (executeStrategyLogic code marketData false)) i
    = Some (Some d) ->
    nth_error (direction (executeStrategyLogic code marketData true)) i
    = Some (Some (swap d))
    /\ nth_error (entry (executeStrategyLogic code marketData true)) i
       = nth_error (entry (executeStrategyLogic code marketData false)) i.
Proof.
  intros code md i d. rewrite !executeStrategyLogic_crossover.
  unfold crossover; simpl. rewrite !map_map, !nth_error_bars.
  destruct (i <? length (md_close md))%nat; [|discriminate].
  destruct (bar_reversed (calculateEMA (md_close md) 21)
              (calculateEMA (md_close md) 55) i) as [He Hd].
  intros H. injection H as H. rewrite Hd, H, He. split; reflexivity.
Qed.

Lemma reverseSignals_swaps_direction_witness :
  nth_error (direction (executeStrategyLogic "code"
                          (market_data_of falling_then_jump) false)) 55
  = Some (Some BUY)
  /\ nth_error (direction (executeStrategyLogic "code"
                             (market_data_of falling_then_jump) true)) 55
     = Some (Some SELL).
Proof.
  assert (H : nth_error (direction (executeStrategyLogic "code"
                          (market_data_of falling_then_jump) false)) 55
              = Some (Some BUY)) by (vm_compute; reflexivity).
  split; [exact H|].
  exact (proj1 (reverseSignals_swaps_direction "code"
                  (market_data_of falling_then_jump) 55 BUY H)).
Defined.

(** ** Worlds along a tick *)

Lemma extend_nothing : forall w, extend w [] [] [] = w.
Proof. intros [ss ls c r]. unfold extend; simpl. now rewrite !app_nil_r. Qed.

Lemma evolves_refl : forall w, evolves w w.
Proof.
  intros w. repeat split; try (exists []; now rewrite app_nil_r).
Qed.

Lemma evolves_trans :
  forall w1 w2 w3, evolves w1 w2 -> evolves w2 w3 -> evolves w1 w3.
Proof.
  intros w1 w2 w3 (Hs & [dl Hl] & [dc Hc] & [dr Hr])
    (Hs' & [dl' Hl'] & [dc' Hc'] & [dr' Hr']).
  split; [congruence|].
  split; [exists (dl ++ dl'); rewrite Hl', Hl; now rewrite app_assoc|].
  split; [exists (dc ++ dc'); rewrite Hc', Hc; now rewrite app_assoc|].
  exists (dr ++ dr'); rewrite Hr', Hr; now rewrite app_assoc.
Qed.

Lemma evolves_extend : forall w dl dc dr, evolves w (extend w dl dc dr).
Proof.
  intros w dl dc dr. repeat split; simpl; eauto.
Qed.

Lemma evolves_console :
  forall w w' c, evolves w w' -> In c (console w) -> In c (console w').
Proof.
  intros w w' c (_ & _ & [dc Hc] & _) H. rewrite Hc. apply in_or_app; now left.
Qed.

Lemma evolves_logged :
  forall s w w', evolves w w' -> logged s w -> logged s w'.
Proof.
  intros s w w' (_ & _ & _ & [dr Hr]) (e & Hin & He).
  exists e. split; [|exact He]. rewrite Hr. apply in_or_app; now left.
Qed.

Lemma db_update_keeps_configuration :
  forall row_id value rows,
    map configuration (db_update_last_execution row_id value rows)
    = map configuration rows.
Proof.
  intros row_id value rows. unfold db_update_last_execution.
  rewrite map_map. apply map_ext. intros r.
  destruct (String.eqb (id r) row_id); reflexivity.
Qed.

Lemma same_configuration_of_configuration :
  forall s s', configuration s' = configuration s -> same_configuration s s'.
Proof.
  intros s s' H. unfold configuration, set_last_execution in H.
  injection H; intros. repeat split; assumption.
Qed.

Lemma Forall2_same_configuration :
  forall rows rows',
    map configuration rows' = map configuration rows ->
    Forall2 same_configuration rows rows'.
Proof.
  induction rows as [|r rows IH]; intros [|r' rows'] H;
    try discriminate H; constructor.
  - apply same_configuration_of_configuration.
    exact (f_equal (fun l => hd (configuration r) l) H).
  - apply IH. exact (f_equal (@tl Session) H).
Qed.

(** *** Every step of the executor is steady *)

Lemma steady_ret : forall (A : Type) (a : A), steady (ret a).
Proof. intros A a w. apply evolves_refl. Qed.

Lemma steady_throw : forall (A : Type) e, steady (@throw A e).
Proof. intros A e w. apply evolves_refl. Qed.

Lemma steady_bind :
  forall (A B : Type) (m : M A) (k : A -> M B),
    steady m -> (forall a, steady (k a)) -> steady (bind m k).
Proof.
  intros A B m k Hm Hk w. unfold bind.
  specialize (Hm w). destruct (m w) as [[a|e] w1]; simpl in *.
  - eapply evolves_trans; [exact Hm | apply Hk].
  - exact Hm.
Qed.

Lemma steady_try_catch :
  forall (A : Type) (m : M A) (h : Error -> M A),
    steady m -> (forall e, steady (h e)) -> steady (try_catch m h).
Proof.
  intros A m h Hm Hh w. unfold try_catch.
  specialize (Hm w). destruct (m w) as [[a|e] w1]; simpl in *.
  - exact Hm.
  - eapply evolves_trans; [exact Hm | apply Hh].
Qed.

Lemma steady_console_write : forall c, steady (console_write c).
Proof.
  intros c w. repeat split; simpl; eauto; exists []; now rewrite app_nil_r.
Qed.

Lemma steady_send : forall r, steady (send r).
Proof.
  intros r w. repeat split; simpl; eauto; exists []; now rewrite app_nil_r.
Qed.

Lemma steady_append_log : forall e, steady (append_log e).
Proof.
  intros e w. repeat split; simpl; eauto; exists []; now rewrite app_nil_r.
Qed.

Lemma steady_read_sessions : steady read_sessions.
Proof. intros w. apply evolves_refl. Qed.

Lemma steady_update_row :
  forall row_id value,
    steady (write_sessions (db_update_last_execution row_id value)).
Proof.
  intros row_id value w. split; simpl.
  - apply db_update_keeps_configuration.
  - repeat split; exists []; now rewrite app_nil_r.
Qed.

Create HintDb steady discriminated.
#[local] Hint Resolve steady_ret steady_throw steady_bind steady_try_catch
  steady_console_write steady_send steady_append_log steady_read_sessions
  steady_update_row : steady.

Lemma steady_for_each :
  forall (A : Type) (f : A -> M unit) l,
    (forall a, steady (f a)) -> steady (for_each l f).
Proof.
  intros A f l Hf. induction l as [|a l IH]; simpl; auto with steady.
Qed.

Lemma steady_logTradingActivity :
  forall env session activity, steady (logTradingActivity env session activity).
Proof.
  intros env session activity. unfold logTradingActivity.
  apply steady_bind; [auto with steady|]. intros _.
  destruct (insert_reply env _); auto with steady.
Qed.

Lemma steady_getActiveTradingSessions :
  forall env, steady (getActiveTradingSessions env).
Proof.
  intros env. unfold getActiveTradingSessions.
  destruct (select_reply env); auto 10 with steady.
Qed.

Lemma steady_updateSessionExecutionTimes :
  forall env sessions, steady (updateSessionExecutionTimes env sessions).
Proof.
  intros env sessions. unfold updateSessionExecutionTimes.
  apply steady_try_catch; [|auto with steady].
  apply steady_bind; [|auto with steady].
  apply steady_for_each. intros [row_id value]; simpl.
  apply steady_bind; [auto with steady|]. intros _.
  destruct (update_reply env row_id); auto with steady.
Qed.

Lemma steady_fetchOANDAMarketData :
  forall env session, steady (fetchOANDAMarketData env session).
Proof.
  intros env session. unfold fetchOANDAMarketData.
  apply steady_bind; [auto with steady|]. intros _.
  destruct (candles_reply env session) as [e|status text [e|cs]];
    [auto with steady| |];
    destruct (negb (response_ok status)); auto with steady.
Qed.

Lemma steady_executeOANDATrade :
  forall env session direction,
    steady (executeOANDATrade env session direction).
Proof.
  intros env session d. unfold executeOANDATrade.
  apply steady_bind; [auto with steady|]. intros _.
  destruct (order_reply env session _ 0%nat) as [e|status text [e|v]];
    [auto with steady| |];
    destruct (negb (response_ok status)); auto with steady.
Qed.

#[local] Hint Resolve steady_for_each steady_logTradingActivity
  steady_getActiveTradingSessions steady_updateSessionExecutionTimes
  steady_fetchOANDAMarketData steady_executeOANDATrade : steady.

Lemma steady_no_signal : forall env session, steady (no_signal env session).
Proof. intros env session. unfold no_signal. auto 10 with steady. Qed.

#[local] Hint Resolve steady_no_signal : steady.

Lemma steady_processTradinSession :
  forall env marketStatus session,
    steady (processTradinSession env marketStatus session).
Proof.
  intros env ms session. unfold processTradinSession.
  apply steady_bind; [auto with steady|]. intros _.
  apply steady_try_catch; [|auto 10 with steady].
  destruct (negb (shouldExecuteTrade ms session)); [auto 10 with steady|].
  apply steady_bind; [auto with steady|]. intros marketData.
  destruct (0 <? _)%nat; [|auto with steady].
  destruct (Js.index (entry _) _) as [[|]|]; auto with steady.
  destruct (Js.index (direction _) _) as [[d|]|]; auto 10 with steady.
Qed.

Lemma steady_allSettled :
  forall (A : Type) (promises : list (M A)),
    (forall p, In p promises -> steady p) -> steady (allSettled promises).
Proof.
  intros A promises. induction promises as [|p rest IH]; intros H; simpl.
  - auto with steady.
  - intros w. pose proof (H p (or_introl eq_refl) w) as Hp.
    destruct (p w) as [o w1]; simpl in Hp.
    eapply evolves_trans; [exact Hp|].
    apply steady_bind; [|auto with steady].
    apply IH. intros q Hq. apply H. now right.
Qed.

Lemma steady_log_results :
  forall results index successCount errorCount,
    steady (log_results results index successCount errorCount).
Proof.
  induction results as [|[v|e] rest IH]; intros index a b; simpl;
    auto with steady.
Qed.

#[local] Hint Resolve steady_processTradinSession steady_log_results : steady.

Lemma steady_handler : forall env, steady (handler env).
Proof.
  intros env. unfold handler.
  apply steady_bind; [auto with steady|]. intros _.
  apply steady_try_catch; [|auto with steady].
  apply steady_bind; [auto with steady|]. intros _.
  destruct (negb (isOpen _)); [auto with steady|].
  apply steady_bind; [auto with steady|]. intros activeSessions.
  destruct (length activeSessions =? 0)%nat; [auto with steady|].
  apply steady_bind; [auto with steady|]. intros _.
  apply steady_bind.
  - apply steady_allSettled. intros p Hp.
    apply in_map_iff in Hp. destruct Hp as (s & <- & _). auto with steady.
  - intros results. auto 10 with steady.
Qed.

(** ** One pipeline, whatever the world *)

Lemma extend_extend :
  forall w dl dc dr dl' dc' dr',
    extend (extend w dl dc dr) dl' dc' dr'
    = extend w (dl ++ dl') (dc ++ dc') (dr ++ dr').
Proof.
  intros. unfold extend; simpl. now rewrite !app_assoc.
Qed.

Lemma writes_ret : forall (A : Type) (a : A), writes (ret a) (Returned a) [] [] [].
Proof. intros A a w. now rewrite extend_nothing. Qed.

Lemma writes_throw :
  forall (A : Type) e, writes (@throw A e) (Thrown e) [] [] [].
Proof. intros A e w. unfold throw. now rewrite extend_nothing. Qed.

Lemma writes_console_write :
  forall c, writes (console_write c) (Returned tt) [] [c] [].
Proof.
  intros c w. unfold console_write, extend. now rewrite !app_nil_r.
Qed.

Lemma writes_send : forall r, writes (send r) (Returned tt) [] [] [r].
Proof. intros r w. unfold send, extend. now rewrite !app_nil_r. Qed.

Lemma writes_append_log :
  forall e, writes (append_log e) (Returned tt) [e] [] [].
Proof. intros e w. unfold append_log, extend. now rewrite !app_nil_r. Qed.

Lemma writes_bind_returned :
  forall (A B : Type) (m : M A) (k : A -> M B) a dl dc dr o dl' dc' dr',
    writes m (Returned a) dl dc dr ->
    writes (k a) o dl' dc' dr' ->
    writes (bind m k) o (dl ++ dl') (dc ++ dc') (dr ++ dr').
Proof.
  intros A B m k a dl dc dr o dl' dc' dr' Hm Hk w.
  unfold bind. rewrite Hm, Hk. now rewrite extend_extend.
Qed.

Lemma writes_bind_thrown :
  forall (A B : Type) (m : M A) (k : A -> M B) e dl dc dr,
    writes m (Thrown e) dl dc dr -> writes (bind m k) (Thrown e) dl dc dr.
Proof. intros A B m k e dl dc dr Hm w. unfold bind. now rewrite Hm. Qed.

Lemma writes_try_returned :
  forall (A : Type) (m : M A) h a dl dc dr,
    writes m (Returned a) dl dc dr ->
    writes (try_catch m h) (Returned a) dl dc dr.
Proof. intros A m h a dl dc dr Hm w. unfold try_catch. now rewrite Hm. Qed.

Lemma writes_try_thrown :
  forall (A : Type) (m : M A) h e dl dc dr o dl' dc' dr',
    writes m (Thrown e) dl dc dr ->
    writes (h e) o dl' dc' dr' ->
    writes (try_catch m h) o (dl ++ dl') (dc ++ dc') (dr ++ dr').
Proof.
  intros A m h e dl dc dr o dl' dc' dr' Hm Hh w.
  unfold try_catch. rewrite Hm, Hh. now rewrite extend_extend.
Qed.

Lemma writer_ret : forall (A : Type) (a : A), writer (ret a).
Proof. intros A a. do 4 eexists. apply writes_ret. Qed.

Lemma writer_throw : forall (A : Type) e, writer (@throw A e).
Proof. intros A e. do 4 eexists. apply writes_throw. Qed.

Lemma writer_console_write : forall c, writer (console_write c).
Proof. intros c. do 4 eexists. apply writes_console_write. Qed.

Lemma writer_send : forall r, writer (send r).
Proof. intros r. do 4 eexists. apply writes_send. Qed.

Lemma writer_append_log : forall e, writer (append_log e).
Proof. intros e. do 4 eexists. apply writes_append_log. Qed.

Lemma writer_bind :
  forall (A B : Type) (m : M A) (k : A -> M B),
    writer m -> (forall a, writer (k a)) -> writer (bind m k).
Proof.
  intros A B m k (o & dl & dc & dr & Hm) Hk. destruct o as [a|e].
  - destruct (Hk a) as (o' & dl' & dc' & dr' & Hka).
    do 4 eexists. eapply writes_bind_returned; eassumption.
  - do 4 eexists. eapply writes_bind_thrown; eassumption.
Qed.

Create HintDb writer discriminated.
#[local] Hint Resolve writer_ret writer_throw writer_console_write
  writer_send writer_append_log writer_bind : writer.

Lemma writer_logTradingActivity :
  forall env session activity, writer (logTradingActivity env session activity).
Proof.
  intros env session activity. unfold logTradingActivity.
  apply writer_bind; [auto with writer|]. intros _.
  destruct (insert_reply env _); auto with writer.
Qed.

Lemma writer_fetchOANDAMarketData :
  forall env session, writer (fetchOANDAMarketData env session).
Proof.
  intros env session. unfold fetchOANDAMarketData.
  apply writer_bind; [auto with writer|]. intros _.
  destruct (candles_reply env session) as [e|status text [e|cs]];
    [auto with writer| |];
    destruct (negb (response_ok status)); auto with writer.
Qed.

Lemma writer_executeOANDATrade :
  forall env session direction,
    writer (executeOANDATrade env session direction).
Proof.
  intros env session d. unfold executeOANDATrade.
  apply writer_bind; [auto with writer|]. intros _.
  destruct (order_reply env session _ 0%nat) as [e|status text [e|v]];
    [auto with writer| |];
    destruct (negb (response_ok status)); auto with writer.
Qed.

#[local] Hint Resolve writer_logTradingActivity writer_fetchOANDAMarketData
  writer_executeOANDATrade : writer.

(** *** Every path of the pipeline asks for an audit insert *)

Lemma inserts_for_left :
  forall s dr dr', inserts_for s dr -> inserts_for s (dr ++ dr').
Proof.
  intros s dr dr' (e & Hin & He). exists e. split; [|exact He].
  apply in_or_app; now left.
Qed.

Lemma inserts_for_right :
  forall s dr dr', inserts_for s dr' -> inserts_for s (dr ++ dr').
Proof.
  intros s dr dr' (e & Hin & He). exists e. split; [|exact He].
  apply in_or_app; now right.
Qed.

Lemma audited_logTradingActivity :
  forall env session activity,
    audited session (logTradingActivity env session activity).
Proof.
  intros env session activity.
  unfold logTradingActivity.
  set (logEntry := {| session_id := id session;
                      l_user_id := user_id session;
                      log_type := logType activity;
                      l_message := a_message activity;
                      trade_data := activity;
                      sessionInfo := (strategy_name session, symbol session,
                                      timeframe session) |}).
  assert (Hk : writer (match insert_reply env logEntry with
                       | DbOk => bind (append_log logEntry)
                                   (fun _ => console_write
                                               (LogLoggedActivity (id session)))
                       | DbError e => console_write (ErrFailedToLog e)
                       | DbThrows e => console_write (ErrLoggingActivity e)
                       end))
    by (destruct (insert_reply env logEntry); auto with writer).
  destruct Hk as (o & dl & dc & dr & Hk).
  exists o, ([] ++ dl), ([] ++ dc), ([InsertLog logEntry] ++ dr). split.
  - eapply writes_bind_returned; [apply writes_send | exact Hk].
  - apply inserts_for_left. exists logEntry. split; [now left | reflexivity].
Qed.

Lemma audited_then :
  forall (A B : Type) s (m : M A) (k : A -> M B),
    audited s m -> (forall a, writer (k a)) -> audited s (bind m k).
Proof.
  intros A B s m k (o & dl & dc & dr & Hm & Hin) Hk. destruct o as [a|e].
  - destruct (Hk a) as (o' & dl' & dc' & dr' & Hka).
    do 4 eexists. split; [eapply writes_bind_returned; eassumption|].
    now apply inserts_for_left.
  - do 4 eexists. split; [eapply writes_bind_thrown; eassumption|assumption].
Qed.

Lemma audited_after :
  forall (A B : Type) s (m : M A) (k : A -> M B),
    writer m -> (forall a, audited s (k a)) ->
    audited_on_return s (bind m k).
Proof.
  intros A B s m k (o & dl & dc & dr & Hm) Hk. destruct o as [a|e].
  - destruct (Hk a) as (o' & dl' & dc' & dr' & Hka & Hin).
    do 4 eexists. split; [eapply writes_bind_returned; eassumption|].
    intros _. now apply inserts_for_right.
  - do 4 eexists. split; [eapply writes_bind_thrown; eassumption|].
    intros [a Ha]. discriminate Ha.
Qed.

Lemma audited_on_return_after :
  forall (A B : Type) s (m : M A) (k : A -> M B),
    writer m -> (forall a, audited_on_return s (k a)) ->
    audited_on_return s (bind m k).
Proof.
  intros A B s m k (o & dl & dc & dr & Hm) Hk. destruct o as [a|e].
  - destruct (Hk a) as (o' & dl' & dc' & dr' & Hka & Hin).
    do 4 eexists. split; [eapply writes_bind_returned; eassumption|].
    intros H. apply inserts_for_right. now apply Hin.
  - do 4 eexists. split; [eapply writes_bind_thrown; eassumption|].
    intros [a Ha]. discriminate Ha.
Qed.

Lemma audited_weaken :
  forall (A : Type) s (m : M A), audited s m -> audited_on_return s m.
Proof.
  intros A s m (o & dl & dc & dr & Hm & Hin). do 4 eexists. split; eauto.
Qed.

Lemma audited_try_catch :
  forall (A : Type) s (m : M A) h,
    audited_on_return s m -> (forall e, audited s (h e)) ->
    audited s (try_catch m h).
Proof.
  intros A s m h (o & dl & dc & dr & Hm & Hin) Hh. destruct o as [a|e].
  - do 4 eexists. split; [eapply writes_try_returned; eassumption|].
    apply Hin. now exists a.
  - destruct (Hh e) as (o' & dl' & dc' & dr' & Hhe & Hin').
    do 4 eexists. split; [eapply writes_try_thrown; eassumption|].
    now apply inserts_for_right.
Qed.

Lemma audited_after_console :
  forall (B : Type) s c (k : unit -> M B),
    audited s (k tt) -> audited s (bind (console_write c) k).
Proof.
  intros B s c k (o & dl & dc & dr & Hk & Hin).
  do 4 eexists. split.
  - eapply writes_bind_returned; [apply writes_console_write | exact Hk].
  - exact Hin.
Qed.

Lemma audited_no_signal :
  forall env session, audited session (no_signal env session).
Proof.
  intros env session. unfold no_signal.
  apply audited_after_console.
  apply audited_then; [apply audited_logTradingActivity|].
  auto with writer.
Qed.

Lemma audited_processTradinSession :
  forall env marketStatus session,
    audited session (processTradinSession env marketStatus session).
Proof.
  intros env ms session. unfold processTradinSession.
  apply audited_after_console.
  apply audited_try_catch.
  - destruct (negb (shouldExecuteTrade ms session)).
    + apply audited_weaken, audited_after_console.
      apply audited_then; [apply audited_logTradingActivity|].
      auto with writer.
    + apply audited_on_return_after; [auto with writer|]. intros marketData.
      destruct (0 <? _)%nat; [|apply audited_weaken, audited_no_signal].
      destruct (Js.index (entry _) _) as [[|]|];
        try apply audited_weaken, audited_no_signal.
      destruct (Js.index (direction _) _) as [[d|]|];
        try apply audited_weaken, audited_no_signal.
      apply audited_on_return_after; [auto with writer|]. intros _.
      apply audited_after; [auto with writer|]. intros tradeResult.
      apply audited_then; [apply audited_logTradingActivity|].
      auto with writer.
  - intros e. apply audited_after_console.
    apply audited_then; [apply audited_logTradingActivity|].
    intros _. auto with writer.
Qed.

(** The outcome of a pipeline in the tick is its outcome run alone. *)
Lemma pipeline_in_any_world :
  forall env marketStatus s,
    exists o dl dc dr,
      writes (processTradinSession env marketStatus s) o dl dc dr
      /\ inserts_for s dr
      /\ settle_alone env marketStatus s
         = match o with
           | Returned v => fulfilled v
           | Thrown e => rejected e
           end.
Proof.
  intros env ms s.
  destruct (audited_processTradinSession env ms s)
    as (o & dl & dc & dr & Hw & Hin).
  exists o, dl, dc, dr. repeat split; try assumption.
  unfold settle_alone. now rewrite Hw.
Qed.

(** [Promise.allSettled] over the pipelines: one settled result per
    session, each the session's own, and an audit insert requested for
    every session. *)
Lemma allSettled_pipelines :
  forall env marketStatus sessions w,
    exists w',
      allSettled (map (fun session =>
                         processTradinSession env marketStatus session)
                    sessions) w
      = (Returned (map (settle_alone env marketStatus) sessions), w')
      /\ evolves w w'
      /\ forall s, In s sessions -> logged s w'.
Proof.
  intros env ms sessions. induction sessions as [|s rest IH]; intros w.
  - exists w. simpl.
    split; [reflexivity|]. split; [apply evolves_refl|intros s []].
  - destruct (pipeline_in_any_world env ms s)
      as (o & dl & dc & dr & Hw & Hin & Hs).
    destruct (IH (extend w dl dc dr)) as (w' & Hrun & Hev & Hlog).
    exists w'. simpl. rewrite Hw. unfold bind. rewrite Hrun. simpl.
    rewrite Hs. split; [reflexivity|]. split.
    + eapply evolves_trans; [apply evolves_extend | exact Hev].
    + intros s' [<-|Hs']; [|now apply Hlog].
      apply (evolves_logged s (extend w dl dc dr)); [exact Hev|].
      destruct Hin as (e & He & Hid). exists e. split; [|exact Hid].
      simpl. apply in_or_app; now right.
Qed.

Lemma log_results_lines :
  forall results index successCount errorCount w,
    log_results results index successCount errorCount w
    = (Returned (successCount + count_fulfilled results,
                 errorCount + count_rejected results)%nat,
       extend w [] (result_lines index results) []).
Proof.
  unfold count_fulfilled, count_rejected.
  induction results as [|[v|e] rest IH]; intros index a b w; simpl.
  - unfold ret. now rewrite extend_nothing, !Nat.add_0_r.
  - unfold bind. rewrite writes_console_write, IH, extend_extend. simpl.
    do 3 f_equal; lia.
  - unfold bind. rewrite writes_console_write, IH, extend_extend. simpl.
    do 3 f_equal; lia.
Qed.

Lemma result_lines_nth :
  forall results index i r,
    nth_error results i = Some r ->
    In (settled_line (index + i + 1) r) (result_lines index results).
Proof.
  induction results as [|r0 rest IH]; intros index i r H.
  - destruct i; discriminate H.
  - destruct i as [|i]; simpl in *.
    + injection H as ->. left. now rewrite Nat.add_0_r.
    + right. replace (index + S i + 1)%nat with (S index + i + 1)%nat by lia.
      now apply IH.
Qed.

Lemma updateSessionExecutionTimes_returns :
  forall env sessions w,
    fst (updateSessionExecutionTimes env sessions w) = Returned tt.
Proof.
  intros env sessions w. unfold updateSessionExecutionTimes, try_catch.
  destruct (bind _ _ w) as [[[]|e] w1]; reflexivity.
Qed.

Lemma getActiveTradingSessions_loaded :
  forall env w,
    fst (getActiveTradingSessions env w) = Returned (loaded env w).
Proof.
  intros env w. unfold getActiveTradingSessions, loaded.
  destruct (select_reply env); reflexivity.
Qed.

(** ** The tick *)

(** The part of the handler that runs when the market is open. *)
Lemma open_market_tick :
  forall env w0 w,
    evolves w0 w ->
    loaded env w = loaded env w0 ->
    let marketStatus := getMarketStatus (now env) in
    let sessions := loaded env w0 in
    let outcomes := map (settle_alone env marketStatus) sessions in
    let rest :=
      bind (getActiveTradingSessions env) (fun activeSessions =>
        if (length activeSessions =? 0)%nat then
          bind (console_write LogNoActiveSessions) (fun _ =>
            ret {| statusCode := 200; body := NoActiveSessionsBody |})
        else
          bind (console_write (LogProcessingSessions (length activeSessions)))
            (fun _ =>
          bind (allSettled
                  (map (fun session =>
                          processTradinSession env marketStatus session)
                     activeSessions)) (fun results =>
          bind (log_results results 0 0 0) (fun counts =>
          bind (updateSessionExecutionTimes env activeSessions) (fun _ =>
            ret {| statusCode := 200;
                   body := CompletedBody (length activeSessions)
                             (fst counts) (snd counts)
                             (formatMarketStatus marketStatus)
                             (iso_now env) |}))))) in
    exists w',
      rest w
      = (Returned
           {| statusCode := 200;
              body := match sessions with
                      | [] => NoActiveSessionsBody
                      | _ => CompletedBody (length sessions)
                               (count_fulfilled outcomes)
                               (count_rejected outcomes)
                               (formatMarketStatus marketStatus)
                               (iso_now env)
                      end |}, w')
      /\ evolves w0 w'
      /\ forall i s,
           nth_error sessions i = Some s ->
           In (settled_line (i + 1) (settle_alone env marketStatus s))
             (console w')
           /\ logged s w'.
Proof.
  intros env w0 w Hev Hload ms sessions outcomes rest.
  subst rest. unfold bind at 1.
  pose proof (getActiveTradingSessions_loaded env w) as Hget.
  pose proof (steady_getActiveTradingSessions env w) as Hev1.
  destruct (getActiveTradingSessions env w) as [o w1]. simpl in Hget, Hev1.
  subst o. rewrite Hload. fold sessions. subst outcomes.
  clearbody sessions. clear Hload.
  assert (H01 : evolves w0 w1) by (eapply evolves_trans; eassumption).
  destruct sessions as [|s0 rest].
  - simpl. eexists. split; [reflexivity|]. split.
    + eapply evolves_trans; [exact H01|]. apply steady_console_write.
    + intros i s H. destruct i; discriminate H.
  - remember (s0 :: rest) as sessions eqn:Hs.
    set (outcomes := map (settle_alone env ms) sessions).
    replace (length sessions =? 0)%nat with false
      by (rewrite Hs; reflexivity).
    unfold bind at 1. rewrite writes_console_write. cbv beta iota.
    set (w2 := extend w1 [] [LogProcessingSessions (length sessions)] []).
    destruct (allSettled_pipelines env ms sessions w2)
      as (w3 & Hrun & Hev3 & Hlog).
    unfold bind at 1. rewrite Hrun. cbv beta iota.
    unfold bind at 1. rewrite log_results_lines. cbv beta iota.
    fold outcomes.
    set (w4 := extend w3 [] (result_lines 0 outcomes) []).
    unfold bind at 1.
    pose proof (updateSessionExecutionTimes_returns env sessions w4) as Hup.
    pose proof (steady_updateSessionExecutionTimes env sessions w4) as Hev5.
    destruct (updateSessionExecutionTimes env sessions w4) as [o5 w5].
    simpl in Hup, Hev5. subst o5. cbv beta iota.
    exists w5. split; [unfold ret; simpl; rewrite Hs; reflexivity|].
    assert (H04 : evolves w0 w4).
    { eapply evolves_trans; [exact H01|].
      eapply evolves_trans; [apply evolves_extend|].
      eapply evolves_trans; [exact Hev3|]. apply evolves_extend. }
    split; [eapply evolves_trans; eassumption|].
    intros i s Hi. split.
    + apply (evolves_console w4 w5); [exact Hev5|].
      subst w4. simpl. apply in_or_app. right.
      change (i + 1)%nat with (0 + i + 1)%nat.
      apply result_lines_nth. subst outcomes.
      rewrite nth_error_map, Hi. reflexivity.
    + apply (evolves_logged s w3 w5).
      * eapply evolves_trans; [apply evolves_extend | exact Hev5].
      * apply Hlog. eapply nth_error_In; eassumption.
Qed.

Lemma handler_open_market :
  forall env w,
    isOpen (getMarketStatus (now env)) = true ->
    let marketStatus := getMarketStatus (now env) in
    let sessions := loaded env w in
    let outcomes := map (settle_alone env marketStatus) sessions in
    exists w',
      handler env w
      = (Returned
           {| statusCode := 200;
              body := match sessions with
                      | [] => NoActiveSessionsBody
                      | _ => CompletedBody (length sessions)
                               (count_fulfilled outcomes)
                               (count_rejected outcomes)
                               (formatMarketStatus marketStatus)
                               (iso_now env)
                      end |}, w')
      /\ forall i s,
           nth_error sessions i = Some s ->
           In (settled_line (i + 1) (settle_alone env marketStatus s))
             (console w')
           /\ logged s w'.
Proof.
  intros env w Hopen ms sessions outcomes.
  unfold handler.
  unfold bind at 1. rewrite writes_console_write.
  unfold try_catch. unfold bind at 1. rewrite writes_console_write.
  cbv beta iota zeta. fold ms.
  replace (isOpen ms) with true by (symmetry; exact Hopen).
  change (negb true) with false. cbv beta iota.
  match goal with
  | |- context [bind (getActiveTradingSessions env) ?k ?w1] =>
      destruct (open_market_tick env w w1) as (w' & Hrun & Hev & Hall)
  end.
  - rewrite extend_extend. apply evolves_extend.
  - reflexivity.
  - fold ms in Hrun. rewrite Hrun. exists w'. split; [reflexivity|exact Hall].
Qed.

(** C1. With the market open, the handler answers 200 whatever the
    pipelines do; each active session gets the settled outcome its own
    pipeline produces when run alone (a session that throws changes no
    other session's outcome), that outcome is written to the console
    under the session's position, and an audit insert is requested for
    every session. *)
Theorem tick_isolates_session_failures :
  forall env w,
    isOpen (getMarketStatus (now env)) = true ->
    let marketStatus := getMarketStatus (now env) in
    let sessions := loaded env w in
    let outcomes := map (settle_alone env marketStatus) sessions in
    let run := handler env w in
    fst run
    = Returned
        {| statusCode := 200;
           body := match sessions with
                   | [] => NoActiveSessionsBody
                   | _ => CompletedBody (length sessions)
                            (count_fulfilled outcomes)
                            (count_rejected outcomes)
                            (formatMarketStatus marketStatus)
                            (iso_now env)
                   end |}
    /\ forall i s,
         nth_error sessions i = Some s ->
         In (settled_line (i + 1) (settle_alone env marketStatus s))
           (console (snd run))
         /\ logged s (snd run).
Proof.
  intros env w Hopen ms sessions outcomes run. subst run.
  destruct (handler_open_market env w Hopen) as (w' & Hrun & Hall).
  rewrite Hrun. split; [reflexivity|exact Hall].
Qed.

Lemma tick_isolates_session_failures_witness :
  isOpen (getMarketStatus (now env_one_fails)) = true
  /\ fst (handler env_one_fails sample_world)
     = Returned
         {| statusCode := 200;
            body := CompletedBody 2 1 1 "Markets Open (high volume)"
                      "2024-01-02T13:00:00.000Z" |}
  /\ In (ErrSessionFailed 1 {| message := "fetch failed" |})
       (console (snd (handler env_one_fails sample_world)))
  /\ logged session_b (snd (handler env_one_fails sample_world)).
Proof.
  split; [reflexivity|].
  pose proof (tick_isolates_session_failures env_one_fails sample_world
                eq_refl) as [Hrun Hall].
  split; [exact Hrun|].
  split.
  - exact (proj1 (Hall 0%nat session_a eq_refl)).
  - exact (proj2 (Hall 1%nat session_b eq_refl)).
Defined.

(** C7. Whatever happens during a tick, in particular when pipelines
    fail, every row of [trading_sessions] keeps its activity flag,
    strategy code, risk parameters and every other field but
    [last_execution]; no row is added or removed. *)
Theorem tick_writes_only_last_execution :
  forall env w,
    Forall2 same_configuration (trading_sessions w)
      (trading_sessions (snd (handler env w))).
Proof.
  intros env w. apply Forall2_same_configuration.
  exact (proj1 (steady_handler env w)).
Qed.

(** Deactivation is what [stopSession] does, on the rows it selects. *)
Lemma stopSession_deactivates :
  forall userId sessionId w r,
    In r (trading_sessions w) ->
    ForwardTestingService.selected userId sessionId r = true ->
    In (ForwardTestingService.deactivate r)
      (trading_sessions
         (snd (ForwardTestingService.stopSession DbOk userId sessionId w))).
Proof.
  intros userId sessionId w r Hin Hsel. simpl.
  apply in_map_iff. exists r. now rewrite Hsel.
Qed.

Lemma saturday_is_closed :
  forall hour, isOpen (getMarketStatus {| utcDay := 6; utcHours := hour |}) = false.
Proof. reflexivity. Qed.

(** C3 (amended). On a tick with the market closed, in particular at
    any hour of a Saturday, the handler answers 200 with the
    markets-closed message, issues no request at all (no database call,
    no candle fetch, no order), leaves both tables as they were, and
    writes three console lines, the last of which says that execution
    is skipped. *)
Theorem closed_market_skips_tick :
  forall env w,
    utcDay (now env) = 6%nat \/ isOpen (getMarketStatus (now env)) = false ->
    let run := handler env w in
    fst run = Returned {| statusCode := 200;
                          body := MarketsClosedBody "Markets Closed" |}
    /\ requests (snd run) = requests w
    /\ trading_logs (snd run) = trading_logs w
    /\ trading_sessions (snd run) = trading_sessions w
    /\ console (snd run)
       = console w ++ [LogStarting (iso_now env);
                       LogMarketStatus "Markets Closed";
                       LogMarketsClosed].
Proof.
  intros env w H run.
  assert (Hclosed : isOpen (getMarketStatus (now env)) = false).
  { destruct H as [H|H]; [|exact H].
    destruct (now env) as [day hour]; simpl in H; subst day.
    apply saturday_is_closed. }
  subst run. unfold handler, try_catch, bind, console_write, ret,
    formatMarketStatus.
  rewrite Hclosed. simpl.
  rewrite <- !app_assoc. repeat split.
Qed.

Lemma closed_market_skips_tick_witness :
  (utcDay (now env_saturday) = 6%nat
   \/ isOpen (getMarketStatus (now env_saturday)) = false)
  /\ requests (snd (handler env_saturday sample_world)) = [].
Proof.
  split; [left; reflexivity|].
  exact (proj1 (proj2 (closed_market_skips_tick env_saturday sample_world
                         (or_introl eq_refl)))).
Defined.

(** C3 as stated fails: on a Saturday tick no audit record is appended
    to [trading_logs] and none is requested. *)
Lemma closed_market_emits_no_audit_record :
  let run := handler env_saturday sample_world in
  ~ (exists e, trading_logs (snd run) = trading_logs sample_world ++ [e])
  /\ ~ (exists e, In (InsertLog e) (requests (snd run))).
Proof.
  split.
  - intros [e H]. vm_compute in H. discriminate H.
  - intros [e H]. vm_compute in H. exact H.
Qed.

(** ** Order submission *)

Lemma executeOANDATrade_one_request :
  forall env session direction w,
    requests (snd (executeOANDATrade env session direction w))
    = requests w
      ++ [PostOrder (baseUrl session ++ "/v3/accounts/"
                     ++ oanda_account_id session ++ "/orders")%string
            (oanda_api_key session) (orderData session direction)].
Proof.
  intros env session d w. unfold executeOANDATrade, bind, send, throw, ret.
  simpl.
  destruct (order_reply env session (orderData session d) 0%nat)
    as [e|status text [e|v]]; simpl;
    try destruct (negb (response_ok status)); reflexivity.
Qed.

(** C4 as stated fails: the brokerage answers 503 three times and would
    answer 200 to a fourth submission, yet the call throws after its
    only submission. *)
Lemma no_retry_after_503 :
  let run := executeOANDATrade env_503_three_times session_a BUY empty_world in
  order_reply env_503_three_times session_a (orderData session_a BUY) 3%nat
  = PostResponse 200 "{}" (inr "{}"%string)
  /\ (forall v, fst run <> Returned v)
  /\ length (filter is_order (requests (snd run))) = 1%nat.
Proof.
  split; [reflexivity|]. split; [|reflexivity].
  intros v H. vm_compute in H. discriminate H.
Qed.

(** ** Pip distances *)

Lemma whole_pips_round_trip :
  forall n, (1 <= n <= 1000)%nat -> round_trips_closely n = true.
Proof.
  intros n Hn.
  assert (H : forallb round_trips_closely (seq 1 1000) = true)
    by (vm_compute; reflexivity).
  rewrite forallb_forall in H. apply H. apply in_seq. lia.
Qed.

(** C10 (amended). The order carries [stop_loss / 10000] and
    [take_profit / 10000] as its two distances.  For the distances a
    new session is created with (40 and 80 pips) multiplying the
    submitted distance by 10000 gives the pips back exactly; for every
    whole number of pips from 1 to 1000 it gives them back to within
    1e-12. *)
Theorem orderData_distances :
  forall session direction,
    (stopLossOnFill_distance (orderData session direction)
     = stop_loss session / 10000
     /\ takeProfitOnFill_distance (orderData session direction)
        = take_profit session / 10000)%float
    /\ (forall n,
          (1 <= n <= 1000)%nat ->
          (stop_loss session = whole_pips n ->
           Js.le (round_trip_error
                    (stopLossOnFill_distance (orderData session direction))
                    (stop_loss session)) 1e-12 = true)
          /\ (take_profit session = whole_pips n ->
              Js.le (round_trip_error
                       (takeProfitOnFill_distance
                          (orderData session direction))
                       (take_profit session)) 1e-12 = true))
    /\ forall row_id userId strategyId strategyName strategyCode symbol
         timeframe oandaAccountId oandaApiKey environment now,
         let fresh :=
           ForwardTestingService.sessionData row_id userId strategyId
             strategyName strategyCode symbol timeframe oandaAccountId
             oandaApiKey environment now in
         (stopLossOnFill_distance (orderData fresh direction) * 10000
          = stop_loss fresh
          /\ takeProfitOnFill_distance (orderData fresh direction) * 10000
             = take_profit fresh)%float.
Proof.
  intros session d. split; [split; reflexivity|]. split.
  - intros n Hn. split; intros Hpips; simpl; rewrite Hpips;
      exact (whole_pips_round_trip n Hn).
  - intros. split; reflexivity.
Qed.

Lemma orderData_distances_witness :
  (1 <= 3 <= 1000)%nat
  /\ stop_loss session_3_pips = whole_pips 3
  /\ stopLossOnFill_distance (orderData session_3_pips BUY)
     = (stop_loss session_3_pips / 10000)%float
  /\ Js.le (round_trip_error
              (stopLossOnFill_distance (orderData session_3_pips BUY))
              (stop_loss session_3_pips)) 1e-12 = true.
Proof.
  assert (Hn : (1 <= 3 <= 1000)%nat) by lia.
  assert (Hp : stop_loss session_3_pips = whole_pips 3) by reflexivity.
  destruct (orderData_distances session_3_pips BUY) as ([Hsl _] & Hclose & _).
  split; [exact Hn|]. split; [exact Hp|]. split; [exact Hsl|].
  exact (proj1 (Hclose 3%nat Hn) Hp).
Defined.

(** C10 as stated fails: 3 pips become the distance 0.0003, and
    0.0003 * 10000 is 2.9999999999999996 in binary64. *)
Lemma three_pips_do_not_round_trip :
  (stopLossOnFill_distance (orderData session_3_pips BUY)
   = stop_loss session_3_pips / 10000)%float
  /\ PrimFloat.eqb
       (stopLossOnFill_distance (orderData session_3_pips BUY) * 10000)
       (stop_loss session_3_pips) = false
  /\ (stopLossOnFill_distance (orderData session_3_pips BUY) * 10000)%float
     <> stop_loss session_3_pips.
Proof.
  split; [reflexivity|]. split; [reflexivity|].
  intros H.
  assert (Hb : PrimFloat.eqb
                 (stopLossOnFill_distance (orderData session_3_pips BUY)
                  * 10000) (stop_loss session_3_pips) = false)
    by reflexivity.
  rewrite H in Hb. vm_compute in Hb. discriminate Hb.
Qed.

(** ** The sample series *)

Lemma setitem_middle :
  forall acc x rest v,
    Lightweight.setitem (acc ++ x :: rest) (length acc) v = acc ++ v :: rest.
Proof.
  intros acc x rest v. unfold Lightweight.setitem.
  induction acc as [|a acc IH]; simpl; [reflexivity|].
  f_equal. exact IH.
Qed.

Lemma getitem_middle :
  forall pre d rest, Lightweight.getitem (pre ++ d :: rest) (length pre) = d.
Proof.
  intros pre d rest. unfold Lightweight.getitem.
  rewrite app_nth2 by lia. now rewrite Nat.sub_diag.
Qed.

Lemma getitem_last :
  forall acc prev rest,
    Lightweight.getitem ((acc ++ [prev]) ++ rest) (length acc) = prev.
Proof.
  intros acc prev rest. rewrite <- app_assoc. apply getitem_middle.
Qed.

(** The loop of [TechnicalAnalysis.ema] over samples that are not NaN
    fills the rest of [result] with the recurrence. *)
Lemma python_ema_loop_smooth :
  forall rest pre acc prev m,
    no_nan rest = true ->
    length pre = S (length acc) ->
    Js.for_loop (length rest) (length pre)
      (Lightweight.ema_step (pre ++ rest) m)
      ((acc ++ [prev]) ++ repeat PrimFloat.nan (length rest))
    = (acc ++ [prev]) ++ smooth m prev rest.
Proof.
  induction rest as [|d r IH]; intros pre acc prev m Hnan Hlen; simpl.
  - reflexivity.
  - simpl in Hnan. apply andb_prop in Hnan. destruct Hnan as [Hd Hr].
    assert (Hi : length pre = length (acc ++ [prev]))
      by (rewrite length_app; simpl; lia).
    assert (Hstep :
      Lightweight.ema_step (pre ++ d :: r) m (length pre)
        ((acc ++ [prev]) ++ PrimFloat.nan :: repeat PrimFloat.nan (length r))
      = (acc ++ [prev]) ++ (d * m + prev * (1 - m))%float
                           :: repeat PrimFloat.nan (length r)).
    { unfold Lightweight.ema_step.
      rewrite getitem_middle, Hd.
      replace (Lightweight.getitem
                 ((acc ++ [prev]) ++ PrimFloat.nan
                                     :: repeat PrimFloat.nan (length r))
                 (length pre - 1)) with prev
        by (replace (length pre - 1)%nat with (length acc) by lia;
            symmetry; apply getitem_last).
      rewrite Hi. apply setitem_middle. }
    rewrite Hstep.
    replace (pre ++ d :: r) with ((pre ++ [d]) ++ r)
      by (now rewrite <- app_assoc).
    replace ((acc ++ [prev]) ++ (d * m + prev * (1 - m))%float
                                :: repeat PrimFloat.nan (length r))
      with (((acc ++ [prev]) ++ [(d * m + prev * (1 - m))%float])
            ++ repeat PrimFloat.nan (length r))
      by (now rewrite <- !app_assoc).
    replace (S (length pre)) with (length (pre ++ [d]))
      by (rewrite length_app; simpl; lia).
    rewrite (IH (pre ++ [d]) (acc ++ [prev])
               (d * m + prev * (1 - m))%float m Hr).
    + now rewrite <- !app_assoc.
    + rewrite !length_app. simpl. lia.
Qed.

Lemma python_ema_recurrence :
  forall data period,
    data <> [] ->
    no_nan data = true ->
    Js.le period 0 = false ->
    Lightweight.ema data period = ema_recurrence data period.
Proof.
  intros [|d0 rest] period Hne Hnan Hpos; [contradiction|].
  unfold Lightweight.ema, ema_recurrence. rewrite Hpos.
  simpl in Hnan. apply andb_prop in Hnan. destruct Hnan as [Hd Hr].
  apply negb_true_iff in Hd.
  cbn [orb Lightweight.skip_nan]. rewrite Hd.
  replace (length (d0 :: rest) <=? 0)%nat with false by reflexivity.
  cbn [length repeat Nat.add Nat.sub].
  change (Lightweight.setitem
            (PrimFloat.nan :: repeat PrimFloat.nan (length rest)) 0
            (Lightweight.getitem (d0 :: rest) 0))
    with (([] ++ [d0]) ++ repeat PrimFloat.nan (length rest)).
  change (d0 :: rest) with ([d0] ++ rest).
  replace (length rest - 0)%nat with (length rest) by lia.
  change 1%nat with (length [d0]).
  rewrite (python_ema_loop_smooth rest [d0] [] d0 _ Hr eq_refl).
  reflexivity.
Qed.

(** C9 (amended). On a non-empty series [calculateEMA] is the
    smoothing recurrence with multiplier [2 / (period + 1)] seeded at
    the first sample, and so is [TechnicalAnalysis.ema] for a positive
    period on a series without NaN; for the sample series and period 2
    both give 1.10, 1.1067, 1.1156, 1.0985, 1.0862 within 1e-3 at every
    index. *)
Theorem ema_is_the_recurrence :
  forall data period,
    data <> [] ->
    calculateEMA data period = map Some (ema_recurrence data period)
    /\ (no_nan data = true -> Js.le period 0 = false ->
        Lightweight.ema data period = ema_recurrence data period)
    /\ within 1e-3 (numbers (calculateEMA sample_close 2))
         expected_by_recurrence = true
    /\ within 1e-3 (Lightweight.ema sample_close 2)
         expected_by_recurrence = true.
Proof.
  intros data period Hne. split.
  - destruct data as [|d0 rest]; [contradiction|].
    apply calculateEMA_nonempty.
  - split; [intros; now apply python_ema_recurrence|].
    split; vm_compute; reflexivity.
Qed.

Lemma ema_is_the_recurrence_witness :
  sample_close <> []
  /\ calculateEMA sample_close 2 = map Some (ema_recurrence sample_close 2)
  /\ Lightweight.ema sample_close 2 = ema_recurrence sample_close 2.
Proof.
  assert (Hne : sample_close <> []) by discriminate.
  destruct (ema_is_the_recurrence sample_close 2 Hne) as (Hjs & Hpy & _).
  split; [exact Hne|]. split; [exact Hjs|].
  exact (Hpy eq_refl eq_refl).
Defined.

(** C9 as stated fails at the last two indices: the recurrence gives
    1.0985 and 1.0862 where 1.1052 and 1.0968 are expected. *)
Lemma sample_series_not_as_expected :
  within 1e-3 (numbers (calculateEMA sample_close 2)) expected_in_spec
  = false
  /\ within 1e-3 (Lightweight.ema sample_close 2) expected_in_spec = false
  /\ Js.le (PrimFloat.abs
              (Js.to_number (Js.get (calculateEMA sample_close 2) 3) - 1.1052))
       1e-3 = false.
Proof. repeat split; vm_compute; reflexivity. Qed.

(** ** The sandbox wrapper *)

Lemma fallback_sized :
  forall n error, sized_with_error n (PythonExecutor.fallback n error).
Proof.
  intros n error. unfold sized_with_error; simpl.
  rewrite !repeat_length. repeat split. now exists error.
Qed.

(** [runPython] on the first script never gives a value: the script is
    a statement, so what comes back is [undefined], unless something
    is thrown. *)
Lemma check_gives_no_value :
  forall py value,
    PythonExecutor.runPython (PythonExecutor.check_script py)
    = PythonExecutor.Returned value ->
    PythonExecutor.js_not value = true.
Proof.
  intros py value. unfold PythonExecutor.runPython, PythonExecutor.check_script.
  cbn [PythonExecutor.escapes PythonExecutor.last_expression].
  destruct (PythonExecutor.check_escapes py); [discriminate|].
  intros H. injection H as <-. reflexivity.
Qed.

Ltac own_fallback :=
  eexists; split; [reflexivity | cbn; discriminate].

(** Every run of [executeStrategy] ends with the wrapper's own fallback
    object for the length of [close], under one of the wrapper's own
    error texts: the second script is never reached, because the check
    before it never sees a value. *)
Lemma executeStrategy_cases :
  forall py code marketData,
    exists error,
      PythonExecutor.executeStrategy py code marketData
      = PythonExecutor.Returned
          (PythonExecutor.fallback
             (PythonExecutor.close_length marketData) error)
      /\ error <> ""%string.
Proof.
  intros py code [o h l c v].
  unfold PythonExecutor.executeStrategy, PythonExecutor.executeStrategy_body,
    PythonExecutor.close_length, PythonExecutor.array_from; simpl.
  destruct c as [[|c0 cs]|]; [own_fallback| |own_fallback].
  destruct (PythonExecutor.initialize py); [|own_fallback|own_fallback].
  destruct o as [o|]; [|own_fallback].
  destruct h as [h|]; [|own_fallback].
  destruct l as [l|]; [|own_fallback].
  destruct v as [v|]; [|own_fallback]. simpl.
  destruct (PrimFloat.is_nan c0 || existsb PrimFloat.is_nan cs);
    [own_fallback|].
  destruct (PythonExecutor.globals_set py); [own_fallback|].
  destruct (PythonExecutor.runPython (PythonExecutor.check_script py))
    as [value|x] eqn:Hcheck; [|own_fallback].
  rewrite (check_gives_no_value py value Hcheck). own_fallback.
Qed.



(** ** The lightweight [execute_strategy] *)

Lemma lightweight_error_result :
  forall d close_prices text,
    Py.lookup "close" d = Some (Py.VList close_prices) ->
    Lightweight.error_result (Py.VDict d) text
    = Py.Value (PythonExecutor.fallback (length close_prices) text).
Proof.
  intros d cp text H. unfold Lightweight.error_result, Lightweight.data_length,
    Py.get. rewrite H. reflexivity.
Qed.




(** * Further properties of the executor *)

(** ** The trace of one pipeline *)

Lemma writes_outcome :
  forall (A : Type) (m : M A) o dl dc dr,
    writes m o dl dc dr -> fst (m empty_world) = o.
Proof. intros A m o dl dc dr H. now rewrite H. Qed.

Lemma writes_issued :
  forall (A : Type) (m : M A) o dl dc dr w,
    writes m o dl dc dr ->
    fst (m w) = o /\ issued w (snd (m w)) = dr
    /\ recorded w (snd (m w)) = dl
    /\ trading_sessions (snd (m w)) = trading_sessions w.
Proof.
  intros A m o dl dc dr w H. rewrite H. unfold issued, recorded; simpl.
  rewrite !skipn_app, !skipn_all, !Nat.sub_diag. simpl. repeat split.
Qed.

Lemma writes_then :
  forall (A B : Type) (m : M A) (k : A -> M B) a dl dc dr o dl' dc' dr'
         dl0 dc0 dr0,
    writes m (Returned a) dl dc dr ->
    writes (k a) o dl' dc' dr' ->
    dl0 = dl ++ dl' -> dc0 = dc ++ dc' -> dr0 = dr ++ dr' ->
    writes (bind m k) o dl0 dc0 dr0.
Proof.
  intros; subst. eapply writes_bind_returned; eassumption.
Qed.

Lemma writes_caught :
  forall (A : Type) (m : M A) h e dl dc dr o dl' dc' dr' dl0 dc0 dr0,
    writes m (Thrown e) dl dc dr ->
    writes (h e) o dl' dc' dr' ->
    dl0 = dl ++ dl' -> dc0 = dc ++ dc' -> dr0 = dr ++ dr' ->
    writes (try_catch m h) o dl0 dc0 dr0.
Proof.
  intros; subst. eapply writes_try_thrown; eassumption.
Qed.

Ltac step_writes :=
  first
    [ apply writes_ret
    | apply writes_throw
    | apply writes_console_write
    | apply writes_send
    | apply writes_append_log
    | eapply writes_then; [step_writes | step_writes | reflexivity ..] ].

Lemma writes_logTradingActivity :
  forall env session activity,
    writes (logTradingActivity env session activity) (Returned tt)
      (rows_gained env (log_entry session activity))
      [log_line env session (log_entry session activity)]
      [InsertLog (log_entry session activity)].
Proof.
  intros env session activity.
  unfold logTradingActivity, rows_gained, log_line.
  fold (log_entry session activity).
  destruct (insert_reply env (log_entry session activity));
    (eapply writes_then;
     [apply writes_send | step_writes | reflexivity ..]).
Qed.

Lemma writes_fetchOANDAMarketData :
  forall env s,
    writes (fetchOANDAMarketData env s) (fetched env s) [] []
      [candles_request s].
Proof.
  intros env s.
  assert (H : exists o, writes (fetchOANDAMarketData env s) o [] []
                          [candles_request s]).
  { unfold fetchOANDAMarketData.
    destruct (candles_reply env s) as [e|status text [e|cs]];
      [| destruct (negb (response_ok status)) ..]; eexists; step_writes. }
  destruct H as [o H]. unfold fetched.
  now rewrite (writes_outcome _ _ _ _ _ _ H).
Qed.

Lemma writes_executeOANDATrade :
  forall env s d,
    writes (executeOANDATrade env s d) (submitted env s d) [] []
      [order_request s d].
Proof.
  intros env s d.
  assert (H : exists o, writes (executeOANDATrade env s d) o [] []
                          [order_request s d]).
  { unfold executeOANDATrade.
    destruct (order_reply env s (orderData s d) 0%nat)
      as [e|status text [e|v]];
      [| destruct (negb (response_ok status)) ..]; eexists; step_writes. }
  destruct H as [o H]. unfold submitted.
  now rewrite (writes_outcome _ _ _ _ _ _ H).
Qed.

Ltac compose_writes :=
  first
    [ eassumption
    | apply writes_logTradingActivity
    | apply writes_ret
    | apply writes_throw
    | apply writes_console_write
    | apply writes_send
    | apply writes_append_log
    | eapply writes_then; [compose_writes | compose_writes | reflexivity ..]
    | eapply writes_try_returned; compose_writes
    | eapply writes_caught; [compose_writes | compose_writes | reflexivity ..]
    | eapply writes_bind_thrown; compose_writes ].

Ltac through_fetch Hf Hlen He Hd :=
  eapply writes_then; [apply writes_console_write | | reflexivity ..];
  (eapply writes_try_returned + eapply writes_caught);
  [ eapply writes_then; [exact Hf | | reflexivity ..];
    cbv beta; rewrite ?Hlen, ?He, ?Hd; unfold no_signal; compose_writes
  | .. ];
  try compose_writes; try reflexivity.

Lemma pipeline_trace :
  forall env marketStatus s,
    exists o dl dc dr e,
      writes (processTradinSession env marketStatus s) o dl dc dr
      /\ pipeline_case env marketStatus s o dr e
      /\ session_id e = id s
      /\ dl = rows_gained env e.
Proof.
  intros env ms s. unfold processTradinSession, pipeline_case.
  destruct (shouldExecuteTrade ms s) eqn:Hgo; cbn [negb].
  - pose proof (writes_fetchOANDAMarketData env s) as Hf.
    destruct (fetched env s) as [md|err] eqn:Hfetched.
    + pose (signals := executeStrategyLogic (strategy_code s) md
                         (reverse_signals s)).
      assert (Hsig : session_signal s md = latest_signal signals)
        by reflexivity.
      unfold latest_signal in Hsig.
      destruct (0 <? length (entry signals))%nat eqn:Hlen;
        [destruct (Js.index (entry signals) (length (entry signals) - 1))
           as [[|]|] eqn:He;
         [destruct (Js.index (direction signals)
                      (length (direction signals) - 1))
            as [[d|]|] eqn:Hd | ..] |];
        unfold signals in Hlen; try unfold signals in He;
        try unfold signals in Hd.
      * pose proof (writes_executeOANDATrade env s d) as Ht.
        destruct (submitted env s d) as [json|err] eqn:Hsub.
        -- do 5 eexists. split; [through_fetch Hf Hlen He Hd|]. split.
           ++ do 3 right. split; [reflexivity|]. exists md, d.
              repeat split; try assumption. left. exists json.
              eexists. repeat split; assumption.
           ++ split; [reflexivity|]. simpl. rewrite ?app_nil_r. reflexivity.
        -- do 5 eexists. split; [through_fetch Hf Hlen He Hd|]. split.
           ++ do 3 right. split; [reflexivity|]. exists md, d.
              repeat split; try assumption. right. exists err.
              repeat split; assumption.
           ++ split; [reflexivity|]. simpl. rewrite ?app_nil_r. reflexivity.
      * do 5 eexists. split; [through_fetch Hf Hlen He Hd|]. split.
        -- right. right. left. split; [reflexivity|]. exists md.
           repeat split; try assumption. eexists. split; reflexivity.
        -- split; [reflexivity|]. simpl. rewrite ?app_nil_r. reflexivity.
      * do 5 eexists. split; [through_fetch Hf Hlen He Hd|]. split.
        -- right. right. left. split; [reflexivity|]. exists md.
           repeat split; try assumption. eexists. split; reflexivity.
        -- split; [reflexivity|]. simpl. rewrite ?app_nil_r. reflexivity.
      * do 5 eexists. split; [through_fetch Hf Hlen He Hd|]. split.
        -- right. right. left. split; [reflexivity|]. exists md.
           repeat split; try assumption. eexists. split; reflexivity.
        -- split; [reflexivity|]. simpl. rewrite ?app_nil_r. reflexivity.
      * do 5 eexists. split; [through_fetch Hf Hlen He Hd|]. split.
        -- right. right. left. split; [reflexivity|]. exists md.
           repeat split; try assumption. eexists. split; reflexivity.
        -- split; [reflexivity|]. simpl. rewrite ?app_nil_r. reflexivity.
      * do 5 eexists. split; [through_fetch Hf Hlen He Hd|]. split.
        -- right. right. left. split; [reflexivity|]. exists md.
           repeat split; try assumption. eexists. split; reflexivity.
        -- split; [reflexivity|]. simpl. rewrite ?app_nil_r. reflexivity.
    + do 5 eexists. split; [compose_writes|]. split.
      * right. left. split; [reflexivity|]. exists err. repeat split.
      * split; [reflexivity|]. simpl. rewrite ?app_nil_r. reflexivity.
  - do 5 eexists. split; [compose_writes|]. split.
    + left. split; [reflexivity|]. repeat split. eexists. split; reflexivity.
    + split; [reflexivity|]. simpl. rewrite ?app_nil_r. reflexivity.
Qed.

Lemma pipeline_run :
  forall env marketStatus s w,
    exists e,
      pipeline_case env marketStatus s
        (fst (processTradinSession env marketStatus s w))
        (issued w (snd (processTradinSession env marketStatus s w))) e
      /\ session_id e = id s
      /\ recorded w (snd (processTradinSession env marketStatus s w))
         = rows_gained env e
      /\ trading_sessions (snd (processTradinSession env marketStatus s w))
         = trading_sessions w.
Proof.
  intros env ms s w.
  destruct (pipeline_trace env ms s) as (o & dl & dc & dr & e & Hw & Hc & Hid & Hdl).
  destruct (writes_issued _ _ _ _ _ _ w Hw) as (Ho & Hi & Hr & Hs).
  exists e. rewrite Ho, Hi, Hr, Hs. subst dl. repeat split; assumption.
Qed.

(** X1. One pipeline issues at most one candle request and at most one
    order, in that order, and then exactly one audit insert, for its own
    session; the row enters [trading_logs] exactly when the database
    accepts the insert, and the pipeline leaves [trading_sessions]
    alone. *)
Theorem pipeline_requests_then_one_audit_insert :
  forall env marketStatus s w,
    let run := processTradinSession env marketStatus s w in
    exists e,
      pipeline_requests s e (issued w (snd run))
      /\ session_id e = id s
      /\ recorded w (snd run)
         = match insert_reply env e with DbOk => [e] | _ => [] end
      /\ trading_sessions (snd run) = trading_sessions w.
Proof.
  intros env ms s w run. subst run.
  destruct (pipeline_run env ms s w) as (e & Hc & Hid & Hr & Hs).
  exists e. repeat split; try assumption.
  unfold pipeline_requests.
  destruct Hc as [(_ & Hdr & _)|[(_ & err & _ & _ & Hdr & _)
                 |[(_ & md & _ & _ & Hdr & _)|(_ & md & d & _ & _ & Hdr & _)]]];
    rewrite Hdr; eauto.
Qed.

(** X2. A session that is not to trade now (market closed, or a
    low-volume hour for a session that avoids low volume) is skipped:
    the pipeline resolves to SKIPPED_MARKET_CONDITIONS, sends nothing to
    the brokerage, and its only request is the audit insert of an
    [info] entry with that action. *)
Theorem skipped_session_contacts_no_broker :
  forall env marketStatus s w,
    isOpen marketStatus = false
    \/ (volume marketStatus = low /\ avoid_low_volume s = true) ->
    let run := processTradinSession env marketStatus s w in
    (exists r, fst run = Returned r
               /\ action r = SKIPPED_MARKET_CONDITIONS
               /\ r_reason r = Some (formatMarketStatus marketStatus))
    /\ exists e,
         issued w (snd run) = [InsertLog e]
         /\ session_id e = id s /\ log_type e = info
         /\ a_action (trade_data e) = Some SKIPPED_MARKET_CONDITIONS.
Proof.
  intros env ms s w Hwhy run. subst run.
  assert (Hgo : shouldExecuteTrade ms s = false).
  { unfold shouldExecuteTrade.
    destruct Hwhy as [H|[Hv Ha]]; [now rewrite H|].
    rewrite Hv, Ha. now destruct (isOpen ms). }
  unfold processTradinSession. rewrite Hgo. cbn [negb].
  match goal with
  | |- context [bind ?m ?k w] =>
      assert (Hw : exists dl dc,
                 writes (bind m k)
                   (Returned
                      {| sessionId := id s; r_symbol := symbol s;
                         action := SKIPPED_MARKET_CONDITIONS;
                         r_direction := None; r_tradeResult := None;
                         r_reason := Some (formatMarketStatus ms);
                         r_marketStatus := None;
                         r_timestamp := Some (iso_now env) |})
                   dl dc
                   [InsertLog
                      (log_entry s
                         {| logType := info;
                            a_message :=
                              ("Skipped execution due to market conditions: "
                               ++ formatMarketStatus ms)%string;
                            a_action := Some SKIPPED_MARKET_CONDITIONS;
                            a_signal := None; a_direction := None;
                            a_tradeResult := None; a_marketStatus := None;
                            a_error := None;
                            a_timestamp := iso_now env |})])
        by (do 2 eexists; compose_writes)
  end.
  destruct Hw as (dl & dc & Hw).
  destruct (writes_issued _ _ _ _ _ _ w Hw) as (Ho & Hi & _ & _).
  rewrite Ho, Hi. split.
  - eexists. repeat split.
  - eexists. repeat split.
Qed.

Lemma skipped_session_contacts_no_broker_witness :
  (isOpen (getMarketStatus (now env_evening)) = false
   \/ (volume (getMarketStatus (now env_evening)) = low
       /\ avoid_low_volume session_cautious = true))
  /\ exists e,
       issued empty_world
         (snd (processTradinSession env_evening
                 (getMarketStatus (now env_evening)) session_cautious
                 empty_world))
       = [InsertLog e].
Proof.
  assert (H : isOpen (getMarketStatus (now env_evening)) = false
              \/ (volume (getMarketStatus (now env_evening)) = low
                  /\ avoid_low_volume session_cautious = true))
    by (right; split; reflexivity).
  split; [exact H|].
  destruct (skipped_session_contacts_no_broker env_evening
              (getMarketStatus (now env_evening)) session_cautious
              empty_world H) as (_ & e & He & _).
  exists e. exact He.
Defined.

Ltac pipeline_cases Hc :=
  destruct Hc as [(Hgo' & Hdr & Hty & Hact & r & Ho & Hr)
                 |[(Hgo' & err' & Hfe & Ho & Hdr & Hty & Herr)
                 |[(Hgo' & md' & Hfe & Hsig' & Hdr & Hty & r & Ho & Hr)
                  |(Hgo' & md' & d' & Hfe & Hsig' & Hdr
                    & [(json & r & Hsub & Ho & Hr & Hrd & Hrt & Hty)
                      |(err' & Hsub & Ho & Hty & Herr)])]]];
  try congruence.

(** X3. When the candles arrive, whether an order is sent is decided by
    the last bar alone: the pipeline submits one order, for the
    direction of the last bar, when that bar has an entry with a
    direction, and submits none otherwise, resolving to NO_SIGNAL. *)
Theorem order_follows_last_bar :
  forall env marketStatus s w marketData,
    shouldExecuteTrade marketStatus s = true ->
    fetched env s = Returned marketData ->
    let run := processTradinSession env marketStatus s w in
    filter is_order (issued w (snd run))
    = match session_signal s marketData with
      | Some d => [order_request s d]
      | None => []
      end
    /\ (session_signal s marketData = None ->
        exists r, fst run = Returned r /\ action r = NO_SIGNAL).
Proof.
  intros env ms s w md Hgo Hfetched run. subst run.
  destruct (pipeline_run env ms s w) as (e & Hc & _).
  pipeline_cases Hc.
  - assert (md' = md) by congruence. subst md'.
    rewrite Hdr, Hsig'. split; [reflexivity|]. intros _. now exists r.
  - assert (md' = md) by congruence. subst md'.
    rewrite Hdr, Hsig'. split; [reflexivity|]. discriminate.
  - assert (md' = md) by congruence. subst md'.
    rewrite Hdr, Hsig'. split; [reflexivity|]. discriminate.
Qed.

Lemma order_follows_last_bar_witness :
  shouldExecuteTrade (getMarketStatus (now env_crossing)) session_a = true
  /\ filter is_order
       (issued empty_world
          (snd (processTradinSession env_crossing
                  (getMarketStatus (now env_crossing)) session_a
                  empty_world)))
     = [order_request session_a BUY].
Proof.
  split; [reflexivity|].
  assert (Hf : exists md, fetched env_crossing session_a = Returned md
                          /\ session_signal session_a md = Some BUY).
  { eexists. split; [reflexivity|]. vm_compute. reflexivity. }
  destruct Hf as (md & Hf & Hsig).
  pose proof (proj1 (order_follows_last_bar env_crossing
                       (getMarketStatus (now env_crossing)) session_a
                       empty_world md eq_refl Hf)) as H.
  rewrite Hsig in H. exact H.
Defined.

(** X4. With a signal on the last bar, the pipeline's outcome is that
    of the order submission: TRADE_EXECUTED with the direction and the
    brokerage's answer and a [trade] audit entry when the order is
    accepted; the submission's error, thrown again after an [error]
    audit entry carrying its message, when it is not. *)
Theorem pipeline_outcome_is_the_submission :
  forall env marketStatus s w marketData d,
    shouldExecuteTrade marketStatus s = true ->
    fetched env s = Returned marketData ->
    session_signal s marketData = Some d ->
    let run := processTradinSession env marketStatus s w in
    exists e,
      issued w (snd run)
      = [candles_request s; order_request s d; InsertLog e]
      /\ match submitted env s d with
         | Returned json =>
             log_type e = trade
             /\ exists r, fst run = Returned r /\ action r = TRADE_EXECUTED
                          /\ r_direction r = Some d
                          /\ r_tradeResult r = Some json
         | Thrown err =>
             fst run = Thrown err /\ log_type e = TradingExecutor.error
             /\ a_error (trade_data e) = Some (message err)
         end.
Proof.
  intros env ms s w md d Hgo Hfetched Hsig run. subst run.
  destruct (pipeline_run env ms s w) as (e & Hc & _).
  pipeline_cases Hc; assert (md' = md) by congruence; subst md';
    assert (d' = d) by congruence; subst d'; exists e; rewrite Hsub.
  - split; [exact Hdr|]. split; [exact Hty|]. now exists r.
  - split; [exact Hdr|]. repeat split; assumption.
Qed.

Lemma pipeline_outcome_is_the_submission_witness :
  shouldExecuteTrade (getMarketStatus (now env_crossing)) session_a = true
  /\ exists e,
       issued empty_world
         (snd (processTradinSession env_crossing
                 (getMarketStatus (now env_crossing)) session_a empty_world))
       = [candles_request session_a; order_request session_a BUY;
          InsertLog e].
Proof.
  split; [reflexivity|].
  assert (Hf : exists md, fetched env_crossing session_a = Returned md
                          /\ session_signal session_a md = Some BUY).
  { eexists. split; [reflexivity|]. vm_compute. reflexivity. }
  destruct Hf as (md & Hf & Hsig).
  destruct (pipeline_outcome_is_the_submission env_crossing
              (getMarketStatus (now env_crossing)) session_a empty_world
              md BUY eq_refl Hf Hsig) as (e & He & _).
  exists e. exact He.
Defined.

(** X5. A candle request that fails (network error, status outside
    200..299, unreadable body) ends the pipeline: no order is sent, an
    [error] audit entry carrying the error's message is requested, and
    the same error is thrown on. *)
Theorem failed_fetch_is_logged_and_rethrown :
  forall env marketStatus s w err,
    shouldExecuteTrade marketStatus s = true ->
    fetched env s = Thrown err ->
    let run := processTradinSession env marketStatus s w in
    fst run = Thrown err
    /\ exists e,
         issued w (snd run) = [candles_request s; InsertLog e]
         /\ session_id e = id s
         /\ log_type e = TradingExecutor.error
         /\ a_error (trade_data e) = Some (message err).
Proof.
  intros env ms s w err Hgo Hfetched run. subst run.
  destruct (pipeline_run env ms s w) as (e & Hc & Hid & _).
  pipeline_cases Hc.
  assert (err' = err) by congruence. subst err'.
  split; [exact Ho|]. exists e. repeat split; assumption.
Qed.

Lemma failed_fetch_is_logged_and_rethrown_witness :
  shouldExecuteTrade (getMarketStatus (now env_one_fails)) session_a = true
  /\ fst (processTradinSession env_one_fails
            (getMarketStatus (now env_one_fails)) session_a empty_world)
     = Thrown {| message := "fetch failed" |}.
Proof.
  split; [reflexivity|].
  exact (proj1 (failed_fetch_is_logged_and_rethrown env_one_fails
                  (getMarketStatus (now env_one_fails)) session_a
                  empty_world {| message := "fetch failed" |}
                  eq_refl eq_refl)).
Defined.

(** ** The crossover arrays *)

Lemma bar_entry_has_direction :
  forall ema21 ema55 reverseSignals i,
    fst (bar ema21 ema55 reverseSignals i)
    = has_direction (snd (bar ema21 ema55 reverseSignals i)).
Proof.
  intros ema21 ema55 r i. unfold bar.
  destruct (i <? 55)%nat; [reflexivity|].
  destruct r, (bullish_at ema21 ema55 i), (bearish_at ema21 ema55 i);
    reflexivity.
Qed.

Lemma bar_before_55 :
  forall ema21 ema55 reverseSignals i,
    (i < 55)%nat -> bar ema21 ema55 reverseSignals i = (false, None).
Proof.
  intros ema21 ema55 r i H. unfold bar.
  now replace (i <? 55)%nat with true by (symmetry; now apply Nat.ltb_lt).
Qed.

Lemma map_constant :
  forall (A B : Type) (f : A -> B) (b : B) l,
    (forall a, In a l -> f a = b) -> map f l = repeat b (length l).
Proof.
  intros A B f b l. induction l as [|a l IH]; intros H; simpl.
  - reflexivity.
  - rewrite (H a (or_introl eq_refl)), IH; [reflexivity|].
    intros a' Ha'. apply H. now right.
Qed.

Lemma firstn_seq_min :
  forall k a n, firstn k (seq a n) = seq a (Nat.min k n).
Proof.
  induction k as [|k IH]; intros a [|n]; simpl; try reflexivity.
  now rewrite IH.
Qed.

Lemma first_bars_are_empty :
  forall ema21 ema55 reverseSignals n,
    firstn 55 (map (bar ema21 ema55 reverseSignals) (seq 0 n))
    = repeat (false, None) (Nat.min 55 n).
Proof.
  intros ema21 ema55 r n.
  rewrite firstn_map, firstn_seq_min, (map_constant _ _ _ (false, None)).
  - now rewrite length_seq.
  - intros i Hi. apply in_seq in Hi. apply bar_before_55. lia.
Qed.

(** X6. The three arrays of [executeStrategyLogic] are aligned with the
    close series: each has its length; [exit] is false everywhere; the
    first 55 bars carry no entry and no direction; and on every bar
    [entry] is true exactly when [direction] is not null. *)
Theorem strategy_arrays_are_aligned :
  forall code marketData reverseSignals,
    let n := length (md_close marketData) in
    let signals := executeStrategyLogic code marketData reverseSignals in
    length (entry signals) = n
    /\ length (direction signals) = n
    /\ exit signals = repeat false n
    /\ firstn 55 (entry signals) = repeat false (Nat.min 55 n)
    /\ firstn 55 (direction signals) = repeat None (Nat.min 55 n)
    /\ entry signals = map has_direction (direction signals).
Proof.
  intros code md r n signals. subst signals.
  rewrite executeStrategyLogic_crossover. unfold crossover.
  cbn [entry exit direction].
  fold n. rewrite !length_map, !length_seq.
  split; [reflexivity|]. split; [reflexivity|]. split.
  - rewrite (map_constant _ _ _ false); [|reflexivity].
    now rewrite length_map, length_seq.
  - split; [|split].
    + rewrite firstn_map, first_bars_are_empty, map_repeat. reflexivity.
    + rewrite firstn_map, first_bars_are_empty, map_repeat. reflexivity.
    + rewrite !map_map. apply map_ext. intros i.
      apply bar_entry_has_direction.
Qed.

(** ** Candles *)

Lemma volume_or_default_usable :
  forall v, usable_volume (volume_or_default v) = true.
Proof.
  intros v. unfold volume_or_default, usable_volume.
  destruct (PrimFloat.is_nan v || PrimFloat.eqb v 0) eqn:H.
  - reflexivity.
  - apply orb_false_elim in H. destruct H as [-> ->]. reflexivity.
Qed.

Lemma volume_or_default_cases :
  forall v,
    volume_or_default v = if usable_volume v then v else 1000%float.
Proof.
  intros v. unfold volume_or_default, usable_volume.
  destruct (PrimFloat.is_nan v); [reflexivity|].
  destruct (PrimFloat.eqb v 0); reflexivity.
Qed.

(** X7. Market data that [fetchOANDAMarketData] returns comes from a
    response with a status in 200..299 and a readable candle list.  Its
    [open], [high], [low] and [close] are the candles' own prices, each
    in the candles' order; its [volume] is, candle by candle, the
    candle's volume when that is a number other than zero and 1000
    otherwise, so no volume in it is zero or NaN; and all five arrays
    have the length of the candle list. *)
Theorem fetched_market_data_is_aligned :
  forall env s marketData,
    fetched env s = Returned marketData ->
    exists status statusText candles,
      candles_reply env s = FetchResponse status statusText (inr candles)
      /\ response_ok status = true
      /\ md_open marketData = map mid_o candles
      /\ md_high marketData = map mid_h candles
      /\ md_low marketData = map mid_l candles
      /\ md_close marketData = map mid_c candles
      /\ md_volume marketData
         = map (fun c => if usable_volume (c_volume c)
                         then c_volume c else 1000%float) candles
      /\ forallb usable_volume (md_volume marketData) = true
      /\ length (md_open marketData) = length candles
      /\ length (md_high marketData) = length candles
      /\ length (md_low marketData) = length candles
      /\ length (md_close marketData) = length candles
      /\ length (md_volume marketData) = length candles.
Proof.
  intros env s md. unfold fetched, fetchOANDAMarketData, bind, send, throw, ret.
  simpl.
  destruct (candles_reply env s) as [e|status text [e|cs]]; simpl;
    try discriminate;
    destruct (response_ok status) eqn:Hok; simpl; try discriminate.
  intros H. injection H as <-. simpl. rewrite !length_map.
  exists status, text, cs.
  split; [reflexivity|]. split; [exact Hok|].
  do 4 (split; [reflexivity|]). split; [|split; [|repeat split]].
  - apply map_ext. intros c. apply volume_or_default_cases.
  - apply forallb_forall. intros v Hv.
    apply in_map_iff in Hv. destruct Hv as (c & <- & _).
    apply volume_or_default_usable.
Qed.

Lemma fetched_market_data_is_aligned_witness :
  let marketData :=
    {| md_open := [1.1; 1.1; 1.1]%float; md_high := [1.1; 1.1; 1.1]%float;
       md_low := [1.1; 1.1; 1.1]%float; md_close := [1.1; 1.1; 1.1]%float;
       md_volume := [10; 10; 10]%float |} in
  fetched env_one_fails session_b = Returned marketData
  /\ exists status statusText candles,
       candles_reply env_one_fails session_b
       = FetchResponse status statusText (inr candles)
       /\ md_high marketData = map mid_h candles.
Proof.
  intros marketData.
  assert (H : fetched env_one_fails session_b = Returned marketData)
    by reflexivity.
  split; [exact H|].
  destruct (fetched_market_data_is_aligned env_one_fails session_b _ H)
    as (status & text & candles & Hreply & _ & _ & Hhigh & _).
  exists status, text, candles. split; [exact Hreply|exact Hhigh].
Defined.

Lemma short_series_gives_no_signal :
  forall s marketData,
    (length (md_close marketData) <= 55)%nat ->
    session_signal s marketData = None.
Proof.
  intros s md Hn. unfold session_signal, latest_signal.
  rewrite executeStrategyLogic_crossover. unfold crossover.
  cbn [entry direction].
  set (n := length (md_close md)) in *.
  set (bars := map _ (seq 0 n)).
  assert (Hbars : bars = repeat (false, None) n).
  { rewrite <- (firstn_all2 (n := 55) bars)
      by (subst bars; now rewrite length_map, length_seq).
    subst bars. rewrite first_bars_are_empty. f_equal. lia. }
  rewrite Hbars, !map_repeat, !repeat_length. cbn [fst snd].
  destruct (0 <? n)%nat eqn:Hpos; [|reflexivity].
  apply Nat.ltb_lt in Hpos. unfold Js.index.
  rewrite (nth_error_repeat false) by lia. reflexivity.
Qed.

(** X8. A session whose candle request brings back 55 candles or fewer
    never trades: the pipeline resolves to NO_SIGNAL and sends no
    order. *)
Theorem fewer_than_56_candles_never_trade :
  forall env marketStatus s w status statusText candles,
    shouldExecuteTrade marketStatus s = true ->
    candles_reply env s = FetchResponse status statusText (inr candles) ->
    response_ok status = true ->
    (length candles <= 55)%nat ->
    let run := processTradinSession env marketStatus s w in
    filter is_order (issued w (snd run)) = []
    /\ exists r, fst run = Returned r /\ action r = NO_SIGNAL.
Proof.
  intros env ms s w status text cs Hgo Hreply Hok Hn run. subst run.
  assert (Hf : exists md, fetched env s = Returned md
                          /\ md_close md = map mid_c cs).
  { unfold fetched, fetchOANDAMarketData, bind, send, ret. simpl.
    rewrite Hreply, Hok. simpl. eexists. split; reflexivity. }
  destruct Hf as (md & Hf & Hclose).
  assert (Hsig : session_signal s md = None).
  { apply short_series_gives_no_signal. rewrite Hclose, length_map. exact Hn. }
  destruct (pipeline_run env ms s w) as (e & Hc & _).
  pipeline_cases Hc; assert (md' = md) by congruence; subst md';
    try congruence.
  rewrite Hdr. split; [reflexivity|]. now exists r.
Qed.

Lemma fewer_than_56_candles_never_trade_witness :
  shouldExecuteTrade (getMarketStatus (now env_one_fails)) session_b = true
  /\ filter is_order
       (issued empty_world
          (snd (processTradinSession env_one_fails
                  (getMarketStatus (now env_one_fails)) session_b
                  empty_world)))
     = [].
Proof.
  split; [reflexivity|].
  assert (Hn : (length [flat_candle; flat_candle; flat_candle] <= 55)%nat)
    by (simpl; lia).
  exact (proj1 (fewer_than_56_candles_never_trade env_one_fails
                  (getMarketStatus (now env_one_fails)) session_b empty_world
                  200 "OK" [flat_candle; flat_candle; flat_candle]
                  eq_refl eq_refl eq_refl Hn)).
Defined.

(** ** The whole tick *)

Lemma writes_alone :
  forall env marketStatus s,
    writes (processTradinSession env marketStatus s)
      (fst (processTradinSession env marketStatus s empty_world))
      (session_rows env marketStatus s)
      (session_lines env marketStatus s)
      (session_requests env marketStatus s).
Proof.
  intros env ms s.
  destruct (audited_processTradinSession env ms s)
    as (o & dl & dc & dr & Hw & _).
  unfold session_rows, session_lines, session_requests, alone.
  rewrite (Hw empty_world). exact Hw.
Qed.

Lemma alone_case :
  forall env marketStatus s,
    exists e,
      pipeline_case env marketStatus s
        (fst (processTradinSession env marketStatus s empty_world))
        (session_requests env marketStatus s) e
      /\ session_id e = id s
      /\ session_rows env marketStatus s = rows_gained env e.
Proof.
  intros env ms s.
  destruct (pipeline_run env ms s empty_world) as (e & Hc & Hid & Hr & _).
  exists e. repeat split; assumption.
Qed.

Lemma writes_allSettled :
  forall env marketStatus sessions,
    writes (allSettled (map (fun session =>
                               processTradinSession env marketStatus session)
                          sessions))
      (Returned (map (settle_alone env marketStatus) sessions))
      (flat_map (session_rows env marketStatus) sessions)
      (flat_map (session_lines env marketStatus) sessions)
      (flat_map (session_requests env marketStatus) sessions).
Proof.
  intros env ms sessions. induction sessions as [|s rest IH]; intros w.
  - simpl. now rewrite extend_nothing.
  - simpl. rewrite (writes_alone env ms s w). unfold bind. rewrite IH.
    unfold ret. rewrite extend_extend. reflexivity.
Qed.

Lemma set_last_execution_twice :
  forall r v, set_last_execution (set_last_execution r v) v
              = set_last_execution r v.
Proof. reflexivity. Qed.

Lemma stamp_nil : forall v rows, stamp [] v rows = rows.
Proof. intros v rows. unfold stamp. simpl. apply map_id. Qed.

Lemma stamp_cons :
  forall i ids v rows,
    stamp ids v (db_update_last_execution i v rows) = stamp (i :: ids) v rows.
Proof.
  intros i ids v rows. unfold stamp, db_update_last_execution.
  rewrite map_map. apply map_ext. intros r. simpl.
  destruct (String.eqb (id r) i); simpl.
  - now destruct (existsb _ ids).
  - reflexivity.
Qed.

Lemma update_loop :
  forall env sessions w,
    for_each (map (fun session => (id session, iso_now env)) sessions)
      (fun update =>
         bind (send (UpdateLastExecution (fst update) (snd update)))
           (fun _ =>
              match update_reply env (fst update) with
              | DbOk => write_sessions
                          (db_update_last_execution (fst update) (snd update))
              | DbError _ => ret tt
              | DbThrows e => throw e
              end)) w
    = (match update_failure env (map id sessions) with
       | Some e => Thrown e
       | None => Returned tt
       end,
       {| trading_sessions :=
            stamp (updated_ids env (map id sessions)) (iso_now env)
              (trading_sessions w);
          trading_logs := trading_logs w;
          console := console w;
          requests := requests w
                      ++ map (update_request env)
                           (update_attempts env (map id sessions)) |}).
Proof.
  intros env sessions. induction sessions as [|s rest IH]; intros w.
  - simpl. unfold ret. rewrite stamp_nil, app_nil_r. now destruct w.
  - simpl. unfold bind at 1. unfold bind at 1. unfold send at 1.
    cbv beta iota. cbn [fst snd].
    destruct (update_reply env (id s)) as [|e|e].
    + unfold write_sessions at 1. cbv beta iota. rewrite IH.
      cbn [trading_sessions trading_logs console requests].
      rewrite stamp_cons, <- app_assoc. reflexivity.
    + unfold ret at 1. cbv beta iota. rewrite IH.
      cbn [trading_sessions trading_logs console requests].
      rewrite <- app_assoc. reflexivity.
    + unfold throw. rewrite stamp_nil. reflexivity.
Qed.

Lemma updateSessionExecutionTimes_run :
  forall env sessions w,
    updateSessionExecutionTimes env sessions w
    = (Returned tt,
       {| trading_sessions :=
            stamp (updated_ids env (map id sessions)) (iso_now env)
              (trading_sessions w);
          trading_logs := trading_logs w;
          console := console w ++ [update_line env (map id sessions)];
          requests := requests w
                      ++ map (update_request env)
                           (update_attempts env (map id sessions)) |}).
Proof.
  intros env sessions w.
  unfold updateSessionExecutionTimes, try_catch. cbv zeta.
  unfold bind at 1. rewrite update_loop. unfold update_line.
  rewrite !length_map.
  destruct (update_failure env (map id sessions)); reflexivity.
Qed.

Lemma getActiveTradingSessions_run :
  forall env w,
    exists line,
      getActiveTradingSessions env w
      = (Returned (loaded env w),
         extend w [] [line] [SelectActiveSessions]).
Proof.
  intros env w. unfold getActiveTradingSessions, loaded, bind, send.
  cbv beta iota.
  destruct (select_reply env); eexists;
    unfold read_sessions, console_write, ret, extend; simpl;
    rewrite ?app_nil_r; reflexivity.
Qed.

(** The run of the handler with the market open: its answer and the
    world it leaves. *)
Lemma handler_open_run :
  forall env w,
    isOpen (getMarketStatus (now env)) = true ->
    let marketStatus := getMarketStatus (now env) in
    let sessions := loaded env w in
    let outcomes := map (settle_alone env marketStatus) sessions in
    exists dc,
      handler env w
      = (Returned
           {| statusCode := 200;
              body := match sessions with
                      | [] => NoActiveSessionsBody
                      | _ => CompletedBody (length sessions)
                               (count_fulfilled outcomes)
                               (count_rejected outcomes)
                               (formatMarketStatus marketStatus)
                               (iso_now env)
                      end |},
         {| trading_sessions :=
              stamp (updated_ids env (map id sessions)) (iso_now env)
                (trading_sessions w);
            trading_logs :=
              trading_logs w ++ flat_map (session_rows env marketStatus) sessions;
            console := console w ++ dc;
            requests :=
              requests w
              ++ SelectActiveSessions
                 :: flat_map (session_requests env marketStatus) sessions
                 ++ map (update_request env)
                      (update_attempts env (map id sessions)) |}).
Proof.
  intros env w Hopen ms sessions outcomes.
  unfold handler.
  unfold bind at 1. rewrite writes_console_write.
  unfold try_catch. unfold bind at 1. rewrite writes_console_write.
  cbv beta iota zeta. fold ms.
  replace (isOpen ms) with true by (symmetry; exact Hopen).
  change (negb true) with false. cbv beta iota.
  rewrite extend_extend.
  set (w1 := extend w _ _ _).
  destruct (getActiveTradingSessions_run env w1) as (line & Hget).
  assert (Hload : loaded env w1 = sessions) by reflexivity.
  rewrite Hload in Hget. unfold bind at 1. rewrite Hget. cbv beta iota.
  subst outcomes. clearbody sessions. clear Hload Hget.
  destruct sessions as [|s0 rest].
  - unfold bind, console_write, ret, extend, w1; simpl.
    rewrite stamp_nil, !app_nil_r, <- !app_assoc. eexists. reflexivity.
  - remember (s0 :: rest) as sessions eqn:Hs.
    replace (length sessions =? 0)%nat with false
      by (rewrite Hs; reflexivity).
    unfold bind at 1. rewrite writes_console_write. cbv beta iota.
    unfold bind at 1. rewrite writes_allSettled. cbv beta iota.
    unfold bind at 1. rewrite log_results_lines. cbv beta iota.
    unfold bind at 1. rewrite updateSessionExecutionTimes_run.
    cbv beta iota. unfold ret, extend, w1; simpl.
    rewrite !app_nil_r, <- !app_assoc. simpl. eexists. reflexivity.
Qed.

Lemma handler_closed_run :
  forall env w,
    isOpen (getMarketStatus (now env)) = false ->
    handler env w
    = (Returned
         {| statusCode := 200;
            body := MarketsClosedBody
                      (formatMarketStatus (getMarketStatus (now env))) |},
       extend w [] [LogStarting (iso_now env);
                    LogMarketStatus
                      (formatMarketStatus (getMarketStatus (now env)));
                    LogMarketsClosed] []).
Proof.
  intros env w Hclosed. unfold handler.
  unfold bind at 1. rewrite writes_console_write.
  unfold try_catch. unfold bind at 1. rewrite writes_console_write.
  cbv beta iota zeta. rewrite Hclosed. change (negb false) with true.
  cbv beta iota. unfold bind. rewrite writes_console_write. unfold ret.
  rewrite !extend_extend. reflexivity.
Qed.

(** X9. The handler never throws and never answers 500: every tick is
    answered with status 200, because session loading, the pipelines and
    the time-stamp update all keep their failures to themselves. *)
Theorem handler_always_answers_200 :
  forall env w,
    exists b,
      fst (handler env w) = Returned {| statusCode := 200; body := b |}
      /\ match b with FailedBody _ _ => False | _ => True end.
Proof.
  intros env w.
  destruct (isOpen (getMarketStatus (now env))) eqn:Hopen.
  - destruct (handler_open_run env w Hopen) as (dc & Hrun).
    rewrite Hrun. eexists. split; [reflexivity|].
    now destruct (loaded env w).
  - rewrite (handler_closed_run env w Hopen). eexists.
    split; [reflexivity|exact I].
Qed.

Lemma settled_counts_add_up :
  forall results,
    (count_fulfilled results + count_rejected results)%nat = length results.
Proof.
  unfold count_fulfilled, count_rejected.
  induction results as [|[v|e] rest IH]; simpl; lia.
Qed.

(** X10. When the handler reports a completed tick, the market was open,
    [processedSessions] is the number of active sessions loaded, which
    is not zero, and [successCount] and [errorCount] add up to it. *)
Theorem completed_counts_add_up :
  forall env w code processed successCount errorCount status timestamp,
    fst (handler env w)
    = Returned {| statusCode := code;
                  body := CompletedBody processed successCount errorCount
                            status timestamp |} ->
    isOpen (getMarketStatus (now env)) = true
    /\ processed = length (loaded env w)
    /\ (0 < processed)%nat
    /\ (successCount + errorCount)%nat = processed
    /\ timestamp = iso_now env.
Proof.
  intros env w code n a b st ts H.
  destruct (isOpen (getMarketStatus (now env))) eqn:Hopen.
  - destruct (handler_open_run env w Hopen) as (dc & Hrun).
    rewrite Hrun in H. cbn [fst] in H.
    destruct (loaded env w) as [|s0 rest] eqn:Hl; [discriminate H|].
    injection H as _ Hn Ha Hb _ Hts. subst n a b ts.
    rewrite settled_counts_add_up. simpl. rewrite ?length_map.
    repeat split; lia.
  - rewrite (handler_closed_run env w Hopen) in H. discriminate H.
Qed.

Lemma completed_counts_add_up_witness :
  isOpen (getMarketStatus (now env_one_fails)) = true
  /\ 2%nat = length (loaded env_one_fails sample_world)
  /\ (0 < 2)%nat
  /\ (1 + 1)%nat = 2%nat
  /\ "2024-01-02T13:00:00.000Z"%string = iso_now env_one_fails.
Proof.
  apply (completed_counts_add_up env_one_fails sample_world 200 2 1 1
           "Markets Open (high volume)" "2024-01-02T13:00:00.000Z").
  vm_compute. reflexivity.
Defined.

(** *** Requests of a tick *)

Lemma session_requests_counts :
  forall env marketStatus s,
    let dr := session_requests env marketStatus s in
    count is_insert dr = 1%nat
    /\ (count is_order dr <= count is_candles dr)%nat
    /\ (count is_candles dr <= 1)%nat
    /\ count is_update dr = 0%nat
    /\ count is_select dr = 0%nat.
Proof.
  intros env ms s dr. subst dr.
  destruct (alone_case env ms s) as (e & Hc & _).
  destruct Hc as [(_ & Hdr & _)|[(_ & err & _ & _ & Hdr & _)
                 |[(_ & md & _ & _ & Hdr & _)|(_ & md & d & _ & _ & Hdr & _)]]];
    rewrite Hdr; unfold count; simpl; repeat split; lia.
Qed.

Lemma count_app :
  forall (A : Type) (p : A -> bool) l l',
    count p (l ++ l') = (count p l + count p l')%nat.
Proof. intros. unfold count. now rewrite filter_app, length_app. Qed.

Lemma pipelines_requests_counts :
  forall env marketStatus sessions,
    let dr := flat_map (session_requests env marketStatus) sessions in
    count is_insert dr = length sessions
    /\ (count is_order dr <= count is_candles dr)%nat
    /\ (count is_candles dr <= length sessions)%nat
    /\ count is_update dr = 0%nat
    /\ count is_select dr = 0%nat.
Proof.
  intros env ms sessions. induction sessions as [|s rest IH].
  - simpl. unfold count. simpl. repeat split; lia.
  - cbv zeta in *. simpl. rewrite !count_app.
    pose proof (session_requests_counts env ms s) as H. cbv zeta in H.
    repeat split; lia.
Qed.

Lemma update_attempts_bound :
  forall env ids, (length (update_attempts env ids) <= length ids)%nat.
Proof.
  intros env ids. induction ids as [|i rest IH]; simpl; [lia|].
  destruct (update_reply env i); simpl; lia.
Qed.

Lemma update_attempts_all :
  forall env ids, never_throws env ids -> update_attempts env ids = ids.
Proof.
  intros env ids. induction ids as [|i rest IH]; intros H; simpl.
  - reflexivity.
  - pose proof (H i (or_introl eq_refl)) as Hi.
    destruct (update_reply env i); [| |contradiction];
      (rewrite IH; [reflexivity|]); intros j Hj; apply H; now right.
Qed.

Lemma updated_ids_among :
  forall env ids, incl (updated_ids env ids) ids.
Proof.
  intros env ids. induction ids as [|i rest IH]; simpl.
  - apply incl_refl.
  - destruct (update_reply env i).
    + apply incl_cons; [now left|]. now apply incl_tl.
    + now apply incl_tl.
    + intros j [].
Qed.

Lemma updated_ids_all :
  forall env ids,
    (forall i, In i ids -> update_reply env i = DbOk) ->
    updated_ids env ids = ids.
Proof.
  intros env ids. induction ids as [|i rest IH]; intros H; simpl.
  - reflexivity.
  - rewrite (H i (or_introl eq_refl)), IH; [reflexivity|].
    intros j Hj. apply H. now right.
Qed.

Lemma issued_app :
  forall w w' dr, requests w' = requests w ++ dr -> issued w w' = dr.
Proof.
  intros w w' dr H. unfold issued. rewrite H, skipn_app, skipn_all.
  now rewrite Nat.sub_diag.
Qed.

Lemma recorded_app :
  forall w w' dl, trading_logs w' = trading_logs w ++ dl -> recorded w w' = dl.
Proof.
  intros w w' dl H. unfold recorded. rewrite H, skipn_app, skipn_all.
  now rewrite Nat.sub_diag.
Qed.

Lemma session_block :
  forall env marketStatus s,
    exists e,
      session_id e = id s
      /\ pipeline_requests s e (session_requests env marketStatus s)
      /\ session_rows env marketStatus s = rows_gained env e.
Proof.
  intros env ms s.
  destruct (alone_case env ms s) as (e & Hc & Hid & Hrows).
  exists e. split; [exact Hid|]. split; [|exact Hrows].
  unfold pipeline_requests.
  destruct Hc as [(_ & Hdr & _)|[(_ & err & _ & _ & Hdr & _)
                 |[(_ & md & _ & _ & Hdr & _)|(_ & md & d & _ & _ & Hdr & _)]]];
    rewrite Hdr; eauto.
Qed.

Lemma session_blocks :
  forall env marketStatus sessions,
    Forall2 (fun s block =>
               exists e, session_id e = id s
                         /\ pipeline_requests s e block)
      sessions (map (session_requests env marketStatus) sessions).
Proof.
  intros env ms sessions. induction sessions as [|s rest IH]; constructor.
  - destruct (session_block env ms s) as (e & Hid & Hshape & _). eauto.
  - exact IH.
Qed.

(** X11. The requests of a tick with the market open come in three
    phases: first the one select of the active sessions; then what the
    pipelines send; last the updates of [last_execution].  What the
    pipelines send is, up to the order in which the sessions' requests
    interleave, one block per loaded session, each block being that
    session's candle request if any, its order if any, and then exactly
    one audit insert for that session; so there is exactly one audit
    insert per loaded session, at most one candle request per session,
    no more orders than candle requests, and no update among them.  The
    updates are at most one per session and, when no update throws,
    exactly one for each session in the order loaded, all with the time
    of the tick. *)
Theorem tick_requests_come_in_three_phases :
  forall env w,
    isOpen (getMarketStatus (now env)) = true ->
    let sessions := loaded env w in
    exists pipelines updates blocks,
      issued w (snd (handler env w))
      = SelectActiveSessions :: pipelines ++ updates
      /\ Permutation pipelines (concat blocks)
      /\ Forall2 (fun s block =>
                    exists e, session_id e = id s
                              /\ pipeline_requests s e block)
           sessions blocks
      /\ count is_insert pipelines = length sessions
      /\ (count is_order pipelines <= count is_candles pipelines)%nat
      /\ (count is_candles pipelines <= length sessions)%nat
      /\ count is_update pipelines = 0%nat
      /\ count is_select pipelines = 0%nat
      /\ forallb is_update updates = true
      /\ (length updates <= length sessions)%nat
      /\ (never_throws env (map id sessions) ->
          updates = map (fun s => UpdateLastExecution (id s) (iso_now env))
                      sessions).
Proof.
  intros env w Hopen sessions.
  destruct (handler_open_run env w Hopen) as (dc & Hrun).
  fold sessions in Hrun. rewrite Hrun. cbn [snd].
  set (ms := getMarketStatus (now env)).
  exists (flat_map (session_requests env ms) sessions),
         (map (update_request env) (update_attempts env (map id sessions))),
         (map (session_requests env ms) sessions).
  split; [now apply issued_app|].
  split; [rewrite flat_map_concat_map; apply Permutation_refl|].
  split; [apply session_blocks|].
  destruct (pipelines_requests_counts env ms sessions)
    as (Hi & Ho & Hc & Hu & Hs).
  repeat (split; [assumption|]).
  split; [|split].
  - apply forallb_forall. intros r Hr. apply in_map_iff in Hr.
    now destruct Hr as (i & <- & _).
  - rewrite length_map.
    pose proof (update_attempts_bound env (map id sessions)) as H.
    now rewrite length_map in H.
  - intros Hnever. rewrite update_attempts_all by exact Hnever.
    now rewrite map_map.
Qed.

Lemma tick_requests_come_in_three_phases_witness :
  exists pipelines updates blocks,
    issued sample_world (snd (handler env_one_fails sample_world))
    = SelectActiveSessions :: pipelines ++ updates
    /\ Permutation pipelines (concat blocks)
    /\ length blocks = 2%nat
    /\ count is_insert pipelines = 2%nat
    /\ (length updates <= 2)%nat.
Proof.
  destruct (tick_requests_come_in_three_phases env_one_fails sample_world
              eq_refl)
    as (pipelines & updates & blocks & H & Hp & Hb & Hi & _ & _ & _ & _ & _
        & Hu & _).
  exists pipelines, updates, blocks.
  split; [exact H|]. split; [exact Hp|].
  split; [symmetry; exact (Forall2_length Hb)|].
  split; [exact Hi|exact Hu].
Defined.

(** *** Tables after a tick *)

(** X12. Whatever happens in a tick, [trading_sessions] afterwards is
    the table before with [last_execution] set to the time of the tick
    on the rows whose id is one of a set of ids, all of them ids of
    sessions the tick loaded; every other row is exactly as it
    was. *)
Theorem tick_stamps_only_loaded_sessions :
  forall env w,
    exists ids,
      incl ids (map id (loaded env w))
      /\ trading_sessions (snd (handler env w))
         = stamp ids (iso_now env) (trading_sessions w).
Proof.
  intros env w.
  destruct (isOpen (getMarketStatus (now env))) eqn:Hopen.
  - destruct (handler_open_run env w Hopen) as (dc & Hrun).
    rewrite Hrun. eexists. split; [apply updated_ids_among|reflexivity].
  - rewrite (handler_closed_run env w Hopen). exists [].
    split; [intros i []|]. now rewrite stamp_nil.
Qed.

(** X13. With the market open and every update accepted by the database,
    the tick stamps every row that shares its id with a loaded session,
    and only those.  When the select of the active sessions returns the
    rows of the table, every active row then carries the time of the
    tick; when the select returns no data, answers with an error or
    throws, no session is loaded and the table is left as it was. *)
Theorem tick_stamps_every_loaded_session :
  forall env w,
    isOpen (getMarketStatus (now env)) = true ->
    (forall s, In s (loaded env w) -> update_reply env (id s) = DbOk) ->
    let after := trading_sessions (snd (handler env w)) in
    after = stamp (map id (loaded env w)) (iso_now env) (trading_sessions w)
    /\ (select_reply env = SelectRows ->
        forall r, In r after -> is_active r = true ->
                  last_execution r = iso_now env)
    /\ (select_reply env <> SelectRows -> after = trading_sessions w).
Proof.
  intros env w Hopen Hok after. subst after.
  destruct (handler_open_run env w Hopen) as (dc & Hrun).
  rewrite Hrun. cbn [snd trading_sessions].
  rewrite updated_ids_all.
  2:{ intros i Hi. apply in_map_iff in Hi. destruct Hi as (s & <- & Hs).
      now apply Hok. }
  split; [reflexivity|]. split.
  - intros Hsel r Hr Hact. unfold stamp in Hr. apply in_map_iff in Hr.
    destruct Hr as (r0 & <- & Hr0).
    assert (Hin : existsb (String.eqb (id r0)) (map id (loaded env w)) = true).
    { apply existsb_exists.
      destruct (is_active r0) eqn:Hact0.
      - exists (id r0). split; [|apply String.eqb_refl].
        apply in_map. unfold loaded. rewrite Hsel.
        apply filter_In. now split.
      - destruct (existsb _ _) eqn:He; [|simpl in Hact; congruence].
        now apply existsb_exists in He. }
    rewrite Hin. reflexivity.
  - intros Hsel. unfold loaded.
    destruct (select_reply env); try (now rewrite stamp_nil).
    now destruct Hsel.
Qed.

Lemma tick_stamps_every_loaded_session_witness :
  trading_sessions (snd (handler env_one_fails sample_world))
  = stamp ["session-a"; "session-b"]%string "2024-01-02T13:00:00.000Z"
      (trading_sessions sample_world).
Proof.
  exact (proj1 (tick_stamps_every_loaded_session env_one_fails sample_world
                  eq_refl (fun s _ => eq_refl))).
Defined.

Lemma session_rows_own :
  forall env marketStatus s e,
    In e (session_rows env marketStatus s) ->
    session_id e = id s /\ insert_reply env e = DbOk.
Proof.
  intros env ms s e He.
  destruct (alone_case env ms s) as (e0 & _ & Hid & Hrows).
  rewrite Hrows in He. unfold rows_gained in He.
  destruct (insert_reply env e0) eqn:Hreply; try contradiction.
  destruct He as [<-|[]]. now split.
Qed.

Lemma session_rows_bound :
  forall env marketStatus s,
    (length (session_rows env marketStatus s) <= 1)%nat
    /\ ((forall e, insert_reply env e = DbOk) ->
        length (session_rows env marketStatus s) = 1%nat).
Proof.
  intros env ms s.
  destruct (alone_case env ms s) as (e0 & _ & _ & Hrows).
  rewrite Hrows. unfold rows_gained. split.
  - destruct (insert_reply env e0); simpl; lia.
  - intros H. now rewrite H.
Qed.

Lemma pipelines_rows_bound :
  forall env marketStatus sessions,
    (length (flat_map (session_rows env marketStatus) sessions)
     <= length sessions)%nat
    /\ ((forall e, insert_reply env e = DbOk) ->
        length (flat_map (session_rows env marketStatus) sessions)
        = length sessions).
Proof.
  intros env ms sessions. induction sessions as [|s rest [IH1 IH2]].
  - split; [apply Nat.le_refl|reflexivity].
  - destruct (session_rows_bound env ms s) as [H1 H2].
    cbn [flat_map]. rewrite length_app. cbn [length]. split.
    + lia.
    + intros Hall. rewrite (H2 Hall), (IH2 Hall). reflexivity.
Qed.

Lemma session_entries :
  forall env marketStatus sessions,
    exists entries,
      Forall2 (fun s e =>
                 session_id e = id s
                 /\ In (InsertLog e) (session_requests env marketStatus s))
        sessions entries
      /\ flat_map (session_rows env marketStatus) sessions
         = flat_map (rows_gained env) entries.
Proof.
  intros env ms sessions. induction sessions as [|s rest (entries & IH1 & IH2)].
  - exists []. split; [constructor|reflexivity].
  - destruct (session_block env ms s) as (e & Hid & Hshape & Hrows).
    exists (e :: entries). split.
    + constructor; [|exact IH1]. split; [exact Hid|].
      destruct Hshape as [-> | [-> | (d & ->)]]; simpl; auto.
    + cbn [flat_map]. now rewrite Hrows, IH2.
Qed.

(** X14. The rows [trading_logs] gains in a tick: nothing is removed or
    rewritten, and a tick with the market closed adds nothing.  With
    the market open there is, for each loaded session, one audit entry
    of that session whose insert its pipeline requests, and the rows
    gained are, up to the order in which the sessions' inserts
    interleave, those of these entries that the database accepted: at
    most one row per loaded session, each one accepted by the database
    and belonging to its session, and exactly one per session when the
    database accepts every insert. *)
Theorem tick_audit_rows :
  forall env w,
    let marketStatus := getMarketStatus (now env) in
    let after := trading_logs (snd (handler env w)) in
    let gained := recorded w (snd (handler env w)) in
    after = trading_logs w ++ gained
    /\ (isOpen marketStatus = false -> gained = [])
    /\ (isOpen marketStatus = true ->
        exists entries,
          Forall2 (fun s e =>
                     session_id e = id s
                     /\ In (InsertLog e) (session_requests env marketStatus s))
            (loaded env w) entries
          /\ Permutation gained
               (flat_map (fun e => match insert_reply env e with
                                   | DbOk => [e]
                                   | _ => []
                                   end) entries))
    /\ (forall e, In e gained ->
                  insert_reply env e = DbOk
                  /\ exists s, In s (loaded env w) /\ session_id e = id s)
    /\ (length gained <= length (loaded env w))%nat
    /\ (isOpen marketStatus = true ->
        (forall e, insert_reply env e = DbOk) ->
        length gained = length (loaded env w)).
Proof.
  intros env w ms after gained. subst after gained.
  destruct (isOpen ms) eqn:Hopen.
  - destruct (handler_open_run env w Hopen) as (dc & Hrun).
    rewrite Hrun. cbn [snd]. fold ms.
    rewrite (recorded_app w _ (flat_map (session_rows env ms) (loaded env w)))
      by reflexivity.
    split; [reflexivity|]. split; [discriminate|]. split; [|split; [|split]].
    + intros _.
      destruct (session_entries env ms (loaded env w))
        as (entries & Hall & Hrows).
      exists entries. split; [exact Hall|].
      rewrite Hrows. apply Permutation_refl.
    + intros e He. apply in_flat_map in He. destruct He as (s & Hs & He).
      destruct (session_rows_own env ms s e He) as (Hid & Hok).
      split; [exact Hok|]. now exists s.
    + apply pipelines_rows_bound.
    + intros _ Hall. now apply pipelines_rows_bound.
  - rewrite (handler_closed_run env w Hopen). cbn [snd].
    rewrite (recorded_app w _ []) by (simpl; reflexivity).
    simpl. rewrite app_nil_r.
    split; [reflexivity|]. split; [reflexivity|].
    split; [discriminate|]. split; [intros e []|]. split; [lia|].
    intros H; discriminate H.
Qed.

(** ** The market clock *)

(** X15. Which sessions trade at which hour: volume is low exactly from
    17h UTC on, high from 7h to 9h and from 12h to 17h, and medium
    otherwise (the night hours 0h to 7h included); so a session trades
    exactly when the market is open and, if it avoids low volume, the
    hour is before 17h. *)
Theorem trading_hours :
  forall now s,
    let hour := utcHours now in
    (getVolumeLevel hour = low <-> (17 <= hour)%nat)
    /\ (getVolumeLevel hour = high
        <-> (7 <= hour < 9)%nat \/ (12 <= hour < 17)%nat)
    /\ (shouldExecuteTrade (getMarketStatus now) s = true
        <-> isOpen (getMarketStatus now) = true
            /\ (avoid_low_volume s = true -> (hour < 17)%nat)).
Proof.
  intros now s hour.
  assert (Hlow : getVolumeLevel hour = low <-> (17 <= hour)%nat).
  { unfold getVolumeLevel.
    destruct (12 <=? hour)%nat eqn:H12; destruct (hour <? 17)%nat eqn:H17;
      destruct (7 <=? hour)%nat eqn:H7; destruct (hour <? 9)%nat eqn:H9;
      destruct (8 <=? hour)%nat eqn:H8; simpl;
      repeat match goal with
        | H : (_ <=? _)%nat = true |- _ => apply Nat.leb_le in H
        | H : (_ <=? _)%nat = false |- _ => apply Nat.leb_gt in H
        | H : (_ <? _)%nat = true |- _ => apply Nat.ltb_lt in H
        | H : (_ <? _)%nat = false |- _ => apply Nat.ltb_ge in H
        end;
      split; intros; try discriminate; try lia; try reflexivity. }
  split; [exact Hlow|]. split.
  - unfold getVolumeLevel.
    destruct (12 <=? hour)%nat eqn:H12; destruct (hour <? 17)%nat eqn:H17;
      destruct (7 <=? hour)%nat eqn:H7; destruct (hour <? 9)%nat eqn:H9;
      destruct (8 <=? hour)%nat eqn:H8; simpl;
      repeat match goal with
        | H : (_ <=? _)%nat = true |- _ => apply Nat.leb_le in H
        | H : (_ <=? _)%nat = false |- _ => apply Nat.leb_gt in H
        | H : (_ <? _)%nat = true |- _ => apply Nat.ltb_lt in H
        | H : (_ <? _)%nat = false |- _ => apply Nat.ltb_ge in H
        end;
      split; intros; try discriminate; try lia; try reflexivity.
  - unfold shouldExecuteTrade.
    destruct (isOpen (getMarketStatus now)) eqn:Hopen; simpl.
    + change (getVolumeLevel (utcHours now)) with (getVolumeLevel hour).
      destruct (Nat.lt_ge_cases hour 17) as [Hlt|Hge].
      * destruct (getVolumeLevel hour) eqn:Hv.
        -- assert (17 <= hour)%nat by (now apply Hlow). lia.
        -- simpl. split; [intros _; split; [reflexivity|now intros _]|].
           reflexivity.
        -- simpl. split; [intros _; split; [reflexivity|now intros _]|].
           reflexivity.
      * pose proof (proj2 Hlow Hge) as Hv. rewrite Hv. simpl.
        destruct (avoid_low_volume s); split.
        -- discriminate.
        -- intros [_ Hbefore]. specialize (Hbefore eq_refl). lia.
        -- intros _. split; [reflexivity|discriminate].
        -- reflexivity.
    + split; [discriminate|intros [Hno _]; discriminate Hno].
Qed.

Import MarketClock.

Lemma open_at_iff :
  forall t,
    open_at t = true
    <-> (~ (getUTCDay t = 6 \/ (getUTCDay t = 0 /\ getUTCHours t < 22))
         /\ ~ (getUTCDay t = 5 /\ 22 <= getUTCHours t))%Z.
Proof.
  intros t. unfold open_at, getMarketStatus, clock.
  cbn [isOpen utcDay utcHours].
  assert (Hk : (0 <= getUTCDay t < 7)%Z)
    by (unfold getUTCDay; apply Z.mod_pos_bound; lia).
  assert (Hh : (0 <= getUTCHours t)%Z).
  { unfold getUTCHours, msPerDay, msPerHour.
    apply Z.div_pos; [|lia]. apply Z.mod_pos_bound. lia. }
  set (k := getUTCDay t) in *. set (h := getUTCHours t) in *.
  destruct (Z.to_nat k =? 6)%nat eqn:H6;
    destruct (Z.to_nat k =? 0)%nat eqn:H0;
    destruct (Z.to_nat h <? 22)%nat eqn:H22;
    destruct (Z.to_nat k =? 5)%nat eqn:H5;
    destruct (22 <=? Z.to_nat h)%nat eqn:H22'; simpl;
    repeat match goal with
      | H : (_ =? _)%nat = true |- _ => apply Nat.eqb_eq in H
      | H : (_ =? _)%nat = false |- _ => apply Nat.eqb_neq in H
      | H : (_ <=? _)%nat = true |- _ => apply Nat.leb_le in H
      | H : (_ <=? _)%nat = false |- _ => apply Nat.leb_gt in H
      | H : (_ <? _)%nat = true |- _ => apply Nat.ltb_lt in H
      | H : (_ <? _)%nat = false |- _ => apply Nat.ltb_ge in H
      end;
    split; intros; try discriminate; try reflexivity; try lia.
Qed.

Lemma closed_at_iff :
  forall t,
    open_at t = false
    <-> (getUTCDay t = 6 \/ (getUTCDay t = 0 /\ getUTCHours t < 22)
         \/ (getUTCDay t = 5 /\ 22 <= getUTCHours t))%Z.
Proof.
  intros t. pose proof (open_at_iff t) as H.
  destruct (open_at t); split; intros H'; try discriminate; try reflexivity.
  - exfalso. destruct H as [H _]. specialize (H eq_refl). lia.
  - destruct H as [_ H].
    destruct (Z.eq_dec (getUTCDay t) 6); [lia|].
    destruct (Z.eq_dec (getUTCDay t) 0);
      destruct (Z.eq_dec (getUTCDay t) 5);
      destruct (Z_lt_ge_dec (getUTCHours t) 22); try lia;
      exfalso; assert (true = false) by (symmetry; apply H; lia);
      discriminate.
Qed.

Ltac clock_arith :=
  unfold getNextMarketClose, getNextMarketOpen, setUTCHours,
    setUTCDate_from_today, getUTCDay, getUTCHours, msPerDay, msPerHour in *;
  Z.div_mod_to_equations; lia.

(** X16. While the market is open, [nextClose] is the end of the open
    window the tick is in: a Friday at 22:00 UTC, later than now and at
    most five days away, at which the market is closed, and before
    which it is open at every instant from now on. *)
Theorem next_close_ends_the_open_window :
  forall now,
    open_at now = true ->
    let close := getNextMarketClose now in
    (nextClose now = Some close
     /\ getUTCDay close = 5
     /\ close mod msPerDay = 22 * msPerHour
     /\ now < close <= now + 5 * msPerDay
     /\ open_at close = false
     /\ forall t, now <= t < close -> open_at t = true)%Z.
Proof.
  intros now Hopen close. subst close.
  split; [unfold nextClose; now rewrite Hopen|].
  apply open_at_iff in Hopen.
  assert (H5 : getUTCDay (getNextMarketClose now) = 5%Z) by clock_arith.
  assert (H22 : getUTCHours (getNextMarketClose now) = 22%Z) by clock_arith.
  split; [exact H5|]. split; [clock_arith|]. split; [clock_arith|]. split.
  - apply closed_at_iff. lia.
  - intros t Ht. apply open_at_iff. clock_arith.
Qed.

Lemma next_close_ends_the_open_window_witness :
  open_at tuesday_noon = true
  /\ nextClose tuesday_noon = Some 1704492000000%Z.
Proof.
  split; [reflexivity|].
  exact (proj1 (next_close_ends_the_open_window tuesday_noon eq_refl)).
Defined.

(** X17. What [nextOpen] says while the market is closed.  On a
    Saturday it is the coming Sunday at 22:00 UTC, the instant the
    market opens, with the market closed until then.  On a Sunday
    before 22:00 it is 22:00 of the Sunday a week later, although the
    market opens at 22:00 of the same day.  After the Friday close it is
    the present instant, at which the market is closed. *)
Theorem next_open_when_closed :
  forall now,
    open_at now = false ->
    let open := getNextMarketOpen now in
    (nextOpen now = Some open
     /\ (getUTCDay now = 6 ->
         getUTCDay open = 0 /\ open mod msPerDay = 22 * msPerHour
         /\ now < open <= now + 46 * msPerHour
         /\ open_at open = true
         /\ forall t, now <= t < open -> open_at t = false)
     /\ (getUTCDay now = 0 ->
         let tonight := setUTCHours now 22 in
         open = tonight + 7 * msPerDay
         /\ now < tonight /\ open_at tonight = true)
     /\ (getUTCDay now = 5 -> open = now /\ open_at open = false))%Z.
Proof.
  intros now Hclosed open. subst open.
  split; [unfold nextOpen; now rewrite Hclosed|].
  pose proof Hclosed as Hnow. apply closed_at_iff in Hnow.
  split; [|split].
  - intros H6.
    assert (H0 : getUTCDay (getNextMarketOpen now) = 0%Z).
    { unfold getNextMarketOpen. rewrite H6. simpl. clear Hclosed.
      clock_arith. }
    assert (H22 : getUTCHours (getNextMarketOpen now) = 22%Z).
    { unfold getNextMarketOpen. rewrite H6. simpl. clear Hclosed.
      clock_arith. }
    split; [exact H0|].
    split; [unfold getNextMarketOpen; rewrite H6; simpl; clock_arith|].
    split; [unfold getNextMarketOpen; rewrite H6; simpl; clock_arith|].
    split; [apply open_at_iff; lia|].
    intros t Ht. apply closed_at_iff.
    unfold getNextMarketOpen in Ht. rewrite H6 in Ht. simpl in Ht.
    clear H0 H22 Hclosed. clock_arith.
  - intros H0 tonight. subst tonight.
    assert (Hh : (getUTCHours now < 22)%Z) by lia.
    split; [|split].
    + unfold getNextMarketOpen. rewrite H0.
      replace (getUTCHours now <? 22)%Z with true
        by (symmetry; now apply Z.ltb_lt).
      simpl. clock_arith.
    + clock_arith.
    + apply open_at_iff. clock_arith.
  - intros H5. split; [|unfold getNextMarketOpen; rewrite H5; exact Hclosed].
    unfold getNextMarketOpen. rewrite H5. reflexivity.
Qed.

Lemma next_open_when_closed_witness :
  open_at saturday_morning = false
  /\ nextOpen saturday_morning = Some 1704664800000%Z
  /\ open_at sunday_morning = false
  /\ nextOpen sunday_morning = Some 1705269600000%Z
  /\ open_at friday_night = false
  /\ nextOpen friday_night = Some friday_night.
Proof.
  split; [reflexivity|].
  split; [exact (proj1 (next_open_when_closed saturday_morning eq_refl))|].
  split; [reflexivity|].
  split; [exact (proj1 (next_open_when_closed sunday_morning eq_refl))|].
  split; [reflexivity|].
  exact (proj1 (next_open_when_closed friday_night eq_refl)).
Defined.

(** ** The loader of the Python runtime *)

Import PyodideLoader.

Lemma extended_extended :
  forall (Instance : Type) (s : Loader Instance) lines new lines' new',
    extended (extended s lines new) lines' new'
    = extended s (lines ++ lines') (new ++ new').
Proof.
  intros. unfold extended; simpl. now rewrite !app_assoc.
Qed.

Lemma appends_run :
  forall (Instance A : Type) (m : @L Instance A) o lines new,
    (forall s, m s = (o, extended s lines new)) -> appends m.
Proof.
  intros Instance A m o lines new H s. rewrite (H fresh), H. reflexivity.
Qed.

Lemma appends_pure :
  forall (Instance A : Type) (a : A), appends (@pure Instance A a).
Proof.
  intros. apply (appends_run _ _ _ (PythonExecutor.Returned a) [] []).
  intros s. unfold pure, extended. rewrite !app_nil_r. now destruct s.
Qed.

Lemma appends_raise :
  forall (Instance A : Type) x, appends (@raise Instance A x).
Proof.
  intros. apply (appends_run _ _ _ (PythonExecutor.Threw x) [] []).
  intros s. unfold raise, extended. rewrite !app_nil_r. now destruct s.
Qed.

Lemma appends_print :
  forall (Instance : Type) l, appends (@print Instance l).
Proof.
  intros. apply (appends_run _ _ _ (PythonExecutor.Returned tt) [l] []).
  intros s. unfold print, extended. now rewrite !app_nil_r.
Qed.

Lemma appends_call :
  forall (Instance : Type) e, appends (@call Instance e).
Proof.
  intros. apply (appends_run _ _ _ (PythonExecutor.Returned tt) [] [e]).
  intros s. unfold call, extended. now rewrite !app_nil_r.
Qed.

Lemma appends_and_next :
  forall (Instance A B : Type) (m : @L Instance A) (k : A -> L B),
    appends m -> (forall a, appends (k a)) -> appends (and_next m k).
Proof.
  intros Instance A B m k Hm Hk.
  destruct (m fresh) as [[a|x] s0] eqn:Hfresh.
  - apply (appends_run _ _ _ (fst (k a fresh))
             (printed s0 ++ printed (snd (k a fresh)))
             (calls s0 ++ calls (snd (k a fresh)))).
    intros s. unfold and_next. rewrite Hm, Hfresh. cbn [fst snd].
    rewrite Hk, extended_extended. reflexivity.
  - apply (appends_run _ _ _ (PythonExecutor.Threw x)
             (printed s0) (calls s0)).
    intros s. unfold and_next. rewrite Hm, Hfresh. reflexivity.
Qed.

Lemma appends_guarded :
  forall (Instance A : Type) (m : @L Instance A) h,
    appends m -> (forall x, appends (h x)) -> appends (guarded m h).
Proof.
  intros Instance A m h Hm Hh.
  destruct (m fresh) as [[a|x] s0] eqn:Hfresh.
  - apply (appends_run _ _ _ (PythonExecutor.Returned a)
             (printed s0) (calls s0)).
    intros s. unfold guarded. rewrite Hm, Hfresh. reflexivity.
  - apply (appends_run _ _ _ (fst (h x fresh))
             (printed s0 ++ printed (snd (h x fresh)))
             (calls s0 ++ calls (snd (h x fresh)))).
    intros s. unfold guarded. rewrite Hm, Hfresh. cbn [fst snd].
    rewrite Hh, extended_extended. reflexivity.
Qed.

Create HintDb appends.
#[export] Hint Resolve appends_pure appends_raise appends_print appends_call
  : appends.

Ltac appends_step :=
  first
    [ apply appends_pure | apply appends_raise | apply appends_print
    | apply appends_call
    | apply appends_and_next; [|intros ?]
    | apply appends_guarded; [|intros ?]
    | match goal with
      | |- appends (if ?b then _ else _) => destruct b
      | |- appends (match ?x with _ => _ end) => destruct x
      end ].

Lemma appends_install_packages :
  forall (Instance : Type) (page : Page Instance) pyodide turns retryCount,
    appends (install_packages page pyodide turns retryCount).
Proof.
  intros Instance page pyodide turns.
  induction turns as [|turns IH]; intros retryCount; simpl.
  - apply appends_pure.
  - unfold loadPackage, on_runtime.
    repeat first [apply IH | appends_step].
Qed.

Lemma appends_loadPyodideInternal :
  forall (Instance : Type) (page : Page Instance),
    appends (loadPyodideInternal page).
Proof.
  intros Instance page. unfold loadPyodideInternal, on_runtime.
  repeat first [apply appends_install_packages | appends_step].
Qed.

Lemma loadPyodideInternal_run :
  forall (Instance : Type) (page : Page Instance) s,
    loadPyodideInternal page s
    = (load_outcome page,
       extended s (load_lines page) (load_calls page)).
Proof. intros. apply appends_loadPyodideInternal. Qed.

Lemma install_packages_run :
  forall (Instance : Type) (page : Page Instance) pyodide s,
    install_packages page pyodide maxRetries 0 s
    = (install_outcome page pyodide,
       extended s (install_lines page pyodide) (install_calls page pyodide)).
Proof. intros. apply appends_install_packages. Qed.

Ltac install_cases page :=
  unfold install_outcome, install_calls, install_packages, loadPackage,
    on_runtime, guarded, and_next, print, call, raise, pure, maxRetries,
    gave_up, fresh in *;
  cbn in *;
  destruct (loadPackage_reply page 0) as [x0|] eqn:Hp0; cbn in *;
  [destruct (loadPackage_reply page 1) as [x1|] eqn:Hp1; cbn in *;
   [destruct (loadPackage_reply page 2) as [x2|] eqn:Hp2; cbn in *|]|].

Lemma install_calls_bounds :
  forall (Instance : Type) (page : Page Instance) pyodide,
    (count is_loadPackage (install_calls page pyodide) <= 3)%nat
    /\ (count is_wait (install_calls page pyodide) <= 2)%nat
    /\ forall e, In e (install_calls page pyodide) ->
                 e = LoadPackage \/ e = Wait 1000.
Proof.
  intros Instance page [i|]; unfold count.
  - install_cases page; (split; [lia|]); (split; [lia|]); intros e He;
      repeat (destruct He as [<-|He]; [now auto|]); destruct He.
  - unfold install_calls. cbn. (split; [lia|]); (split; [lia|]).
    intros e He. repeat (destruct He as [<-|He]; [now auto|]). destruct He.
Qed.

Lemma install_outcome_cases :
  forall (Instance : Type) (page : Page Instance) pyodide,
    (install_outcome page pyodide = PythonExecutor.Returned tt
     /\ (exists i, pyodide = Some i)
     /\ exists n, (n < maxRetries)%nat /\ loadPackage_reply page n = None)
    \/ (install_outcome page pyodide = PythonExecutor.Threw gave_up
        /\ (pyodide = None \/ never_installs page)
        /\ install_calls page pyodide
           = match pyodide with
             | Some _ => [LoadPackage; Wait 1000; LoadPackage; Wait 1000;
                          LoadPackage]
             | None => [Wait 1000; Wait 1000]
             end).
Proof.
  intros Instance page [i|].
  - unfold never_installs. install_cases page.
    + right. split; [reflexivity|]. split; [|reflexivity]. right.
      intros n Hn. destruct n as [|[|[|n]]]; try congruence. lia.
    + left. split; [reflexivity|]. split; [now exists i|].
      exists 2%nat. split; [lia|assumption].
    + left. split; [reflexivity|]. split; [now exists i|].
      exists 1%nat. split; [lia|assumption].
    + left. split; [reflexivity|]. split; [now exists i|].
      exists 0%nat. split; [lia|assumption].
  - right. unfold install_outcome, install_calls. cbn.
    split; [reflexivity|]. split; [now left|reflexivity].
Qed.

Ltac load_reduce := cbn -[install_packages maxRetries String.eqb].

Ltac load_split page :=
  unfold load_outcome, load_calls, loadPyodideInternal, on_runtime, guarded,
    and_next, print, call, raise, pure, fresh;
  destruct (needs_script page) eqn:Hneeds;
    [destruct (script_loads page) eqn:Hscript|];
  load_reduce;
  try (destruct (loadPyodide_reply page) as [x|[i|]] eqn:Hruntime;
       load_reduce;
       [
       | rewrite install_packages_run;
         destruct (install_outcome_cases _ page (Some i))
           as [(Ho & _ & Hsome)|(Ho & Hnever & Hc)];
         rewrite Ho; load_reduce;
         [ destruct (setup_reply page) as [x|] eqn:Hsetup; load_reduce;
           [ | destruct (test_reply page) as [x|[text|]] eqn:Htest;
               load_reduce;
               [ | destruct (String.eqb text "success") eqn:Htext;
                   load_reduce | ] ]
         | ]
       | cbn ]).

Lemma load_case_calls :
  forall (Instance : Type) (page : Page Instance) o new new',
    load_case page o new -> new = new' -> load_case page o new'.
Proof. intros. now subst. Qed.

Ltac same_calls :=
  unfold script_calls;
  repeat match goal with
    | H : needs_script _ = _ |- _ => rewrite H
    | H : install_calls _ _ = _ |- _ => rewrite H
    end;
  cbn [app]; rewrite <- ?app_assoc; reflexivity.

Lemma load_shape :
  forall (Instance : Type) (page : Page Instance),
    load_case page (load_outcome page) (load_calls page).
Proof.
  intros Instance page.
  load_split page;
    try (eapply load_case_calls;
         [ first
             [ exact (script_failed page Hneeds Hscript)
             | exact (runtime_failed page x Hruntime)
             | exact (install_failed page _ Hruntime Hnever)
             | exact (install_failed page _ Hruntime (or_introl eq_refl))
             | exact (setup_failed page i x Hruntime Hsetup)
             | exact (test_failed page i _ Hruntime Hsetup
                        ltac:(rewrite Htest; congruence))
             | destruct x; cbn [as_error];
               exact (test_failed page i _ Hruntime Hsetup
                        ltac:(rewrite Htest; congruence))
             | refine (test_failed page i _ Hruntime Hsetup _);
               rewrite Htest; intros Heq; injection Heq as ->;
               discriminate Htext
             | apply runtime_ready; apply String.eqb_eq in Htext; subst text;
               repeat split; try assumption; congruence ]
         | same_calls ]).
Qed.

Lemma load_returns_iff :
  forall (Instance : Type) (page : Page Instance) p,
    load_outcome page = PythonExecutor.Returned p
    <-> exists i, p = Some i /\ works page i.
Proof.
  intros Instance page p. pose proof (load_shape _ page) as H. split.
  - intros Ho. rewrite Ho in H. inversion H; subst. now exists i.
  - intros (i & -> & Hs & Hr & (n & Hn & Hp) & Hsetup & Htest).
    inversion H as [Hneeds Hscript| x Hx | pyodide Hx [->|Hnever]
                   | i' x Hx Hx' | i' m Hx Hx' Hx'' | i' Hw];
      try congruence.
    + rewrite (Hs Hneeds) in Hscript. discriminate.
    + destruct (Hnever n Hn Hp).
    + destruct Hw as (_ & Hr' & _). congruence.
Qed.

Lemma load_throws_an_error :
  forall (Instance : Type) (page : Page Instance) x,
    load_outcome page = PythonExecutor.Threw x ->
    exists m, x = PythonExecutor.ThrownError m.
Proof.
  intros Instance page x Ho. pose proof (load_shape _ page) as H.
  rewrite Ho in H. inversion H; subst; unfold gave_up; eauto;
    match goal with x : PythonExecutor.Thrown |- _ => destruct x end;
    cbn; eauto.
Qed.

Lemma load_gives_up :
  forall (Instance : Type) (page : Page Instance) i,
    (needs_script page = true -> script_loads page = true) ->
    loadPyodide_reply page = inr (Some i) ->
    never_installs page ->
    load_outcome page = PythonExecutor.Threw gave_up
    /\ load_calls page
       = script_calls page
         ++ [LoadPyodide; LoadPackage; Wait 1000; LoadPackage; Wait 1000;
             LoadPackage].
Proof.
  intros Instance page i Hs Hr Hnever.
  destruct (install_outcome_cases _ page (Some i))
    as [(_ & _ & n & Hn & Hp)|(Ho & _ & Hc)]; [destruct (Hnever n Hn Hp)|].
  unfold load_outcome, load_calls, loadPyodideInternal, guarded, and_next,
    print, call, raise, pure, fresh, script_calls.
  destruct (needs_script page); [rewrite (Hs eq_refl)|];
    load_reduce; rewrite Hr; load_reduce;
    rewrite install_packages_run, Ho; load_reduce; rewrite Hc;
    split; reflexivity.
Qed.

Lemma quiet_calls :
  forall l,
    forallb quiet l = true ->
    count is_loadPackage l = 0%nat /\ count is_wait l = 0%nat
    /\ forall ms, ~ In (Wait ms) l.
Proof.
  unfold count. induction l as [|e l IH]; intros H.
  - repeat split. intros ms [].
  - simpl in H. apply andb_prop in H. destruct H as [He Hl].
    destruct (IH Hl) as (H1 & H2 & H3).
    destruct e; try discriminate He; simpl; repeat split; try assumption;
      intros ms [Hms|Hms]; try discriminate Hms; now apply (H3 ms).
Qed.

Lemma calls_bounds_app :
  forall pre mid post,
    forallb quiet pre = true -> forallb quiet post = true ->
    (count is_loadPackage mid <= 3)%nat ->
    (count is_wait mid <= 2)%nat ->
    (forall e, In e mid -> e = LoadPackage \/ e = Wait 1000) ->
    (count is_loadPackage (pre ++ mid ++ post) <= 3)%nat
    /\ (count is_wait (pre ++ mid ++ post) <= 2)%nat
    /\ (forall ms, In (Wait ms) (pre ++ mid ++ post) -> ms = 1000%nat).
Proof.
  intros pre mid post Hpre Hpost Hl Hw Hall.
  destruct (quiet_calls pre Hpre) as (P1 & P2 & P3).
  destruct (quiet_calls post Hpost) as (Q1 & Q2 & Q3).
  rewrite !count_app. repeat split; try lia.
  intros ms Hin. apply in_app_or in Hin. destruct Hin as [Hin|Hin].
  - destruct (P3 ms Hin).
  - apply in_app_or in Hin. destruct Hin as [Hin|Hin].
    + destruct (Hall _ Hin) as [H|H]; [discriminate H|].
      now injection H.
    + destruct (Q3 ms Hin).
Qed.

Ltac literal_calls :=
  first
    [ reflexivity
    | unfold count; simpl; lia
    | let e := fresh "e" in
      let He := fresh "He" in
      intros e He; simpl in He;
      repeat (destruct He as [<-|He]; [now auto|]); destruct He ].

Lemma load_calls_bounds :
  forall (Instance : Type) (page : Page Instance),
    (count is_loadPackage (load_calls page) <= 3)%nat
    /\ (count is_wait (load_calls page) <= 2)%nat
    /\ (forall ms, In (Wait ms) (load_calls page) -> ms = 1000%nat).
Proof.
  intros Instance page. pose proof (load_shape _ page) as H.
  inversion H as [Hneeds Hscript| x Hx | pyodide Hx Hor
                 | i x Hx Hx' | i m Hx Hx' Hx'' | i Hw];
    unfold script_calls; destruct (needs_script page).
  all: try (destruct (install_calls_bounds _ page (Some i)) as (B1 & B2 & B3)).
  - apply (calls_bounds_app [AppendScript] [] []); literal_calls.
  - apply (calls_bounds_app [AppendScript] [] []); literal_calls.
  - apply (calls_bounds_app [AppendScript; LoadPyodide] [] []);
      literal_calls.
  - apply (calls_bounds_app [LoadPyodide] [] []); literal_calls.
  - destruct pyodide.
    + apply (calls_bounds_app [AppendScript; LoadPyodide]
               [LoadPackage; Wait 1000; LoadPackage; Wait 1000; LoadPackage]
               []); literal_calls.
    + apply (calls_bounds_app [AppendScript; LoadPyodide]
               [Wait 1000; Wait 1000] []); literal_calls.
  - destruct pyodide.
    + apply (calls_bounds_app [LoadPyodide]
               [LoadPackage; Wait 1000; LoadPackage; Wait 1000; LoadPackage]
               []); literal_calls.
    + apply (calls_bounds_app [LoadPyodide] [Wait 1000; Wait 1000] []);
        literal_calls.
  - apply (calls_bounds_app [AppendScript; LoadPyodide] _ [RunSetup]);
      (reflexivity || assumption).
  - apply (calls_bounds_app [LoadPyodide] _ [RunSetup]);
      (reflexivity || assumption).
  - apply (calls_bounds_app [AppendScript; LoadPyodide] _ [RunSetup; RunTest]);
      (reflexivity || assumption).
  - apply (calls_bounds_app [LoadPyodide] _ [RunSetup; RunTest]);
      (reflexivity || assumption).
  - apply (calls_bounds_app [AppendScript; LoadPyodide] _ [RunSetup; RunTest]);
      (reflexivity || assumption).
  - apply (calls_bounds_app [LoadPyodide] _ [RunSetup; RunTest]);
      (reflexivity || assumption).
Qed.

Lemma load_calls_start :
  forall (Instance : Type) (page : Page Instance),
    exists rest,
      load_calls page
      = (if needs_script page then AppendScript else LoadPyodide) :: rest.
Proof.
  intros Instance page. pose proof (load_shape _ page) as H.
  inversion H as [Hneeds Hscript| x Hx | pyodide Hx Hor
                 | i x Hx Hx' | i m Hx Hx' Hx'' | i Hw];
    unfold script_calls; try rewrite Hneeds;
    destruct (needs_script page); cbn [app]; eauto.
Qed.

(** The run of [initialize] when it starts a load. *)
Lemma initialize_loads :
  forall (Instance : Type) (page : Page Instance) s,
    pyodideInstance s = None ->
    isLoading s = false \/ loadPromise s = None ->
    initialize page s
    = (match load_outcome page with
       | PythonExecutor.Returned p => PythonExecutor.Returned p
       | PythonExecutor.Threw x =>
           PythonExecutor.Threw (as_error x "Unknown Pyodide error")
       end,
       {| pyodideInstance :=
            match load_outcome page with
            | PythonExecutor.Returned p => p
            | PythonExecutor.Threw _ => None
            end;
          isLoading := false;
          loadPromise := Some (load_outcome page);
          lastError :=
            match load_outcome page with
            | PythonExecutor.Returned _ => None
            | PythonExecutor.Threw x =>
                Some (PythonExecutor.message_or
                        (as_error x "Unknown Pyodide error") "")
            end;
          printed :=
            printed s ++ load_lines page
            ++ [match load_outcome page with
                | PythonExecutor.Returned _ => LogInitializedAndCached
                | PythonExecutor.Threw x => ErrFailedToInitialize x
                end];
          calls := calls s ++ load_calls page |}).
Proof.
  intros Instance page s Hnone Hfree. unfold initialize. rewrite Hnone.
  assert (Hbranch :
            match isLoading s, loadPromise s with
            | true, Some _ => False
            | _, _ => True
            end).
  { destruct Hfree as [-> | ->]; [exact I|now destruct (isLoading s)]. }
  destruct (isLoading s) eqn:Hl; destruct (loadPromise s) eqn:Hp;
    try contradiction;
    unfold and_next at 1; unfold set_isLoading at 1; cbv beta iota;
    unfold and_next at 1; unfold start_load;
    rewrite loadPyodideInternal_run;
    destruct (load_outcome page) as [p|x];
    unfold finally, guarded, and_next, await, set_loadPromise,
      set_pyodideInstance, set_lastError, set_isLoading, print, pure, raise,
      extended; cbn; rewrite ?Hnone, <- ?app_assoc; reflexivity.
Qed.

Lemma asked_app :
  forall (Instance : Type) (s s' : Loader Instance) new,
    calls s' = calls s ++ new -> asked s s' = new.
Proof.
  intros Instance s s' new H. unfold asked.
  rewrite H, skipn_app, skipn_all, Nat.sub_diag. reflexivity.
Qed.

(** The three ways [initialize] can go: the cached runtime, the load in
    flight, or a load of its own. *)
Lemma initialize_cases :
  forall (Instance : Type) (page : Page Instance) s,
    (exists i, pyodideInstance s = Some i
               /\ initialize page s
                  = (PythonExecutor.Returned (Some i),
                     extended s [LogReturningExisting] []))
    \/ (exists promise,
          pyodideInstance s = None /\ isLoading s = true
          /\ loadPromise s = Some promise
          /\ initialize page s = (promise, extended s [LogWaitingForLoad] []))
    \/ (pyodideInstance s = None
        /\ (isLoading s = false \/ loadPromise s = None)).
Proof.
  intros Instance page s. unfold initialize.
  destruct (pyodideInstance s) as [i|] eqn:Hi.
  - left. exists i. split; [reflexivity|].
    unfold and_next, print, pure, extended. rewrite app_nil_r, Hi.
    reflexivity.
  - destruct (isLoading s) eqn:Hl; [|right; right; auto].
    destruct (loadPromise s) as [promise|] eqn:Hp; [|right; right; auto].
    right. left. exists promise. split; [reflexivity|].
    split; [reflexivity|]. split; [reflexivity|].
    unfold and_next, print, await, pure, raise, extended.
    rewrite app_nil_r, Hi, Hl, Hp. now destruct promise.
Qed.

(** X18. One call of [initialize] asks for the packages at most three
    times and waits at most twice, one second each time, whatever the
    page does and whatever state the loader is in. *)
Theorem packages_are_tried_at_most_three_times :
  forall (Instance : Type) (page : Page Instance) s,
    let new := asked s (snd (initialize page s)) in
    (count is_loadPackage new <= 3)%nat
    /\ (count is_wait new <= 2)%nat
    /\ (forall ms, In (Wait ms) new -> ms = 1000%nat).
Proof.
  intros Instance page s new. subst new.
  destruct (initialize_cases _ page s)
    as [(i & _ & Hrun)|[(promise & _ & _ & _ & Hrun)|(Hnone & Hfree)]].
  - rewrite Hrun. cbn [snd]. rewrite (asked_app _ _ _ []) by reflexivity.
    unfold count. simpl. repeat split; try lia; try (intros ms []).
  - rewrite Hrun. cbn [snd]. rewrite (asked_app _ _ _ []) by reflexivity.
    unfold count. simpl. repeat split; try lia; try (intros ms []).
  - rewrite (initialize_loads _ page s Hnone Hfree). cbn [snd].
    rewrite (asked_app _ _ _ (load_calls page)) by reflexivity.
    apply load_calls_bounds.
Qed.

(** X19. When every installation of the packages fails, [initialize]
    gives up after the third attempt: it asks for the runtime once and
    for the packages three times with two waits in between, never runs
    the set-up script, throws "Failed to install Python packages after 3
    attempts" in place of the package error, and keeps that error as
    the last error, with no runtime cached. *)
Theorem three_failed_installations_give_up :
  forall (Instance : Type) (page : Page Instance) s i,
    pyodideInstance s = None ->
    isLoading s = false ->
    (needs_script page = true -> script_loads page = true) ->
    loadPyodide_reply page = inr (Some i) ->
    never_installs page ->
    let run := initialize page s in
    fst run = PythonExecutor.Threw gave_up
    /\ asked s (snd run)
       = script_calls page
         ++ [LoadPyodide; LoadPackage; Wait 1000; LoadPackage; Wait 1000;
             LoadPackage]
    /\ fst (getLastError (snd run))
       = PythonExecutor.Returned
           (Some "Failed to install Python packages after 3 attempts"%string)
    /\ pyodideInstance (snd run) = None.
Proof.
  intros Instance page s i Hnone Hl Hs Hr Hnever run. subst run.
  destruct (load_gives_up _ page i Hs Hr Hnever) as (Ho & Hc).
  rewrite (initialize_loads _ page s Hnone (or_introl Hl)).
  rewrite Ho. cbn [fst snd]. split; [reflexivity|]. split.
  - rewrite (asked_app _ _ _ (load_calls page)) by reflexivity. exact Hc.
  - split; reflexivity.
Qed.

Lemma page_offline_never_installs : never_installs page_offline.
Proof. intros n _ H. discriminate H. Qed.

Lemma three_failed_installations_give_up_witness :
  fst (initialize page_offline fresh) = PythonExecutor.Threw gave_up
  /\ asked fresh (snd (initialize page_offline fresh))
     = [LoadPyodide; LoadPackage; Wait 1000; LoadPackage; Wait 1000;
        LoadPackage].
Proof.
  pose proof (three_failed_installations_give_up nat page_offline fresh
                7%nat eq_refl eq_refl (fun H => eq_refl) eq_refl
                page_offline_never_installs) as (H1 & H2 & _).
  split; [exact H1|exact H2].
Defined.

(** X20. A runtime that [initialize] returns is never null or
    undefined, and it is cached: the loader holds it and is no longer
    loading, and every later call returns the same runtime without
    asking anything of the page, whatever the page would do. *)
Theorem initialized_runtime_is_cached :
  forall (Instance : Type) (page : Page Instance) s p,
    isLoading s = false ->
    fst (initialize page s) = PythonExecutor.Returned p ->
    let s' := snd (initialize page s) in
    exists i,
      p = Some i
      /\ pyodideInstance s' = Some i
      /\ isLoading s' = false
      /\ forall page' : Page Instance,
           fst (initialize page' s') = PythonExecutor.Returned (Some i)
           /\ asked s' (snd (initialize page' s')) = [].
Proof.
  intros Instance page s p Hl Hret s'. subst s'.
  assert (Hagain :
            forall (t : Loader Instance) i,
              pyodideInstance t = Some i ->
              forall page' : Page Instance,
                fst (initialize page' t) = PythonExecutor.Returned (Some i)
                /\ asked t (snd (initialize page' t)) = []).
  { intros t i Ht page'.
    destruct (initialize_cases _ page' t)
      as [(i' & Hi' & Hrun)|[(promise & Hn & _)|(Hn & _)]];
      try congruence.
    rewrite Hrun. cbn [fst snd]. split; [congruence|].
    apply asked_app. simpl. now rewrite app_nil_r. }
  destruct (initialize_cases _ page s)
    as [(i & Hi & Hrun)|[(promise & _ & Hl' & _)|(Hnone & Hfree)]];
    [| congruence |].
  - rewrite Hrun in *. cbn [fst snd] in *. exists i.
    split; [congruence|]. split; [exact Hi|]. split; [exact Hl|].
    now apply Hagain.
  - rewrite (initialize_loads _ page s Hnone Hfree) in *.
    cbn [fst snd] in *.
    destruct (load_outcome page) as [p'|x] eqn:Ho; [|discriminate Hret].
    injection Hret as ->.
    apply load_returns_iff in Ho. destruct Ho as (i & -> & _).
    exists i. split; [reflexivity|]. split; [reflexivity|].
    split; [reflexivity|]. now apply Hagain.
Qed.

Lemma initialized_runtime_is_cached_witness :
  fst (initialize page_flaky fresh) = PythonExecutor.Returned (Some 7%nat)
  /\ exists i,
       Some 7%nat = Some i
       /\ fst (initialize page_offline (snd (initialize page_flaky fresh)))
          = PythonExecutor.Returned (Some i).
Proof.
  assert (H : fst (initialize page_flaky fresh)
              = PythonExecutor.Returned (Some 7%nat)) by reflexivity.
  split; [exact H|].
  destruct (initialized_runtime_is_cached nat page_flaky fresh (Some 7%nat)
              eq_refl H) as (i & Hi & _ & _ & Hagain).
  exists i. split; [exact Hi|]. exact (proj1 (Hagain page_offline)).
Defined.

(** X21. A failed [initialize] always throws an [Error], keeps its
    message as the last error and caches nothing; the failure is not
    sticky: the next call starts a new load, and succeeds when the page
    then works. *)
Theorem failed_initialization_is_retried :
  forall (Instance : Type) (page : Page Instance) s x,
    isLoading s = false ->
    fst (initialize page s) = PythonExecutor.Threw x ->
    let s' := snd (initialize page s) in
    exists m,
      x = PythonExecutor.ThrownError m
      /\ fst (getLastError s') = PythonExecutor.Returned (Some m)
      /\ pyodideInstance s' = None
      /\ isLoading s' = false
      /\ forall (page' : Page Instance) i,
           works page' i ->
           fst (initialize page' s') = PythonExecutor.Returned (Some i).
Proof.
  intros Instance page s x Hl Hthrew s'. subst s'.
  destruct (initialize_cases _ page s)
    as [(i & Hi & Hrun)|[(promise & _ & Hl' & _)|(Hnone & Hfree)]];
    [rewrite Hrun in Hthrew; discriminate Hthrew | congruence |].
  rewrite (initialize_loads _ page s Hnone Hfree) in *. cbn [fst snd] in *.
  destruct (load_outcome page) as [p|x'] eqn:Ho; [discriminate Hthrew|].
  injection Hthrew as <-.
  destruct (load_throws_an_error _ page x' Ho) as (m & ->).
  exists m. do 4 (split; [reflexivity|]).
  intros page' i Hworks.
  rewrite initialize_loads by (cbn; auto).
  assert (Ho' : load_outcome page' = PythonExecutor.Returned (Some i))
    by (apply load_returns_iff; eauto).
  rewrite Ho'. reflexivity.
Qed.

Lemma page_ok_works : works page_ok 7%nat.
Proof.
  repeat split. exists 0%nat. split; [unfold maxRetries; lia|reflexivity].
Qed.

Lemma failed_initialization_is_retried_witness :
  fst (initialize page_offline fresh) = PythonExecutor.Threw gave_up
  /\ fst (initialize page_ok (snd (initialize page_offline fresh)))
     = PythonExecutor.Returned (Some 7%nat).
Proof.
  assert (H : fst (initialize page_offline fresh)
              = PythonExecutor.Threw gave_up) by reflexivity.
  split; [exact H|].
  destruct (failed_initialization_is_retried nat page_offline fresh gave_up
              eq_refl H) as (m & _ & _ & _ & _ & Hnext).
  exact (Hnext page_ok 7%nat page_ok_works).
Defined.

(** X22. [reset] forgets the runtime, the load and the last error, and
    asks nothing of the page; the next [initialize] then has the outcome
    and makes the calls of an [initialize] on a loader that has never
    loaded anything, even when a runtime was cached before. *)
Theorem reset_forces_a_new_load :
  forall (Instance : Type) (page : Page Instance) (s : Loader Instance),
    let s' := snd (reset s) in
    fst (reset s) = PythonExecutor.Returned tt
    /\ pyodideInstance s' = None /\ isLoading s' = false
    /\ loadPromise s' = None /\ fst (getLastError s') = PythonExecutor.Returned None
    /\ calls s' = calls s
    /\ fst (initialize page s') = fst (initialize page fresh)
    /\ asked s' (snd (initialize page s'))
       = calls (snd (initialize page fresh))
    /\ exists rest,
         asked s' (snd (initialize page s'))
         = (if needs_script page then AppendScript else LoadPyodide) :: rest.
Proof.
  intros Instance page s s'. subst s'.
  set (s' := snd (reset s)).
  assert (Hfields : pyodideInstance s' = None /\ isLoading s' = false
                    /\ loadPromise s' = None /\ lastError s' = None
                    /\ calls s' = calls s) by (repeat split).
  destruct Hfields as (Hi & Hl & Hp & He & Hc).
  split; [reflexivity|]. repeat (split; [assumption || reflexivity|]).
  rewrite (initialize_loads _ page s' Hi (or_introl Hl)).
  rewrite (initialize_loads _ page fresh eq_refl (or_introl eq_refl)).
  cbn [fst snd calls]. split; [reflexivity|].
  rewrite (asked_app _ _ _ (load_calls page)) by reflexivity.
  split; [reflexivity|]. apply load_calls_start.
Qed.



(** ** Sessions started and stopped from the browser *)

Import ForwardTestingClient.

Lemma filter_active_after_stop :
  forall userId sessionId rows,
    filter is_active
      (map (fun r => if ForwardTestingService.selected userId sessionId r
                     then ForwardTestingService.deactivate r else r) rows)
    = filter (fun r => negb (ForwardTestingService.selected userId sessionId r))
        (filter is_active rows).
Proof.
  intros userId sessionId rows. induction rows as [|r rows IH]; simpl.
  - reflexivity.
  - destruct (ForwardTestingService.selected userId sessionId r) eqn:Hsel;
      simpl.
    + rewrite IH. destruct (is_active r); simpl; [rewrite Hsel|]; reflexivity.
    + destruct (is_active r); simpl; [rewrite Hsel; simpl|];
        now rewrite IH.
Qed.

(** X24. Stopping takes effect at the next tick: after a [stopSession]
    the database accepted, the tick loads the sessions it would have
    loaded before except those the stop selected; stopping without a
    session id, or with an empty one, leaves none of the user's sessions
    to load. *)
Theorem stopped_sessions_are_not_loaded :
  forall env userId sessionId w,
    let w' := snd (ForwardTestingService.stopSession DbOk userId sessionId w) in
    loaded env w'
    = filter (fun r => negb (ForwardTestingService.selected userId sessionId r))
        (loaded env w)
    /\ ((sessionId = None \/ sessionId = Some ""%string) ->
        forall s, In s (loaded env w') -> user_id s <> userId).
Proof.
  intros env userId sessionId w w'. subst w'.
  assert (H : loaded env
                (snd (ForwardTestingService.stopSession DbOk userId
                        sessionId w))
              = filter (fun r => negb (ForwardTestingService.selected
                                         userId sessionId r))
                  (loaded env w)).
  { unfold loaded. destruct (select_reply env); try reflexivity.
    apply filter_active_after_stop. }
  split; [exact H|].
  intros Hall s Hs. rewrite H in Hs. apply filter_In in Hs.
  destruct Hs as [_ Hsel]. intros Huser.
  unfold ForwardTestingService.selected in Hsel.
  rewrite Huser, String.eqb_refl in Hsel.
  destruct Hall as [-> | ->]; discriminate Hsel.
Qed.

Lemma other_users_untouched :
  forall userId sessionId rows,
    filter (fun r => negb (String.eqb (user_id r) userId))
      (map (fun r => if ForwardTestingService.selected userId sessionId r
                     then ForwardTestingService.deactivate r else r) rows)
    = filter (fun r => negb (String.eqb (user_id r) userId)) rows.
Proof.
  intros userId sessionId rows. induction rows as [|r rows IH]; simpl.
  - reflexivity.
  - destruct (ForwardTestingService.selected userId sessionId r) eqn:Hs.
    + unfold ForwardTestingService.selected in Hs.
      apply andb_prop in Hs. destruct Hs as [Hu _].
      cbn [user_id ForwardTestingService.deactivate]. rewrite Hu. simpl.
      exact IH.
    + destruct (negb (String.eqb (user_id r) userId)); now rewrite IH.
Qed.

(** X25. [stopSession] changes nothing but the activity flag of the rows
    it selects: the table keeps its length, every row is either as it
    was or the deactivated copy of a selected row, rows of other users
    are untouched, stopping twice is stopping once, and when the
    database refuses the update the error is thrown and the table is as
    before. *)
Theorem stopSession_touches_only_selected_rows :
  forall reply userId sessionId w,
    let run := ForwardTestingService.stopSession reply userId sessionId w in
    let rows := trading_sessions w in
    let rows' := trading_sessions (snd run) in
    Forall2 (fun r r' =>
               r' = r
               \/ (ForwardTestingService.selected userId sessionId r = true
                   /\ r' = ForwardTestingService.deactivate r)) rows rows'
    /\ filter (fun r => negb (String.eqb (user_id r) userId)) rows'
       = filter (fun r => negb (String.eqb (user_id r) userId)) rows
    /\ trading_sessions
         (snd (ForwardTestingService.stopSession reply userId sessionId
                 (snd run)))
       = rows'
    /\ (reply <> DbOk -> snd run = w /\ exists e, fst run = Thrown e).
Proof.
  intros reply userId sessionId w run rows rows'. subst run rows rows'.
  destruct reply as [|e|e]; cbn.
  - split; [|split; [|split]].
    + induction (trading_sessions w) as [|r rows IH]; simpl; constructor.
      * destruct (ForwardTestingService.selected userId sessionId r) eqn:Hs;
          auto.
      * exact IH.
    + apply other_users_untouched.
    + rewrite map_map. apply map_ext. intros r.
      destruct (ForwardTestingService.selected userId sessionId r) eqn:Hs;
        [|now rewrite Hs].
      assert (Hd : ForwardTestingService.selected userId sessionId
                     (ForwardTestingService.deactivate r) = true)
        by exact Hs.
      rewrite Hd. reflexivity.
    + intros H. now destruct H.
  - split; [|split; [|split]].
    + induction (trading_sessions w); constructor; auto.
    + reflexivity.
    + reflexivity.
    + intros _. split; [reflexivity|now exists e].
  - split; [|split; [|split]].
    + induction (trading_sessions w); constructor; auto.
    + reflexivity.
    + reflexivity.
    + intros _. split; [reflexivity|now exists e].
Qed.

(** X26. A session the browser has just started is one the next tick
    trades: it is added at the end of the table, active, so a tick that
    reads the table loads it; it does not avoid low volume, so it is
    processed whenever the market is open; and an order for it is a
    market order of 1000 units (negative for SELL) with a stop distance
    of 0.004 and a profit distance of 0.008. *)
Theorem started_session_is_traded_with_defaults :
  forall env row_id now userId strategyId strategyName strategyCode symbol
         timeframe oandaAccountId oandaApiKey environment c,
    select_reply env = SelectRows ->
    let run := startSession (Inserted row_id) now userId strategyId
                 strategyName strategyCode symbol timeframe oandaAccountId
                 oandaApiKey environment c in
    exists session,
      fst run = Returned session
      /\ id session = row_id /\ user_id session = userId
      /\ table (snd run) = table c ++ [session]
      /\ In session (loaded env (tick_world (snd run)))
      /\ (forall marketStatus,
            shouldExecuteTrade marketStatus session = isOpen marketStatus)
      /\ forall d,
           orderData session d
           = {| order_type := "MARKET";
                instrument := symbol;
                units := match d with BUY => 1000%Z | SELL => (-1000)%Z end;
                stopLossOnFill_distance := 0.004;
                takeProfitOnFill_distance := 0.008 |}.
Proof.
  intros env row_id now userId strategyId strategyName strategyCode sym
    tf oandaAccountId oandaApiKey environ c Hsel run.
  subst run. unfold startSession, caught, next, insert_session,
    console_line, done.
  cbn [fst snd].
  eexists. split; [reflexivity|].
  split; [reflexivity|]. split; [reflexivity|]. split; [reflexivity|].
  split; [|split].
  - unfold loaded. rewrite Hsel. cbn [tick_world trading_sessions log table].
    apply filter_In. split; [|reflexivity].
    apply in_or_app. right. now left.
  - intros ms. unfold shouldExecuteTrade.
    cbn [avoid_low_volume ForwardTestingService.sessionData].
    rewrite andb_false_r. now destruct (isOpen ms).
  - intros d. unfold orderData.
    cbn [stop_loss take_profit symbol ForwardTestingService.sessionData].
    f_equal.
Qed.

Lemma started_session_is_traded_with_defaults_witness :
  exists session,
    fst (startSession (Inserted "session-n") "2024-01-02T12:00:00.000Z"
           "user-123" "strategy-1" "EMA Crossover" "strategy_logic(data)"
           "EUR_USD" "M5" "account-id" "api-key" "practice" no_client)
    = Returned session
    /\ stopLossOnFill_distance (orderData session BUY) = 0.004%float.
Proof.
  destruct (started_session_is_traded_with_defaults env_one_fails
              "session-n" "2024-01-02T12:00:00.000Z"
              "user-123" "strategy-1" "EMA Crossover" "strategy_logic(data)"
              "EUR_USD" "M5" "account-id" "api-key" "practice" no_client
              eq_refl)
    as (session & Hrun & _ & _ & _ & _ & _ & Horder).
  exists session. split; [exact Hrun|]. now rewrite (Horder BUY).
Defined.

(** X27. Whenever [startSession] throws, what it throws is the error
    the database answered or threw, and the table is as it was; the
    [catch] writes the error to the console and throws it again, so an
    [error] answered by the database is on the console twice, from the
    check and from the [catch], and an exception once. *)
Theorem failed_start_leaves_the_table :
  forall reply e now userId strategyId strategyName strategyCode symbol
         timeframe oandaAccountId oandaApiKey environment c,
    let run := startSession reply now userId strategyId strategyName
                 strategyCode symbol timeframe oandaAccountId oandaApiKey
                 environment c in
    fst run = Thrown e ->
    (reply = InsertError e \/ reply = InsertThrows e)
    /\ table (snd run) = table c
    /\ lines (snd run)
       = lines c
         ++ match reply with
            | InsertError _ => [ErrFailedToCreate e; ErrFailedToStart e]
            | _ => [ErrFailedToStart e]
            end.
Proof.
  intros reply e now userId strategyId strategyName strategyCode sym tf
    oandaAccountId oandaApiKey environ c run. subst run.
  unfold startSession, caught, next, insert_session, console_line, fail,
    done, log.
  destruct reply as [row_id|e'|e']; cbn [fst snd table lines];
    intros H; try discriminate H; injection H as ->;
    rewrite <- ?app_assoc; auto.
Qed.

Lemma failed_start_leaves_the_table_witness :
  let run :=
    startSession (InsertError {| message := "duplicate key" |})
      "2024-01-02T12:00:00.000Z" "user-123" "strategy-1" "EMA Crossover"
      "strategy_logic(data)" "EUR_USD" "M5" "account-id" "api-key"
      "practice" no_client in
  fst run = Thrown {| message := "duplicate key" |}
  /\ table (snd run) = []
  /\ lines (snd run)
     = [ErrFailedToCreate {| message := "duplicate key" |};
        ErrFailedToStart {| message := "duplicate key" |}].
Proof.
  intros run.
  assert (H : fst run = Thrown {| message := "duplicate key" |})
    by reflexivity.
  split; [exact H|].
  exact (proj2 (failed_start_leaves_the_table
                  (InsertError {| message := "duplicate key" |})
                  {| message := "duplicate key" |}
                  "2024-01-02T12:00:00.000Z" "user-123" "strategy-1"
                  "EMA Crossover" "strategy_logic(data)" "EUR_USD" "M5"
                  "account-id" "api-key" "practice" no_client H)).
Defined.

(** X28. [updateSessionExecution] never throws, and what it does to the
    table is what the tick's own update does for one session: with the
    same answer of the database and the same clock reading, the browser
    call and [updateSessionExecutionTimes] on that session leave the
    same table, which is the old one with [last_execution] set on the
    rows with the session's id when the database accepts the update, and
    the old one otherwise. *)
Theorem updateSessionExecution_is_the_tick_update :
  forall env s c,
    let run := updateSessionExecution (update_reply env (id s)) (iso_now env)
                 (id s) c in
    fst run = Returned tt
    /\ table (snd run)
       = trading_sessions
           (snd (updateSessionExecutionTimes env [s] (tick_world c)))
    /\ table (snd run)
       = match update_reply env (id s) with
         | DbOk => stamp [id s] (iso_now env) (table c)
         | _ => table c
         end.
Proof.
  intros env s c run. subst run.
  rewrite updateSessionExecutionTimes_run.
  cbn [snd trading_sessions tick_world map updated_ids].
  unfold updateSessionExecution.
  destruct (update_reply env (id s)); cbn [fst snd table log];
    rewrite ?stamp_nil; repeat split;
    now rewrite <- stamp_cons, stamp_nil.
Qed.

(** ** The lightweight indicators and [execute_strategy] *)

Lemma setitem_length :
  forall l i v,
    (i < length l)%nat -> length (Lightweight.setitem l i v) = length l.
Proof.
  intros l i v H. unfold Lightweight.setitem.
  rewrite length_app, length_firstn. cbn [length]. rewrite length_skipn. lia.
Qed.

Lemma setitem_firstn :
  forall l i v k,
    (k <= i)%nat -> (i < length l)%nat ->
    firstn k (Lightweight.setitem l i v) = firstn k l.
Proof.
  intros l i v k Hk Hi. unfold Lightweight.setitem.
  rewrite firstn_app, length_firstn, firstn_firstn.
  replace (Nat.min k i) with k by lia.
  replace (k - Nat.min i (length l))%nat with 0%nat by lia.
  cbn [firstn]. now rewrite app_nil_r.
Qed.

Lemma ema_step_is_setitem :
  forall data m i acc,
    exists v, Lightweight.ema_step data m i acc = Lightweight.setitem acc i v.
Proof.
  intros data m i acc. unfold Lightweight.ema_step.
  destruct (negb _); eauto.
Qed.

Lemma ema_loop_invariant :
  forall data m n i acc k,
    (i + n <= length acc)%nat -> (k <= i)%nat ->
    let r := Js.for_loop n i (Lightweight.ema_step data m) acc in
    length r = length acc /\ firstn k r = firstn k acc.
Proof.
  intros data m n. induction n as [|n IH]; intros i acc k Hn Hk; cbn.
  - split; reflexivity.
  - destruct (ema_step_is_setitem data m i acc) as (v & ->).
    destruct (IH (S i) (Lightweight.setitem acc i v) k) as [Hlen Hpre].
    + rewrite setitem_length by lia. lia.
    + lia.
    + rewrite Hlen, Hpre, setitem_length by lia.
      split; [reflexivity|]. apply setitem_firstn; lia.
Qed.

Lemma skip_nan_bound :
  forall data start,
    (start <= Lightweight.skip_nan data start <= start + length data)%nat.
Proof.
  induction data as [|d rest IH]; intros start; cbn.
  - lia.
  - destruct (PrimFloat.is_nan d); [|lia].
    specialize (IH (S start)). lia.
Qed.

Lemma firstn_repeat_le :
  forall (A : Type) (a : A) k n,
    (k <= n)%nat -> firstn k (repeat a n) = repeat a k.
Proof.
  intros A a k. induction k as [|k IH]; intros n H; [reflexivity|].
  destruct n as [|n]; [lia|]. cbn. rewrite IH by lia. reflexivity.
Qed.

(** X29. [TechnicalAnalysis.ema] on a list of floats never changes the
    length of the series; up to the first sample that is a number the
    result is NaN, and at that sample it is the sample itself; for a
    period of zero or less, or a series of NaN only, every entry is
    NaN. *)
Theorem lightweight_ema_keeps_the_length :
  forall data period,
    let result := Lightweight.ema data period in
    let start := Lightweight.skip_nan data 0 in
    length result = length data
    /\ firstn start result = repeat PrimFloat.nan start
    /\ (Js.le period 0 = true \/ start = length data ->
        result = repeat PrimFloat.nan (length data))
    /\ (Js.le period 0 = false -> (start < length data)%nat ->
        nth_error result start = nth_error data start).
Proof.
  intros data period result start. subst result.
  pose proof (skip_nan_bound data 0) as Hstart. fold start in Hstart.
  cbn [Nat.add] in Hstart.
  unfold Lightweight.ema. fold start.
  destruct data as [|d0 rest] eqn:Hdata.
  - cbn. repeat split; reflexivity.
  - rewrite <- Hdata in *. cbn [orb].
    replace (match data with [] => true | _ :: _ => false end) with false
      by now rewrite Hdata.
    cbn [orb].
    destruct (Js.le period 0) eqn:Hperiod.
    + rewrite repeat_length. split; [reflexivity|].
      split; [apply firstn_repeat_le; lia|].
      split; [reflexivity|discriminate].
    + destruct (length data <=? start)%nat eqn:Hall.
      * apply Nat.leb_le in Hall. rewrite repeat_length.
        split; [reflexivity|]. split; [apply firstn_repeat_le; lia|].
        split; [reflexivity|]. intros _ H. lia.
      * apply Nat.leb_gt in Hall.
        set (first := Lightweight.setitem
                        (repeat PrimFloat.nan (length data)) start
                        (Lightweight.getitem data start)).
        assert (Hfirst : length first = length data).
        { unfold first. rewrite setitem_length; rewrite repeat_length;
            [reflexivity|lia]. }
        destruct (ema_loop_invariant data (2 / (period + 1))
                    (length data - (start + 1)) (start + 1) first (S start))
          as [Hlen Hpre]; [lia|lia|].
        cbv zeta in Hlen, Hpre.
        split; [now rewrite Hlen|]. split; [|split].
        -- assert (Hcut : forall l : list float,
                      firstn start l = firstn start (firstn (S start) l)).
           { intros l. rewrite firstn_firstn. f_equal. lia. }
           rewrite Hcut, Hpre, <- Hcut.
           unfold first. rewrite setitem_firstn;
             [|lia|rewrite repeat_length; lia].
           apply firstn_repeat_le. lia.
        -- intros [H|H]; [discriminate H|lia].
        -- intros _ _.
           assert (Hnth : forall l : list float,
                      nth_error l start = nth_error (firstn (S start) l) start).
           { intros l. rewrite nth_error_firstn.
             now replace (start <? S start)%nat with true
               by (symmetry; apply Nat.ltb_lt; lia). }
           rewrite Hnth, Hpre, <- Hnth. unfold first, Lightweight.setitem.
           assert (Hl : length (firstn start
                                  (repeat PrimFloat.nan (length data)))
                        = start)
             by (rewrite length_firstn, repeat_length; lia).
           rewrite nth_error_app2 by lia. rewrite Hl, Nat.sub_diag.
           cbn [nth_error]. unfold Lightweight.getitem.
           symmetry. apply nth_error_nth'. lia.
Qed.



(** ** One submission per order *)

Lemma configuration_keeps_activity :
  forall r, is_active (configuration r) = is_active r.
Proof. reflexivity. Qed.

Lemma active_rows_keep_configuration :
  forall rows rows',
    map configuration rows' = map configuration rows ->
    map configuration (filter is_active rows')
    = map configuration (filter is_active rows).
Proof.
  induction rows as [|r rows IH]; intros [|r' rows'] H; try discriminate H.
  - reflexivity.
  - assert (Hr : configuration r' = configuration r)
      by exact (f_equal (fun l => hd (configuration r) l) H).
    assert (Hrows : map configuration rows' = map configuration rows)
      by exact (f_equal (fun l => tl l) H).
    assert (Hact : is_active r' = is_active r).
    { rewrite <- (configuration_keeps_activity r'), Hr. reflexivity. }
    cbn [filter]. rewrite Hact.
    destruct (is_active r); cbn [map]; rewrite (IH rows' Hrows);
      [now rewrite Hr|reflexivity].
Qed.

(** C4 (amended). A submission is one [POST], whatever the brokerage
    answers, and its outcome depends on the answer to that request
    alone, not on what later submissions would have been answered.  An
    answer with a status outside 200..299 (503 and 429 as much as 401
    or 400) makes [executeOANDATrade] throw "Trade execution failed"
    with the body text, and a rejected request makes it throw the
    rejection; nothing is retried.  The pipeline sends the failure to
    the audit log as an [error] entry with its message and throws it
    again, and a tick leaves the configuration and the activity flag of
    every row, so the same sessions are loaded at the next tick. *)
Theorem executeOANDATrade_never_retries :
  forall env session direction w,
    let run := executeOANDATrade env session direction w in
    let answer := order_reply env session (orderData session direction) 0%nat in
    issued w (snd run) = [order_request session direction]
    /\ (forall env',
          order_reply env' session (orderData session direction) 0%nat
          = answer ->
          fst (executeOANDATrade env' session direction w) = fst run)
    /\ (forall status text json,
          answer = PostResponse status text json ->
          response_ok status = false ->
          fst run
          = Thrown {| message := ("Trade execution failed: " ++ text)%string |})
    /\ (forall e, answer = PostRejects e -> fst run = Thrown e)
    /\ (forall marketStatus marketData err,
          shouldExecuteTrade marketStatus session = true ->
          fetched env session = Returned marketData ->
          session_signal session marketData = Some direction ->
          fst run = Thrown err ->
          let tick := processTradinSession env marketStatus session w in
          fst tick = Thrown err
          /\ trading_sessions (snd tick) = trading_sessions w
          /\ exists e,
               issued w (snd tick)
               = [candles_request session; order_request session direction;
                  InsertLog e]
               /\ session_id e = id session
               /\ log_type e = TradingExecutor.error
               /\ a_error (trade_data e) = Some (message err))
    /\ (forall w0,
          map configuration (loaded env (snd (handler env w0)))
          = map configuration (loaded env w0)).
Proof.
  intros env s d w run answer. subst run answer.
  pose proof (writes_executeOANDATrade env s d) as Hw.
  destruct (writes_issued _ _ _ _ _ _ w Hw) as (Hout & Hone & _ & _).
  clear Hw.
  split; [exact Hone|]. split; [|split; [|split; [|split]]].
  - intros env' Hsame. unfold executeOANDATrade, bind, send, throw, ret.
    cbn. now rewrite Hsame.
  - intros status text json Hanswer Hok.
    unfold executeOANDATrade, bind, send, throw. cbn.
    now rewrite Hanswer, Hok.
  - intros e Hanswer. unfold executeOANDATrade, bind, send, throw. cbn.
    now rewrite Hanswer.
  - intros ms md err Hgo Hfetched Hsig Hthrown tick. subst tick.
    rewrite Hout in Hthrown. clear Hout Hone.
    destruct (pipeline_run env ms s w) as (e & Hc & Hid & _ & Hrows).
    split; [|split; [exact Hrows|]].
    + pipeline_cases Hc; assert (md' = md) by congruence; subst md';
        assert (d' = d) by congruence; subst d'; congruence.
    + exists e.
      pipeline_cases Hc; assert (md' = md) by congruence; subst md';
        assert (d' = d) by congruence; subst d'; try congruence.
      assert (err' = err) by congruence. subst err'.
      repeat split; assumption.
  - intros w0. unfold loaded. destruct (select_reply env); try reflexivity.
    apply active_rows_keep_configuration.
    exact (proj1 (steady_handler env w0)).
Qed.

Lemma executeOANDATrade_never_retries_witness :
  response_ok 503 = false
  /\ fst (executeOANDATrade env_503_three_times session_a BUY empty_world)
     = Thrown {| message := "Trade execution failed: Service Unavailable" |}
  /\ issued empty_world
       (snd (executeOANDATrade env_503_three_times session_a BUY empty_world))
     = [order_request session_a BUY].
Proof.
  split; [reflexivity|].
  pose proof (executeOANDATrade_never_retries env_503_three_times session_a
                BUY empty_world) as (Hone & _ & Hfail & _).
  split; [|exact Hone].
  exact (Hfail 503%nat "Service Unavailable"%string
           (inl {| message := "Unexpected token S in JSON" |})
           eq_refl eq_refl).
Defined.
